(** * qwc-admin-gui: resource and theme controllers

    A shallow embedding of [controllers/resources_controller.py] and
    [controllers/themes_controller.py] (with [forms/theme_form.py]), and
    the properties of the cascade delete, the hierarchy view, the
    pagination, the map/layer import and the theme document editing that
    follow from the code. *)

From Stdlib Require Import ZArith QArith Qround String Ascii.
From stdpp Require Import base tactics option list sorting strings pretty gmap.

Set Warnings "-register-all".

Local Open Scope Z_scope.
Local Open Scope string_scope.
Local Open Scope list_scope.

(** ** Python values, exceptions and list indexing *)

(** The exceptions and HTTP aborts the handlers can end with. *)
Inductive exn : Type :=
  | IndexError
  | KeyError (key : string)
  | ValueError
  | TypeError
  | AttributeError
  | ZeroDivisionError
  | RecursionError
  | NameError
  | DataError
  | HTTPAbort (code : Z).

Inductive result (A : Type) : Type :=
  | Ok (a : A)
  | Raise (e : exn).
Arguments Ok {A} a.
Arguments Raise {A} e.

#[global] Instance result_ret : MRet result := fun A a => Ok a.
#[global] Instance result_bind : MBind result := fun A B k r =>
  match r with
  | Ok a => k a
  | Raise e => Raise e
  end.

(** JSON values as Python holds them after [json.load] with
    [object_pairs_hook=OrderedDict]: a dict keeps the order of its keys. *)
Inductive value : Type :=
  | VNone
  | VBool (b : bool)
  | VInt (z : Z)
  | VStr (s : string)
  | VList (l : list value)
  | VDict (kv : list (string * value)).

(** Python truthiness, the test of [if form.x.data:]. *)
Definition truthy (v : value) : bool :=
  match v with
  | VNone => false
  | VBool b => b
  | VInt z => negb (z =? 0)%Z
  | VStr s => negb (String.eqb s EmptyString)
  | VList l => match l with [] => false | _ => true end
  | VDict kv => match kv with [] => false | _ => true end
  end.

Section PyList.
Context {A : Type}.

(** The position a Python index addresses: [l[i]] counts from the end
    for a negative [i], and is out of range outside [-len, len). *)
Definition py_index (l : list A) (i : Z) : option nat :=
  let n := Z.of_nat (length l) in
  if decide (0 <= i < n) then Some (Z.to_nat i)
  else if decide (- n <= i < 0) then Some (Z.to_nat (n + i))
  else None.

(** [l[i]] *)
Definition py_getitem (l : list A) (i : Z) : result A :=
  match py_index l i with
  | Some k => match l !! k with Some x => Ok x | None => Raise IndexError end
  | None => Raise IndexError
  end.

(** [l[i] = x] *)
Definition py_setitem (l : list A) (i : Z) (x : A) : result (list A) :=
  match py_index l i with
  | Some k => Ok (<[k:=x]> l)
  | None => Raise IndexError
  end.

(** [l.pop(i)]: the removed element and the remaining list. *)
Definition py_pop (l : list A) (i : Z) : result (A * list A) :=
  match py_index l i with
  | Some k => match l !! k with
              | Some x => Ok (x, delete k l)
              | None => Raise IndexError
              end
  | None => Raise IndexError
  end.

(** [l[a], l[b] = l[b], l[a]]: the right-hand side is evaluated left to
    right into a tuple, then the targets are assigned left to right. *)
Definition py_swap_assign (l : list A) (a b : Z) : result (list A) :=
  x ← py_getitem l b;
  y ← py_getitem l a;
  l1 ← py_setitem l a x;
  py_setitem l1 b y.
End PyList.

(** ** Strings and ordered dicts *)

(** [s.split(c)] for a one-character separator: never empty. *)
Fixpoint split_on (c : ascii) (s : string) : list string :=
  match s with
  | EmptyString => [EmptyString]
  | String a s' =>
      if Ascii.eqb a c then EmptyString :: split_on c s'
      else match split_on c s' with
           | x :: xs => String a x :: xs
           | [] => [String a EmptyString]
           end
  end.

(** [s.replace] of every space by nothing. *)
Fixpoint remove_spaces (s : string) : string :=
  match s with
  | EmptyString => EmptyString
  | String a s' =>
      if Ascii.eqb a " "%char then remove_spaces s' else String a (remove_spaces s')
  end.

(** [", ".join(l)] *)
Fixpoint join_comma (l : list string) : string :=
  match l with
  | [] => EmptyString
  | [x] => x
  | x :: xs => x +:+ ", " +:+ join_comma xs
  end.

(** [v.split("/")[-1]]: a value that is not a string has no [split]. *)
Definition url_basename (v : value) : result string :=
  match v with
  | VStr s => py_getitem (split_on "/"%char s) (-1)
  | _ => Raise AttributeError
  end.

(** [k in d] and [d[k]] on an ordered dict. *)
Fixpoint dict_get {V} (k : string) (d : list (string * V)) : option V :=
  match d with
  | [] => None
  | (k', v) :: d' => if String.eqb k k' then Some v else dict_get k d'
  end.

Definition dict_has {V} (k : string) (d : list (string * V)) : bool :=
  match dict_get k d with Some _ => true | None => false end.

Definition dict_getitem {V} (k : string) (d : list (string * V)) : result V :=
  match dict_get k d with
  | Some v => Ok v
  | None => Raise (KeyError k)
  end.

(** [d[k] = v]: a present key keeps its place, a new key goes last. *)
Fixpoint dict_set {V} (k : string) (v : V) (d : list (string * V))
  : list (string * V) :=
  match d with
  | [] => [(k, v)]
  | (k', v') :: d' =>
      if String.eqb k k' then (k, v) :: d' else (k', v') :: dict_set k v d'
  end.

(** A [str] is held as its UTF-8 bytes.  The bytes [10xxxxxx] continue a
    character; every other byte starts one. *)
Definition is_continuation (a : ascii) : bool :=
  match a with
  | Ascii _ _ _ _ _ _ false true => true
  | _ => false
  end.

(** The characters of a [str], each with all its bytes. *)
Fixpoint code_points (s : string) : list string :=
  match s with
  | EmptyString => []
  | String a s' =>
      let continued :=
        match s' with
        | String b _ => is_continuation b
        | EmptyString => false
        end in
      match code_points s' with
      | p :: ps =>
          if continued then String a p :: ps
          else String a EmptyString :: p :: ps
      | [] => [String a EmptyString]
      end
  end.

(** What [for x in v] walks over: the elements of a list, the keys of a
    dict, the characters of a [str]. *)
Definition py_iter (v : value) : result (list value) :=
  match v with
  | VList l => Ok l
  | VDict kv => Ok (map (fun p => VStr (fst p)) kv)
  | VStr s => Ok (map VStr (code_points s))
  | _ => Raise TypeError
  end.

(** [map f l] that stops at the first exception. *)
Fixpoint map_result {A B} (f : A -> result B) (l : list A) : result (list B) :=
  match l with
  | [] => Ok []
  | x :: xs => y ← f x; ys ← map_result f xs; Ok (y :: ys)
  end.

(** ** The themes document *)

(** A theme item is an [OrderedDict] of its keys. *)
Definition theme : Type := list (string * value).

Record theme_group : Type := {
  group_title : value;
  group_items : list theme
}.

(** [themesconfig["themes"]] with its "items" and "groups". *)
Record themes_doc : Type := {
  items : list theme;
  groups : list theme_group
}.

Definition set_items (d : themes_doc) (l : list theme) : themes_doc :=
  {| items := l; groups := groups d |}.

Definition set_groups (d : themes_doc) (g : list theme_group) : themes_doc :=
  {| items := items d; groups := g |}.

Definition set_group_items (g : theme_group) (l : list theme) : theme_group :=
  {| group_title := group_title g; group_items := l |}.

(** ** The theme form ([forms/theme_form.py])

    Each field is held by its [data]: what the request submitted, or what
    the handler assigned. *)
Module BackgroundLayersForm.
Record t : Type := mk {
  lname : value;
  printLayer : value;
  visibility : value
}.
End BackgroundLayersForm.

Module ThemeForm.
Record t : Type := mk {
  url : value;
  title : value;
  thumbnail : value;
  attribution : value;
  attributionUrl : value;
  format : value;
  mapCrs : value;
  additionalMouseCrs : value;
  scales : value;
  printScales : value;
  printResolutions : value;
  searchProviders : value;
  collapseLayerGroupsBelowLevel : value;
  default : value;
  tiled : value;
  skipEmptyFeatureAttributes : value;
  backgroundLayers : list BackgroundLayersForm.t
}.

(** [ThemeForm(url=u)] outside a submission: no field has data but [url];
    a [BooleanField] holds [bool(None)], the [FieldList] is empty. *)
Definition new (u : value) : t :=
  {| url := u; title := VNone; thumbnail := VNone; attribution := VNone;
     attributionUrl := VNone; format := VNone; mapCrs := VNone;
     additionalMouseCrs := VNone; scales := VNone; printScales := VNone;
     printResolutions := VNone; searchProviders := VNone;
     collapseLayerGroupsBelowLevel := VNone; default := VBool false;
     tiled := VBool false; skipEmptyFeatureAttributes := VBool false;
     backgroundLayers := [] |}.

(** [form.title.data = v] *)
Definition set_title (v : value) (f : t) : t :=
  {| url := url f; title := v; thumbnail := thumbnail f;
     attribution := attribution f; attributionUrl := attributionUrl f;
     format := format f; mapCrs := mapCrs f;
     additionalMouseCrs := additionalMouseCrs f; scales := scales f;
     printScales := printScales f; printResolutions := printResolutions f;
     searchProviders := searchProviders f;
     collapseLayerGroupsBelowLevel := collapseLayerGroupsBelowLevel f;
     default := default f; tiled := tiled f;
     skipEmptyFeatureAttributes := skipEmptyFeatureAttributes f;
     backgroundLayers := backgroundLayers f |}.

(** [form.thumbnail.data = v] *)
Definition set_thumbnail (v : value) (f : t) : t :=
  {| url := url f; title := title f; thumbnail := v;
     attribution := attribution f; attributionUrl := attributionUrl f;
     format := format f; mapCrs := mapCrs f;
     additionalMouseCrs := additionalMouseCrs f; scales := scales f;
     printScales := printScales f; printResolutions := printResolutions f;
     searchProviders := searchProviders f;
     collapseLayerGroupsBelowLevel := collapseLayerGroupsBelowLevel f;
     default := default f; tiled := tiled f;
     skipEmptyFeatureAttributes := skipEmptyFeatureAttributes f;
     backgroundLayers := backgroundLayers f |}.

(** [form.attribution.data = v] *)
Definition set_attribution (v : value) (f : t) : t :=
  {| url := url f; title := title f; thumbnail := thumbnail f;
     attribution := v; attributionUrl := attributionUrl f;
     format := format f; mapCrs := mapCrs f;
     additionalMouseCrs := additionalMouseCrs f; scales := scales f;
     printScales := printScales f; printResolutions := printResolutions f;
     searchProviders := searchProviders f;
     collapseLayerGroupsBelowLevel := collapseLayerGroupsBelowLevel f;
     default := default f; tiled := tiled f;
     skipEmptyFeatureAttributes := skipEmptyFeatureAttributes f;
     backgroundLayers := backgroundLayers f |}.

(** [form.default.data = v] *)
Definition set_default (v : value) (f : t) : t :=
  {| url := url f; title := title f; thumbnail := thumbnail f;
     attribution := attribution f; attributionUrl := attributionUrl f;
     format := format f; mapCrs := mapCrs f;
     additionalMouseCrs := additionalMouseCrs f; scales := scales f;
     printScales := printScales f; printResolutions := printResolutions f;
     searchProviders := searchProviders f;
     collapseLayerGroupsBelowLevel := collapseLayerGroupsBelowLevel f;
     default := v; tiled := tiled f;
     skipEmptyFeatureAttributes := skipEmptyFeatureAttributes f;
     backgroundLayers := backgroundLayers f |}.

(** [form.format.data = v] *)
Definition set_format (v : value) (f : t) : t :=
  {| url := url f; title := title f; thumbnail := thumbnail f;
     attribution := attribution f; attributionUrl := attributionUrl f;
     format := v; mapCrs := mapCrs f;
     additionalMouseCrs := additionalMouseCrs f; scales := scales f;
     printScales := printScales f; printResolutions := printResolutions f;
     searchProviders := searchProviders f;
     collapseLayerGroupsBelowLevel := collapseLayerGroupsBelowLevel f;
     default := default f; tiled := tiled f;
     skipEmptyFeatureAttributes := skipEmptyFeatureAttributes f;
     backgroundLayers := backgroundLayers f |}.

(** [form.mapCrs.data = v] *)
Definition set_mapCrs (v : value) (f : t) : t :=
  {| url := url f; title := title f; thumbnail := thumbnail f;
     attribution := attribution f; attributionUrl := attributionUrl f;
     format := format f; mapCrs := v;
     additionalMouseCrs := additionalMouseCrs f; scales := scales f;
     printScales := printScales f; printResolutions := printResolutions f;
     searchProviders := searchProviders f;
     collapseLayerGroupsBelowLevel := collapseLayerGroupsBelowLevel f;
     default := default f; tiled := tiled f;
     skipEmptyFeatureAttributes := skipEmptyFeatureAttributes f;
     backgroundLayers := backgroundLayers f |}.

(** [form.additionalMouseCrs.data = v] *)
Definition set_additionalMouseCrs (v : value) (f : t) : t :=
  {| url := url f; title := title f; thumbnail := thumbnail f;
     attribution := attribution f; attributionUrl := attributionUrl f;
     format := format f; mapCrs := mapCrs f; additionalMouseCrs := v;
     scales := scales f; printScales := printScales f;
     printResolutions := printResolutions f;
     searchProviders := searchProviders f;
     collapseLayerGroupsBelowLevel := collapseLayerGroupsBelowLevel f;
     default := default f; tiled := tiled f;
     skipEmptyFeatureAttributes := skipEmptyFeatureAttributes f;
     backgroundLayers := backgroundLayers f |}.

(** [form.scales.data = v] *)
Definition set_scales (v : value) (f : t) : t :=
  {| url := url f; title := title f; thumbnail := thumbnail f;
     attribution := attribution f; attributionUrl := attributionUrl f;
     format := format f; mapCrs := mapCrs f;
     additionalMouseCrs := additionalMouseCrs f; scales := v;
     printScales := printScales f; printResolutions := printResolutions f;
     searchProviders := searchProviders f;
     collapseLayerGroupsBelowLevel := collapseLayerGroupsBelowLevel f;
     default := default f; tiled := tiled f;
     skipEmptyFeatureAttributes := skipEmptyFeatureAttributes f;
     backgroundLayers := backgroundLayers f |}.

(** [form.printScales.data = v] *)
Definition set_printScales (v : value) (f : t) : t :=
  {| url := url f; title := title f; thumbnail := thumbnail f;
     attribution := attribution f; attributionUrl := attributionUrl f;
     format := format f; mapCrs := mapCrs f;
     additionalMouseCrs := additionalMouseCrs f; scales := scales f;
     printScales := v; printResolutions := printResolutions f;
     searchProviders := searchProviders f;
     collapseLayerGroupsBelowLevel := collapseLayerGroupsBelowLevel f;
     default := default f; tiled := tiled f;
     skipEmptyFeatureAttributes := skipEmptyFeatureAttributes f;
     backgroundLayers := backgroundLayers f |}.

(** [form.printResolutions.data = v] *)
Definition set_printResolutions (v : value) (f : t) : t :=
  {| url := url f; title := title f; thumbnail := thumbnail f;
     attribution := attribution f; attributionUrl := attributionUrl f;
     format := format f; mapCrs := mapCrs f;
     additionalMouseCrs := additionalMouseCrs f; scales := scales f;
     printScales := printScales f; printResolutions := v;
     searchProviders := searchProviders f;
     collapseLayerGroupsBelowLevel := collapseLayerGroupsBelowLevel f;
     default := default f; tiled := tiled f;
     skipEmptyFeatureAttributes := skipEmptyFeatureAttributes f;
     backgroundLayers := backgroundLayers f |}.

(** [form.skipEmptyFeatureAttributes.data = v] *)
Definition set_skipEmptyFeatureAttributes (v : value) (f : t) : t :=
  {| url := url f; title := title f; thumbnail := thumbnail f;
     attribution := attribution f; attributionUrl := attributionUrl f;
     format := format f; mapCrs := mapCrs f;
     additionalMouseCrs := additionalMouseCrs f; scales := scales f;
     printScales := printScales f; printResolutions := printResolutions f;
     searchProviders := searchProviders f;
     collapseLayerGroupsBelowLevel := collapseLayerGroupsBelowLevel f;
     default := default f; tiled := tiled f;
     skipEmptyFeatureAttributes := v; backgroundLayers := backgroundLayers f |}.

(** [form.searchProviders.data = v] *)
Definition set_searchProviders (v : value) (f : t) : t :=
  {| url := url f; title := title f; thumbnail := thumbnail f;
     attribution := attribution f; attributionUrl := attributionUrl f;
     format := format f; mapCrs := mapCrs f;
     additionalMouseCrs := additionalMouseCrs f; scales := scales f;
     printScales := printScales f; printResolutions := printResolutions f;
     searchProviders := v;
     collapseLayerGroupsBelowLevel := collapseLayerGroupsBelowLevel f;
     default := default f; tiled := tiled f;
     skipEmptyFeatureAttributes := skipEmptyFeatureAttributes f;
     backgroundLayers := backgroundLayers f |}.

(** [form.backgroundLayers.append_entry(data)] *)
Definition append_entry (e : BackgroundLayersForm.t) (f : t) : t :=
  {| url := url f; title := title f; thumbnail := thumbnail f;
     attribution := attribution f; attributionUrl := attributionUrl f;
     format := format f; mapCrs := mapCrs f;
     additionalMouseCrs := additionalMouseCrs f; scales := scales f;
     printScales := printScales f; printResolutions := printResolutions f;
     searchProviders := searchProviders f;
     collapseLayerGroupsBelowLevel := collapseLayerGroupsBelowLevel f;
     default := default f; tiled := tiled f;
     skipEmptyFeatureAttributes := skipEmptyFeatureAttributes f;
     backgroundLayers := backgroundLayers f ++ [e] |}.
End ThemeForm.

(** *** [ThemesController.move_theme] *)

(** The two branches on [direction] and [tid], as the handler has them for
    the flat list and again for a group's list. *)
Definition move_items {A} (direction : string) (tid : Z) (l : list A)
  : result (list A) :=
  if decide (direction = "up" /\ tid > 0) then
    py_swap_assign l (tid - 1) tid
  else if decide (direction = "down" /\ Z.of_nat (length l) - 1 > tid) then
    py_swap_assign l tid (tid - 1)
  else Ok l.

Definition move_theme (direction : string) (tid : Z) (gid : option Z)
    (d : themes_doc) : result themes_doc :=
  match gid with
  | None =>
      l ← move_items direction tid (items d);
      Ok (set_items d l)
  | Some g =>
      grp ← py_getitem (groups d) g;
      l ← move_items direction tid (group_items grp);
      gs ← py_setitem (groups d) g (set_group_items grp l);
      Ok (set_groups d gs)
  end.

(** *** [ThemesController.move_theme_group] *)

Definition move_theme_group (gid : Z) (direction : string) (d : themes_doc)
  : result themes_doc :=
  let gs := groups d in
  gs' ← (if decide (direction = "up" /\ gid > 1) then
           py_swap_assign gs (gid - 1) gid
         else if decide (direction = "down" /\ Z.of_nat (length gs) > gid) then
           py_swap_assign gs gid (gid - 1)
         else Ok gs);
  Ok (set_groups d gs').

(** What the specification asks of a move: exchange the addressed
    position with its neighbour in the stated direction, and do nothing at
    the first position for "up" and at the last for "down". *)
Definition swap_at {A} (i j : nat) (l : list A) : list A :=
  match l !! i, l !! j with
  | Some x, Some y => <[j:=x]> (<[i:=y]> l)
  | _, _ => l
  end.

Definition move_spec {A} (direction : string) (i : nat) (l : list A) : list A :=
  if decide (direction = "up") then
    match i with O => l | S k => swap_at k i l end
  else if decide (direction = "down") then
    if decide (S i < length l)%nat then swap_at i (S i) l else l
  else l.

(** ** The resources table *)

Module Resource.
Record t : Type := mk {
  id : Z;
  type : string;
  name : string;
  parent_id : option Z
}.
End Resource.

Module ResourceType.
Record t : Type := mk {
  name : string;
  description : string;
  list_order : Z
}.
End ResourceType.

Module Permission.
Record t : Type := mk {
  id : Z;
  resource_id : Z
}.
End Permission.

(** [session.query(Resource).filter_by(...).first()]: no ordering is
    asked for, the rows come in the order of the table. *)
Definition query_first (P : Resource.t -> Prop) `{forall r, Decision (P r)}
    (db : list Resource.t) : option Resource.t :=
  head (filter P db).

(** The key of a newly inserted row. *)
Definition fresh_id (db : list Resource.t) : Z :=
  1 + foldr (fun r m => Z.max (Resource.id r) m) 0 db.

(** How the database answers a [session.commit()]. *)
Inductive db_outcome : Type :=
  | Committed
  | InternalError (orig : string)
  | IntegrityError (orig : string).

(** ** The themes controller *)

Inductive response : Type :=
  | Redirect (endpoint : string) (args : list (string * string))
  | Render (template : string).

(** What the config generator service answers to a [requests.get]: no
    answer at all, or a status with the body, which [response.json()]
    either fails to read ([inl], with the error) or reads as names. *)
Inductive service_reply : Type :=
  | Unreachable (error : string)
  | Reply (status_code : Z) (body : string + list string).

(** What surrounds a request: the answer of the database to the commit the
    handler issues, the path of the themes file with the error, if any, of
    opening it for writing, and the config generator service, asked by
    the path joined to its URL. *)
Record environment : Type := {
  commit : db_outcome;
  config_file : string;
  write_error : option string;
  config_generator_service_url : option string;
  service_get : string -> service_reply
}.

Record app_state : Type := {
  themesconfig : themes_doc;
  themes_file : themes_doc;
  resources : list Resource.t;
  resource_types : list ResourceType.t;
  permissions : list Permission.t;
  flashes : list (string * string)
}.

(** A handler runs on the state of the application and ends with a value
    or an exception; the state reached is kept in both cases. *)
Definition handler (A : Type) : Type :=
  app_state -> result A * app_state.

#[global] Instance handler_ret : MRet handler := fun A a st => (Ok a, st).
#[global] Instance handler_bind : MBind handler := fun A B k m st =>
  match m st with
  | (Ok a, st') => k a st'
  | (Raise e, st') => (Raise e, st')
  end.

Definition lift {A} (r : result A) : handler A := fun st => (r, st).

Definition get_doc : handler themes_doc :=
  fun st => (Ok (themesconfig st), st).

Definition put_doc (d : themes_doc) : handler unit :=
  fun st => (Ok tt,
    {| themesconfig := d; themes_file := themes_file st;
       resources := resources st; resource_types := resource_types st;
       permissions := permissions st; flashes := flashes st |}).

Definition put_file (d : themes_doc) : handler unit :=
  fun st => (Ok tt,
    {| themesconfig := themesconfig st; themes_file := d;
       resources := resources st; resource_types := resource_types st;
       permissions := permissions st; flashes := flashes st |}).

Definition get_resources : handler (list Resource.t) :=
  fun st => (Ok (resources st), st).

Definition put_resources (db : list Resource.t) : handler unit :=
  fun st => (Ok tt,
    {| themesconfig := themesconfig st; themes_file := themes_file st;
       resources := db; resource_types := resource_types st;
       permissions := permissions st; flashes := flashes st |}).

Definition flash (message category : string) : handler unit :=
  fun st => (Ok tt,
    {| themesconfig := themesconfig st; themes_file := themes_file st;
       resources := resources st; resource_types := resource_types st;
       permissions := permissions st;
       flashes := flashes st ++ [(message, category)] |}).

(** *** [ThemesController.save_themesconfig] *)
Definition save_themesconfig (env : environment) : handler unit :=
  match write_error env with
  | None => d ← get_doc; put_file d
  | Some strerror =>
      flash ("Could not write " +:+ config_file env +:+ ": " +:+ strerror) "error"
  end.

(** [session.commit()] of the change that takes the table to [db']: the
    change is kept when the database commits, and flashed away otherwise. *)
Definition commit_or_flash (env : environment) (db' : list Resource.t)
    (on_internal on_integrity : string -> string * string) : handler unit :=
  match commit env with
  | Committed => put_resources db'
  | InternalError orig =>
      flash (fst (on_internal orig)) (snd (on_internal orig))
  | IntegrityError orig =>
      flash (fst (on_integrity orig)) (snd (on_integrity orig))
  end.

(** The rest of a line that a backslash continues inside a literal. *)
Definition continued : string := "                      ".

(** *** [ThemesController.delete_theme] *)

(** The first block of [delete_theme]: the name of the paired resource,
    read from the item before the item is popped from its list. *)
Definition pop_theme_item (tid : Z) (gid : option Z) : handler string :=
  d ← get_doc;
  match gid with
  | None =>
      it ← lift (py_getitem (items d) tid);
      u ← lift (dict_getitem "url" it);
      name ← lift (url_basename u);
      p ← lift (py_pop (items d) tid);
      put_doc (set_items d (snd p));;
      mret name
  | Some g =>
      grp ← lift (py_getitem (groups d) g);
      it ← lift (py_getitem (group_items grp) tid);
      u ← lift (dict_getitem "url" it);
      name ← lift (url_basename u);
      p ← lift (py_pop (group_items grp) tid);
      gs ← lift (py_setitem (groups d) g (set_group_items grp (snd p)));
      put_doc (set_groups d gs);;
      mret name
  end.

Definition delete_theme (env : environment) (tid : Z) (gid : option Z)
  : handler response :=
  name ← pop_theme_item tid gid;
  db ← get_resources;
  match query_first (fun r => Resource.type r = "map" /\ Resource.name r = name) db with
  | Some resource =>
      commit_or_flash env
        (filter (fun r => Resource.id r <> Resource.id resource) db)
        (fun orig => ("InternalError: " +:+ orig, "error"))
        (fun _ => ("could not delete resource map '" +:+ Resource.name resource
                   +:+ "'. " +:+ continued, "warning"))
  | None => mret tt
  end;;
  save_themesconfig env;;
  mret (Redirect "themes" []).

(** *** [ThemesController.delete_theme_group] *)
Definition delete_theme_group (env : environment) (gid : Z) : handler response :=
  d ← get_doc;
  p ← lift (py_pop (groups d) gid);
  put_doc (set_groups d (snd p));;
  save_themesconfig env;;
  mret (Redirect "themes" []).

Section Builtins.
(** Python's [int(s)] ([None] where it raises [ValueError]) and [str(v)]. *)
Variable py_int : string -> option Z.
Variable py_str : value -> string.

(** [", ".join(map(str, v))] *)
Definition join_strs (v : value) : result value :=
  l ← py_iter v;
  Ok (VStr (join_comma (map py_str l))).

(** [if k in theme: form = assign theme[k] form] *)
Definition when_key (k : string) (th : theme)
    (assign : value -> ThemeForm.t -> result ThemeForm.t)
    (f : ThemeForm.t) : result ThemeForm.t :=
  match dict_get k th with
  | Some v => assign v f
  | None => Ok f
  end.

(** One [data] dict of the background layers' loop. *)
Definition layer_entry (layer : value) : result BackgroundLayersForm.t :=
  match layer with
  | VDict kv =>
      n ← dict_getitem "name" kv;
      Ok {| BackgroundLayersForm.lname := n;
            BackgroundLayersForm.printLayer :=
              match dict_get "printLayer" kv with
              | Some v => v
              | None => VStr EmptyString
              end;
            BackgroundLayersForm.visibility :=
              match dict_get "visibility" kv with
              | Some v => v
              | None => VBool false
              end |}
  | _ => Raise TypeError
  end.

Fixpoint append_layers (layers : list value) (f : ThemeForm.t)
  : result ThemeForm.t :=
  match layers with
  | [] => Ok f
  | layer :: rest =>
      e ← layer_entry layer;
      append_layers rest (ThemeForm.append_entry e f)
  end.

(** *** [ThemesController.create_form]

    The [if "key" in theme:] statements of the function, in its order. *)
Definition create_form_steps (th : theme)
  : list (ThemeForm.t -> result ThemeForm.t) :=
  [ when_key "title" th (fun v f => Ok (ThemeForm.set_title v f));
    when_key "thumbnail" th (fun v f => Ok (ThemeForm.set_thumbnail v f));
    when_key "attribution" th (fun v f => Ok (ThemeForm.set_attribution v f));
    when_key "attributionUrl" th (fun v f => Ok (ThemeForm.set_attribution v f));
    when_key "default" th (fun v f => Ok (ThemeForm.set_default v f));
    when_key "format" th (fun v f => Ok (ThemeForm.set_format v f));
    when_key "mapCrs" th (fun v f => Ok (ThemeForm.set_mapCrs v f));
    when_key "additionalMouseCrs" th
      (fun v f => s ← join_strs v; Ok (ThemeForm.set_additionalMouseCrs s f));
    when_key "scales" th
      (fun v f => s ← join_strs v; Ok (ThemeForm.set_scales s f));
    when_key "printScales" th
      (fun v f => s ← join_strs v; Ok (ThemeForm.set_printScales s f));
    when_key "printResolutions" th
      (fun v f => s ← join_strs v; Ok (ThemeForm.set_printResolutions s f));
    when_key "collapseLayerGroupsBelowLevel" th
      (fun v f => Ok (ThemeForm.set_skipEmptyFeatureAttributes v f));
    when_key "skipEmptyFeatureAttributes" th
      (fun v f => Ok (ThemeForm.set_skipEmptyFeatureAttributes v f));
    when_key "searchProviders" th
      (fun v f => s ← join_strs v; Ok (ThemeForm.set_searchProviders s f));
    when_key "backgroundLayers" th
      (fun v f => layers ← py_iter v; append_layers layers f) ].

Definition run_steps (steps : list (ThemeForm.t -> result ThemeForm.t))
    (f : ThemeForm.t) : result ThemeForm.t :=
  foldl (fun acc step => f' ← acc; step f') (Ok f) steps.

(** [request_form] is the [ThemeForm()] the request fills. *)
Definition create_form (request_form : ThemeForm.t) (th : option theme)
  : result ThemeForm.t :=
  match th with
  | None => Ok request_form
  | Some th =>
      u ← dict_getitem "url" th;
      run_steps (create_form_steps th) (ThemeForm.new u)
  end.

(** A step that leaves a field of the form as it was. *)
Definition step_keeps {X} (field : ThemeForm.t -> X)
    (step : ThemeForm.t -> result ThemeForm.t) : Prop :=
  forall f f', step f = Ok f' -> field f' = field f.

(** *** [ThemesController.create_or_update_theme] *)

(** [if v: item[k] = v] *)
Definition set_if (k : string) (v : value) (item : theme) : theme :=
  if truthy v then dict_set k v item else item.

(** [list(map(conv, ...))] over the comma-separated parts of [v], its
    spaces removed first. *)
Definition split_list (conv : string -> result value) (v : value)
  : result value :=
  match v with
  | VStr s => l ← map_result conv (split_on ","%char (remove_spaces s)); Ok (VList l)
  | _ => Raise AttributeError
  end.

Definition to_int (s : string) : result value :=
  match py_int s with
  | Some z => Ok (VInt z)
  | None => Raise ValueError
  end.

(** [if v: item[k] = list(map(conv, ...))] *)
Definition set_list_if (conv : string -> result value) (k : string)
    (v : value) (item : theme) : result theme :=
  if truthy v then l ← split_list conv v; Ok (dict_set k l item) else Ok item.

Definition layer_item (layer : BackgroundLayersForm.t) : value :=
  VDict [("name", BackgroundLayersForm.lname layer);
         ("printLayer", BackgroundLayersForm.printLayer layer);
         ("visibility", BackgroundLayersForm.visibility layer)].

(** The item the function builds from the form, key after key. *)
Definition build_item (form : ThemeForm.t) : result theme :=
  let item := [("url", ThemeForm.url form)] in
  let item := set_if "title" (ThemeForm.title form) item in
  let item := set_if "thumbnail" (ThemeForm.thumbnail form) item in
  let item := dict_set "attribution" (VStr EmptyString) item in
  let item := set_if "attribution" (ThemeForm.attribution form) item in
  let item := set_if "attributionUrl" (ThemeForm.attributionUrl form) item in
  let item := dict_set "default" (VBool (truthy (ThemeForm.default form))) item in
  let item := set_if "format" (ThemeForm.format form) item in
  let item := set_if "mapCrs" (ThemeForm.mapCrs form) item in
  let item := set_if "additionalMouseCrs" (ThemeForm.additionalMouseCrs form) item in
  item ← set_list_if to_int "scales" (ThemeForm.scales form) item;
  item ← set_list_if to_int "printScales" (ThemeForm.printScales form) item;
  item ← set_list_if to_int "printResolutions" (ThemeForm.printResolutions form) item;
  let item := dict_set "skipEmptyFeatureAttributes"
                (VBool (truthy (ThemeForm.skipEmptyFeatureAttributes form))) item in
  let item := set_if "collapseLayerGroupsBelowLevel"
                (ThemeForm.collapseLayerGroupsBelowLevel form) item in
  let item := dict_set "searchProviders" (VList []) item in
  item ← set_list_if (fun s => Ok (VStr s)) "searchProviders"
           (ThemeForm.searchProviders form) item;
  let item := dict_set "backgroundLayers"
                (VList (map layer_item (ThemeForm.backgroundLayers form))) item in
  Ok item.

(** The assignment of the edit branch: the item at [tid] is replaced, and
    its former url is returned. *)
Definition replace_theme_item (item : theme) (tid : Z) (gid : option Z)
  : handler value :=
  d ← get_doc;
  match gid with
  | None =>
      old ← lift (py_getitem (items d) tid);
      u ← lift (dict_getitem "url" old);
      l ← lift (py_setitem (items d) tid item);
      put_doc (set_items d l);;
      mret u
  | Some g =>
      grp ← lift (py_getitem (groups d) g);
      old ← lift (py_getitem (group_items grp) tid);
      u ← lift (dict_getitem "url" old);
      l ← lift (py_setitem (group_items grp) tid item);
      gs ← lift (py_setitem (groups d) g (set_group_items grp l));
      put_doc (set_groups d gs);;
      mret u
  end.

(** The [append] of the create branch. *)
Definition append_theme_item (item : theme) (gid : option Z) : handler unit :=
  d ← get_doc;
  match gid with
  | None => put_doc (set_items d (items d ++ [item]))
  | Some g =>
      grp ← lift (py_getitem (groups d) g);
      gs ← lift (py_setitem (groups d) g
                   (set_group_items grp (group_items grp ++ [item])));
      put_doc (set_groups d gs)
  end.

(** [resource.name = new_name] on the row found. *)
Definition rename_resource (resource : Resource.t) (new_name : string)
    (db : list Resource.t) : list Resource.t :=
  map (fun r =>
         if decide (Resource.id r = Resource.id resource) then
           {| Resource.id := Resource.id r; Resource.type := Resource.type r;
              Resource.name := new_name;
              Resource.parent_id := Resource.parent_id r |}
         else r) db.

(** [theme] is the found item for an update and [None] for a create; an
    item without any key is falsy and takes the create branch. *)
Definition create_or_update_theme (env : environment) (th : option theme)
    (form : ThemeForm.t) (tid : Z) (gid : option Z) : handler unit :=
  item ← lift (build_item form);
  new_name ← lift (url_basename (ThemeForm.url form));
  match th with
  | Some (_ :: _) =>
      u ← replace_theme_item item tid gid;
      name ← lift (url_basename u);
      db ← get_resources;
      match query_first (fun r => Resource.name r = name) db with
      | Some resource =>
          commit_or_flash env (rename_resource resource new_name db)
            (fun orig => ("InternalError: " +:+ orig, "error"))
            (fun _ => ("Could not create resource f√ºr map '" +:+ new_name
                       +:+ "'! " +:+ continued +:+ "    ", "warning"))
      | None => mret tt
      end
  | _ =>
      db ← get_resources;
      commit_or_flash env
        (db ++ [ {| Resource.id := fresh_id db; Resource.type := "map";
                    Resource.name := new_name; Resource.parent_id := None |} ])
        (fun orig => ("InternalError: " +:+ orig, "error"))
        (fun _ => ("resource for map '" +:+ new_name +:+ "' already exists! "
                   +:+ continued +:+ "    ", "warning"));;
      append_theme_item item gid
  end;;
  save_themesconfig env.

(** The keys the function sets on every item, and the optional keys with
    the form field each is taken from. *)
Definition mandatory_keys : list string :=
  ["url"; "attribution"; "default"; "skipEmptyFeatureAttributes";
   "searchProviders"; "backgroundLayers"].

Definition optional_fields (form : ThemeForm.t) : list (string * value) :=
  [ ("title", ThemeForm.title form);
    ("thumbnail", ThemeForm.thumbnail form);
    ("attributionUrl", ThemeForm.attributionUrl form);
    ("format", ThemeForm.format form);
    ("mapCrs", ThemeForm.mapCrs form);
    ("additionalMouseCrs", ThemeForm.additionalMouseCrs form);
    ("scales", ThemeForm.scales form);
    ("printScales", ThemeForm.printScales form);
    ("printResolutions", ThemeForm.printResolutions form);
    ("collapseLayerGroupsBelowLevel",
     ThemeForm.collapseLayerGroupsBelowLevel form) ].

(** The list an item index addresses: the flat list, or a group's. *)
Definition target_items (gid : option Z) (d : themes_doc)
  : result (list theme) :=
  match gid with
  | None => Ok (items d)
  | Some g => grp ← py_getitem (groups d) g; Ok (group_items grp)
  end.

(** *** [ThemesController.find_theme] *)
Definition find_theme (tid : Z) (gid : option Z) (d : themes_doc)
  : option theme :=
  match gid with
  | None => if decide (0 <= tid) then items d !! Z.to_nat tid else None
  | Some g =>
      if decide (0 <= g) then
        match groups d !! Z.to_nat g with
        | Some grp =>
            if decide (0 <= tid) then group_items grp !! Z.to_nat tid else None
        | None => None
        end
      else None
  end.

(** *** [ThemesController.create_theme]

    [valid] is the answer of [form.validate_on_submit()].  The call
    [self.create_or_update_theme(None, form, gid=gid)] gives no [tid],
    which the function takes without a default: the call raises
    [TypeError] before the body of the function runs, and the handler
    catches [ValidationError] only. *)
Definition create_theme (request_form : ThemeForm.t)
    (valid : bool) (gid : option Z) : handler response :=
  form ← lift (create_form request_form None);
  if valid then
    lift (@Raise unit TypeError);;
    flash ("Theme " +:+ py_str (ThemeForm.title form) +:+ " created.") "success";;
    mret (Redirect "themes" [])
  else
    flash ("could not create theme " +:+ py_str (ThemeForm.title form) +:+ ".")
          "warning";;
    mret (Render "themes/form.html").

(** *** [ThemesController.edit_theme] *)
Definition edit_theme (request_form : ThemeForm.t) (tid : Z) (gid : option Z)
  : handler response :=
  d ← get_doc;
  match find_theme tid gid d with
  | Some th =>
      _ ← lift (create_form request_form (Some th));
      mret (Render "themes/form.html")
  | None => lift (Raise (HTTPAbort 404))
  end.

(** *** [ThemesController.update_theme] *)
Definition update_theme (env : environment) (request_form : ThemeForm.t)
    (valid : bool) (tid : Z) (gid : option Z) : handler response :=
  d ← get_doc;
  match find_theme tid gid d with
  | Some th =>
      form ← lift (create_form request_form None);
      if valid then
        create_or_update_theme env (Some th) form tid gid;;
        flash ("Updated theme " +:+ py_str (ThemeForm.title form) +:+ ".")
              "success";;
        mret (Redirect "themes" [])
      else
        flash ("could not update theme " +:+ py_str (ThemeForm.title form) +:+ ".")
              "warning";;
        mret (Render "themes/form.html")
  | None => lift (Raise (HTTPAbort 404))
  end.
End Builtins.

(** *** [ThemesController.move_theme] and [move_theme_group], as requests *)
Definition move_theme_request (env : environment) (direction : string)
    (tid : Z) (gid : option Z) : handler response :=
  d ← get_doc;
  d' ← lift (move_theme direction tid gid d);
  put_doc d';;
  save_themesconfig env;;
  mret (Redirect "themes" []).

Definition move_theme_group_request (env : environment) (gid : Z)
    (direction : string) : handler response :=
  d ← get_doc;
  d' ← lift (move_theme_group gid direction d);
  put_doc d';;
  save_themesconfig env;;
  mret (Redirect "themes" []).

(** *** [ThemesController.add_theme_group] and [update_theme_group] *)
Definition add_theme_group (env : environment) : handler response :=
  d ← get_doc;
  put_doc (set_groups d (groups d ++
    [ {| group_title := VStr "new group"; group_items := [] |} ]));;
  save_themesconfig env;;
  mret (Redirect "themes" []).

Definition update_theme_group (env : environment) (group_title_field : string)
    (gid : Z) : handler response :=
  d ← get_doc;
  grp ← lift (py_getitem (groups d) gid);
  gs ← lift (py_setitem (groups d) gid
               {| group_title := VStr group_title_field;
                  group_items := group_items grp |});
  put_doc (set_groups d gs);;
  save_themesconfig env;;
  mret (Redirect "themes" []).

(** ** The resources controller *)

(** *** Queries over resources joined to their types *)

(** A row of [session.query(Resource).join(Resource.resource_types)]. *)
Definition row : Type := Resource.t * ResourceType.t.

Definition join_types (rs : list Resource.t) (ts : list ResourceType.t)
  : list row :=
  r ← rs;
  t ← filter (fun t => ResourceType.name t = Resource.type r) ts;
  [(r, t)].

Inductive column : Type :=
  | ResourceId
  | ResourceName
  | ResourceTypeColumn
  | ResourceTypeName
  | ResourceTypeListOrder.

Definition column_compare (c : column) (a b : row) : comparison :=
  match c with
  | ResourceId => Z.compare (Resource.id a.1) (Resource.id b.1)
  | ResourceName => String.compare (Resource.name a.1) (Resource.name b.1)
  | ResourceTypeColumn => String.compare (Resource.type a.1) (Resource.type b.1)
  | ResourceTypeName => String.compare (ResourceType.name a.2) (ResourceType.name b.2)
  | ResourceTypeListOrder =>
      Z.compare (ResourceType.list_order a.2) (ResourceType.list_order b.2)
  end.

(** An [order_by] list: the columns, each ascending or ([true]) descending;
    a later column decides where the earlier ones are equal. *)
Fixpoint rows_compare (order_by : list (column * bool)) (a b : row)
  : comparison :=
  match order_by with
  | [] => Eq
  | (c, desc) :: rest =>
      match (if desc : bool then CompOpp (column_compare c a b)
             else column_compare c a b) with
      | Eq => rows_compare rest a b
      | o => o
      end
  end.

Definition rows_le (order_by : list (column * bool)) (a b : row) : Prop :=
  rows_compare order_by a b <> Gt.

#[global] Instance rows_le_dec order_by a b : Decision (rows_le order_by a b).
Proof.
  unfold rows_le.
  destruct (rows_compare order_by a b); [left|left|right]; congruence.
Defined.

Definition order_rows (order_by : list (column * bool)) (q : list row)
  : list row :=
  merge_sort (rows_le order_by) q.

(** [order_by(ResourceType.list_order, Resource.type, Resource.name,
    Resource.id)] *)
Definition default_order : list (column * bool) :=
  [ (ResourceTypeListOrder, false); (ResourceTypeColumn, false);
    (ResourceName, false); (ResourceId, false) ].

Section Index.
(** The [ILIKE] of the database: [ilike name pattern]. *)
Variable ilike : string -> string -> bool.

(** *** [ResourcesController.resources_for_index_query] *)
Definition resources_for_index_query (search_text : option string)
    (resource_type : option string) (st : app_state) : list row :=
  let query := order_rows default_order
                 (join_types (resources st) (resource_types st)) in
  let query :=
    match search_text with
    | Some text =>
        if String.eqb text EmptyString then query
        else filter (fun q => ilike (Resource.name q.1) ("%" +:+ text +:+ "%") = true)
                    query
    | None => query
    end in
  match resource_type with
  | Some ty => filter (fun q => Resource.type q.1 = ty) query
  | None => query
  end.

(** *** [ResourcesController.order_by_criterion] *)
Definition order_by_criterion (sort : string) (sort_asc : bool)
  : option (list (column * bool)) :=
  let sortable_columns :=
    [ ("id", [ResourceId]);
      ("type", [ResourceTypeName; ResourceName; ResourceId]);
      ("name", [ResourceName; ResourceTypeListOrder; ResourceTypeColumn;
                ResourceId]) ] in
  match dict_get sort sortable_columns with
  | Some [] => Some []
  | Some (c :: cs) =>
      Some ((c, negb sort_asc) :: map (fun c => (c, false)) cs)
  | None => None
  end.

(** [query.count()] *)
Definition query_count {A} (q : list A) : Z := Z.of_nat (length q).

(** [query.limit(n).offset(k).all()]; the database refuses a negative
    [LIMIT] or [OFFSET]. *)
Definition limit_offset {A} (n k : Z) (q : list A) : result (list A) :=
  if decide (0 <= n /\ 0 <= k) then Ok (take (Z.to_nat n) (drop (Z.to_nat k) q))
  else Raise DataError.

(** [math.ceil(n / d)], the quotient taken exactly (a count of rows and a
    page size are far below the integers a float no longer tells apart). *)
Definition math_ceil_div (n d : Z) : result Z :=
  if decide (d = 0) then Raise ZeroDivisionError
  else Ok (Qceiling (inject_Z n / inject_Z d)).

Record index_view : Type := {
  view_resources : list Resource.t;
  view_page : Z;
  view_num_pages : Z;
  view_per_page : Z;
  view_sort : option string
}.

(** *** [ResourcesController.index]

    [sort], [sort_asc], [page] and [per_page] are what [sort_args] and
    [pagination_args] of the base controller return; [index_query] is the
    query the handler counts and pages. *)
Definition index_query (search_text resource_type : option string)
    (sort : option string) (sort_asc : bool) (st : app_state)
  : list row * option string :=
  let query := resources_for_index_query search_text resource_type st in
  match sort with
  | Some s =>
      match order_by_criterion s sort_asc with
      | Some order_by =>
          (order_rows order_by query, Some (if sort_asc then s else s +:+ "-"))
      | None => (query, None)
      end
  | None => (query, None)
  end.

Definition index (search_text resource_type : option string)
    (sort : option string) (sort_asc : bool) (page per_page : Z)
  : handler index_view :=
  fun st =>
    let '(query, sort_param) :=
      index_query search_text resource_type sort sort_asc st in
    (num_pages ← math_ceil_div (query_count query) per_page;
     rows ← limit_offset per_page ((page - 1) * per_page) query;
     Ok {| view_resources := map fst rows; view_page := page;
           view_num_pages := num_pages; view_per_page := per_page;
           view_sort := sort_param |}, st).
End Index.

(** *** [ResourcesController.find_resource] *)
Definition find_resource (id : Z) (db : list Resource.t) : option Resource.t :=
  query_first (fun r => Resource.id r = id) db.

(** [resource.children] and [resource.parent], the two sides of the
    self-referential key [parent_id]. *)
Definition children (db : list Resource.t) (resource : Resource.t)
  : list Resource.t :=
  filter (fun c => Resource.parent_id c = Some (Resource.id resource)) db.

Definition parent (db : list Resource.t) (resource : Resource.t)
  : option Resource.t :=
  match Resource.parent_id resource with
  | Some p => find_resource p db
  | None => None
  end.

(** *** [ResourcesController.destroy_resource_cascaded]

    [session] holds the objects marked by [session.delete], in the order
    of the calls; [depth_limit] is how deep Python lets the calls nest. *)
Fixpoint destroy_resource_cascaded (depth_limit : nat) (db : list Resource.t)
    (resource : Resource.t) (session : list Resource.t)
  : result (list Resource.t) :=
  match depth_limit with
  | O => Raise RecursionError
  | S n =>
      session ← foldl (fun acc child =>
                         session ← acc;
                         destroy_resource_cascaded n db child session)
                      (Ok session) (children db resource);
      Ok (session ++ [resource])
  end.

(** The table after the commit of a session's deletes. *)
Definition delete_rows (session db : list Resource.t) : list Resource.t :=
  filter (fun r => Resource.id r ∉ map Resource.id session) db.

(** *** [ResourcesController.destroy_casacaded]

    [method] is the upper-cased [_method] field, or the request's method.
    [update_config_timestamp] of the base controller writes to no table
    of this model and is left out, here and in the imports.

    The [except] clauses name [InternalError] and [IntegrityError], which
    the module does not import: an exception raised inside the [try], by
    the walk over the children or by the commit, reaches the first clause
    and ends there with [NameError], which leaves the handler. *)
Definition destroy_casacaded (env : environment) (depth_limit : nat)
    (method : string) (id : Z) : handler response :=
  if decide (method <> "DELETE") then lift (Raise (HTTPAbort 405))
  else
    db ← get_resources;
    match find_resource id db with
    | Some resource =>
        match destroy_resource_cascaded depth_limit db resource [] with
        | Ok session =>
            match commit env with
            | Committed =>
                put_resources (delete_rows session db);;
                flash "Resource and its children have been deleted." "success"
            | InternalError _ | IntegrityError _ => lift (Raise NameError)
            end
        | Raise _ => lift (Raise NameError)
        end;;
        match Resource.parent_id resource with
        | Some p =>
            if decide (p = 0) then mret (Redirect "resources" [])
            else mret (Redirect "hierarchy_resource" [("id", pretty p)])
        | None => mret (Redirect "resources" [])
        end
    | None => lift (Raise (HTTPAbort 404))
    end.

(** *** [ResourcesController.hierarchy] *)

(** The loop to the root; [None] when it is still running after [steps]
    iterations. *)
Fixpoint find_root (steps : nat) (db : list Resource.t) (root : Resource.t)
  : option Resource.t :=
  match parent db root with
  | None => Some root
  | Some p =>
      match steps with
      | O => None
      | S n => find_root n db p
      end
  end.

Record hierarchy_item : Type := {
  depth : Z;
  resource : Resource.t;
  has_permissions : bool
}.

(** The sorted children query of [collect_resources]. *)
Definition sorted_children (st : app_state) (resource : Resource.t)
  : list Resource.t :=
  map fst
    (filter (fun q : row => Resource.parent_id q.1 = Some (Resource.id resource))
       (order_rows default_order
          (join_types (resources st) (resource_types st)))).

(** The entry [collect_resources] appends for a resource: its depth, and
    whether the permissions query counts a row. *)
Definition hierarchy_entry (st : app_state) (d : Z) (res : Resource.t)
  : hierarchy_item :=
  {| depth := d; resource := res;
     has_permissions :=
       bool_decide (0 < query_count
         (filter (fun p => Permission.resource_id p = Resource.id res)
                 (permissions st))) |}.

(** *** [ResourcesController.collect_resources] *)
Fixpoint collect_resources (depth_limit : nat) (st : app_state)
    (res : Resource.t) (d : Z) (items : list hierarchy_item)
  : result (list hierarchy_item) :=
  match depth_limit with
  | O => Raise RecursionError
  | S n =>
      let items := items ++ [hierarchy_entry st d res] in
      foldl (fun acc child =>
               items ← acc;
               collect_resources n st child (d + 1) items)
            (Ok items) (sorted_children st res)
  end.

Record hierarchy_view : Type := {
  hierarchy_items : list hierarchy_item;
  selected_item_id : Z
}.

(** The handler; [None] when the loop to the root does not end within
    [steps] iterations. *)
Definition hierarchy (steps depth_limit : nat) (id : Z) (st : app_state)
  : option (result hierarchy_view * app_state) :=
  match find_resource id (resources st) with
  | Some res =>
      root ← find_root steps (resources st) res;
      Some (items ← collect_resources depth_limit st root 0 [];
            Ok {| hierarchy_items := items;
                  selected_item_id := Resource.id res |}, st)
  | None => Some (Raise (HTTPAbort 404), st)
  end.

(** *** [ResourcesController.import_maps] and [import_layers] *)

Definition str_le (a b : string) : Prop := String.leb a b = true.

#[global] Instance str_le_dec a b : Decision (str_le a b) :=
  decide (String.leb a b = true).

(** [sorted(list(set(from_config) - set(existing)))] *)
Definition new_names (from_config existing : list string) : list string :=
  merge_sort str_le
    (elements ((list_to_set from_config : gset string) ∖ list_to_set existing)).

(** The [session.add] of one new resource per name, in the order of the
    names. *)
Definition add_resources (ty : string) (parent_id : option Z)
    (names : list string) (db : list Resource.t) : list Resource.t :=
  foldl (fun db n =>
           db ++ [ {| Resource.id := fresh_id db; Resource.type := ty;
                      Resource.name := n; Resource.parent_id := parent_id |} ])
        db names.

Definition import_maps (env : environment) : handler response :=
  match config_generator_service_url env with
  | None =>
      flash "Config generator URL is not defined" "error";;
      mret (Redirect "resources" [])
  | Some _ =>
      match service_get env "maps" with
      | Unreachable e =>
          flash ("Could not import maps: " +:+ e) "error";;
          mret (Redirect "resources" [])
      | Reply status body =>
          if decide (status <> 200) then
            flash ("Could not import maps: Status " +:+ pretty status) "error";;
            mret (Redirect "resources" [])
          else
            match body with
            | inl e =>
                flash ("Could not import maps: " +:+ e) "error";;
                mret (Redirect "resources" [])
            | inr maps_from_config =>
                db ← get_resources;
                let maps := map Resource.name
                              (filter (fun r => Resource.type r = "map") db) in
                let new_maps := new_names maps_from_config maps in
                match new_maps with
                | [] =>
                    flash "No additional maps found." "info";;
                    mret (Redirect "resources" [("type", "map")])
                | _ :: _ =>
                    match commit env with
                    | Committed =>
                        put_resources (add_resources "map" None new_maps db);;
                        flash (pretty (length new_maps)
                               +:+ " new maps have been added.") "success";;
                        mret (Redirect "resources" [("type", "map")])
                    | InternalError orig | IntegrityError orig =>
                        flash ("Could not import maps: " +:+ orig) "error";;
                        mret (Redirect "resources" [])
                    end
                end
            end
      end
  end.

Definition import_layers (env : environment) (map_resource : Resource.t)
  : handler unit :=
  match service_get env ("maps/" +:+ Resource.name map_resource) with
  | Unreachable e => flash ("Could not import layers: " +:+ e) "error"
  | Reply status body =>
      if decide (status <> 200) then
        flash ("Could not import layers: Status " +:+ pretty status) "error"
      else
        match body with
        | inl e => flash ("Could not import layers: " +:+ e) "error"
        | inr [] => flash "No layers found for this map." "warning"
        | inr layers_from_config =>
            db ← get_resources;
            let layers :=
              map Resource.name
                (filter (fun r => Resource.type r = "layer"
                           /\ Resource.parent_id r
                              = Some (Resource.id map_resource)) db) in
            let new_layers := new_names layers_from_config layers in
            match new_layers with
            | [] => flash "No additional layers found." "info"
            | _ :: _ =>
                match commit env with
                | Committed =>
                    put_resources
                      (add_resources "layer" (Some (Resource.id map_resource))
                         new_layers db);;
                    flash (pretty (length new_layers)
                           +:+ " new layers have been added.") "success"
                | InternalError orig | IntegrityError orig =>
                    flash ("Could not import layers: " +:+ orig) "error"
                end
            end
        end
  end.

(** *** [ResourcesController.import_children] *)
Definition import_children (env : environment) (id : Z) : handler response :=
  db ← get_resources;
  match find_resource id db with
  | Some res =>
      match config_generator_service_url env with
      | None => flash "Config generator URL is not defined" "error"
      | Some _ =>
          if decide (Resource.type res = "map") then import_layers env res
          else flash "Child import not supported for this resource type."
                     "warning"
      end;;
      mret (Redirect "hierarchy_resource" [("id", pretty id)])
  | None => lift (Raise (HTTPAbort 404))
  end.

(** ** Resource trees *)

(** [c] is a child of [p], both rows of the table. *)
Definition is_child (db : list Resource.t) (p c : Resource.t) : Prop :=
  p ∈ db /\ c ∈ db /\ Resource.parent_id c = Some (Resource.id p).

Definition descendant (db : list Resource.t) : relation Resource.t :=
  tc (is_child db).

(** The two resources are in one tree: parent links, followed in either
    direction, lead from one to the other. *)
Definition same_tree (db : list Resource.t) : relation Resource.t :=
  rtsc (is_child db).

(** The table holds a forest: the keys are unique, and a level grows from
    every parent to its children, up to a bound. *)
Record forest (db : list Resource.t) (level : Z -> nat) (bound : nat)
  : Prop := Forest {
  forest_ids : NoDup (map Resource.id db);
  forest_level : forall p c,
    is_child db p c -> (level (Resource.id p) < level (Resource.id c))%nat;
  forest_bound : forall r, r ∈ db -> (level (Resource.id r) <= bound)%nat
}.

(** [x] occurs in the list before [y]. *)
Definition before {A} (l : list A) (x y : A) : Prop :=
  exists l1 l2 l3, l = l1 ++ x :: l2 ++ y :: l3.

(** A comparison that orders: it is antisymmetric, its [Eq] can be
    replaced on the left, and its [Lt] is transitive. *)
Record ordering {A} (cmp : A -> A -> comparison) : Prop := Ordering {
  ordering_antisym : forall a b, cmp b a = CompOpp (cmp a b);
  ordering_eq : forall a b c, cmp a b = Eq -> cmp a c = cmp b c;
  ordering_lt : forall a b c, cmp a b = Lt -> cmp b c = Lt -> cmp a c = Lt
}.

(** In the list every child comes before its parent. *)
Definition children_first (db l : list Resource.t) : Prop :=
  forall i p c, l !! i = Some p -> is_child db p c ->
                exists j, (j < i)%nat /\ l !! j = Some c.

(** Every resource has its type in the types table, once. *)
Definition types_ok (st : app_state) : Prop :=
  NoDup (map ResourceType.name (resource_types st))
  /\ forall r, r ∈ resources st ->
               Resource.type r ∈ map ResourceType.name (resource_types st).

(** The subtree of a resource, children before their parent (what
    [destroy_resource_cascaded] adds to the session), and parent before
    its children with the depths (what [collect_resources] adds to the
    items), to the depth [n]. *)
Fixpoint post_order (n : nat) (db : list Resource.t) (r : Resource.t)
  : list Resource.t :=
  match n with
  | O => []
  | S n => concat (map (post_order n db) (children db r)) ++ [r]
  end.

Fixpoint pre_order (n : nat) (st : app_state) (r : Resource.t) (d : Z)
  : list hierarchy_item :=
  match n with
  | O => []
  | S n =>
      hierarchy_entry st d r
      :: concat (map (fun c => pre_order n st c (d + 1)) (sorted_children st r))
  end.

(** The row of the types table a resource is joined with, and the order
    of two resources by the key of the hierarchy's query. *)
Definition type_row (st : app_state) (r : Resource.t) : option ResourceType.t :=
  head (filter (fun t => ResourceType.name t = Resource.type r)
               (resource_types st)).

Definition sibling_le (order_by : list (column * bool)) (st : app_state)
    (a b : Resource.t) : Prop :=
  match type_row st a, type_row st b with
  | Some ta, Some tb => rows_le order_by (a, ta) (b, tb)
  | _, _ => False
  end.

(** The order the specification names: the type's list_order, then the
    name, then the id. *)
Definition spec_order : list (column * bool) :=
  [ (ResourceTypeListOrder, false); (ResourceName, false); (ResourceId, false) ].

(** ** The themes list and the new-theme form *)

(** [v.get(k, default)]: only a dict has [get]. *)
Definition value_get (k : string) (default : value) (v : value)
  : result value :=
  match v with
  | VDict kv =>
      Ok (match dict_get k kv with Some x => x | None => default end)
  | _ => Raise AttributeError
  end.

(** [item.get("title", item.get("url", EmptyString))]: the inner [get] is
    evaluated first. *)
Definition item_name (item : value) : result value :=
  u ← value_get "url" (VStr EmptyString) item;
  value_get "title" u item.

Record group_entry : Type := {
  entry_title : value;
  entry_items : list value
}.

Record themes_listing : Type := {
  listing_items : list value;
  listing_groups : list group_entry
}.

(** One [groupEntry] of the loop over the groups. *)
Definition group_listing (group : value) : result group_entry :=
  t ← value_get "title" (VStr EmptyString) group;
  match group with
  | VDict kv =>
      its ← dict_getitem "items" kv;
      l ← py_iter its;
      names ← map_result item_name l;
      Ok {| entry_title := t; entry_items := names |}
  | _ => Raise AttributeError
  end.

(** What the view function hands back: [redirect("/")], nothing at all
    (the bare [return]), or the rendered list. *)
Inductive index_response : Type :=
  | RedirectRoot
  | NoResponse
  | RenderIndex (themes : themes_listing).

(** *** [ThemesController.index], after the load

    [config] is what [load_themesconfig] returned: the parsed file, or
    [None] when the file could not be read. *)
Definition themes_index (config : value) : result index_response :=
  if negb (truthy config) then Ok RedirectRoot
  else
    match config with
    | VDict kv =>
        match dict_get "themes" kv with
        | None | Some VNone => Ok NoResponse
        | Some (VDict th) =>
            its ← match dict_get "items" th with
                  | Some v => l ← py_iter v; map_result item_name l
                  | None => Ok []
                  end;
            gs ← match dict_get "groups" th with
                 | Some v => l ← py_iter v; map_result group_listing l
                 | None => Ok []
                 end;
            Ok (RenderIndex {| listing_items := its; listing_groups := gs |})
        | Some _ => Raise AttributeError
        end
    | _ => Raise AttributeError
    end.

(** The theme the new-theme form is filled from: the first of the flat
    list, or else the first of the first group. *)
Definition new_theme_default (d : themes_doc) : option theme :=
  match items d with
  | th :: _ => Some th
  | [] =>
      match groups d with
      | g :: _ =>
          match group_items g with
          | th :: _ => Some th
          | [] => None
          end
      | [] => None
      end
  end.

(** *** [ThemesController.new_theme] *)
Definition new_theme (py_str : value -> string) (request_form : ThemeForm.t)
    (gid : option Z) : handler response :=
  d ← get_doc;
  _ ← lift (create_form py_str request_form (new_theme_default d));
  mret (Render "themes/form.html").
(** ** The resource form *)

(** The order of [session.query(ResourceType).order_by(list_order, name)]. *)
Definition type_compare (a b : ResourceType.t) : comparison :=
  match Z.compare (ResourceType.list_order a) (ResourceType.list_order b) with
  | Eq => String.compare (ResourceType.name a) (ResourceType.name b)
  | o => o
  end.

Definition types_le (a b : ResourceType.t) : Prop := type_compare a b <> Gt.

#[global] Instance types_le_dec a b : Decision (types_le a b).
Proof.
  unfold types_le. destruct (type_compare a b); [left|left|right]; congruence.
Defined.

Definition ordered_types (ts : list ResourceType.t) : list ResourceType.t :=
  merge_sort types_le ts.

(** One group of the parent select field. *)
Record choice_group : Type := {
  choice_resource_type : string;
  group_label : string;
  options : list (Z * string)
}.

(** The fields of [ResourceForm] the controller reads and assigns. *)
Module ResourceForm.
Record t : Type := mk {
  type : string;
  name : string;
  parent_id : option Z;
  type_choices : list (string * string);
  parent_id_choices : list (Z * string);
  parent_choices : list choice_group
}.
End ResourceForm.

(** [order_by(ResourceType.list_order, Resource.type, Resource.name)] *)
Definition form_order : list (column * bool) :=
  [ (ResourceTypeListOrder, false); (ResourceTypeColumn, false);
    (ResourceName, false) ].

(** A change of the element appended last to a list; [None] on the empty
    list. *)
Fixpoint update_last {A} (f : A -> A) (l : list A) : option (list A) :=
  match l with
  | [] => None
  | [x] => Some [f x]
  | x :: l' => cons x <$> update_last f l'
  end.

(** One turn of the loop that groups the parent choices.  [group] is the
    dict appended last to [parent_choices], which the [append] to its
    options changes in place; before any group it is the empty dict, which
    has no options. *)
Definition parent_choices_step
    (acc : result (option string * list choice_group)) (q : row)
  : result (option string * list choice_group) :=
  '(current_type, parent_choices) ← acc;
  let '(current_type, parent_choices) :=
    if decide (Some (Resource.type q.1) <> current_type) then
      (Some (Resource.type q.1),
       parent_choices ++
         [ {| choice_resource_type := Resource.type q.1;
              group_label := ResourceType.description q.2;
              options := [] |} ])
    else (current_type, parent_choices) in
  match update_last
          (fun group =>
             {| choice_resource_type := choice_resource_type group;
                group_label := group_label group;
                options := options group
                           ++ [(Resource.id q.1, Resource.name q.1)] |})
          parent_choices with
  | Some parent_choices => Ok (current_type, parent_choices)
  | None => Raise (KeyError "options")
  end.

Module ResourcesController.
(** *** [ResourcesController.create_form]

    [request_form] is [ResourceForm(obj=resource)], [type_arg] the [type]
    argument of the request. *)
Definition create_form (request_form : ResourceForm.t)
    (type_arg : option string) : handler ResourceForm.t :=
  fun st =>
    let types := ordered_types (resource_types st) in
    let rows := order_rows form_order
                  (join_types (resources st) (resource_types st)) in
    (acc ← foldl parent_choices_step (Ok (None, [])) rows;
     Ok {| ResourceForm.type :=
             match type_arg with
             | Some ty => ty
             | None => ResourceForm.type request_form
             end;
           ResourceForm.name := ResourceForm.name request_form;
           ResourceForm.parent_id := ResourceForm.parent_id request_form;
           ResourceForm.type_choices :=
             map (fun t => (ResourceType.name t, ResourceType.description t))
                 types;
           ResourceForm.parent_id_choices :=
             (0, EmptyString)
             :: map (fun q : row =>
                       (Resource.id q.1,
                        Resource.type q.1 +:+ ": " +:+ Resource.name q.1))
                    rows;
           ResourceForm.parent_choices := acc.2 |}, st).
End ResourcesController.

(** *** [ResourcesController.create_or_update_resources]

    The table as the session holds it after the call, the commit being the
    caller's: a new row takes the next key, an existing row is changed in
    its place. *)
Definition create_or_update_resources (resource : option Resource.t)
    (form : ResourceForm.t) (db : list Resource.t) : list Resource.t :=
  let parent_id :=
    match ResourceForm.parent_id form with
    | Some p => if decide (p > 0) then Some p else None
    | None => None
    end in
  match resource with
  | None =>
      db ++ [ {| Resource.id := fresh_id db;
                 Resource.type := ResourceForm.type form;
                 Resource.name := ResourceForm.name form;
                 Resource.parent_id := parent_id |} ]
  | Some resource =>
      map (fun r =>
             if decide (Resource.id r = Resource.id resource) then
               {| Resource.id := Resource.id r;
                  Resource.type := ResourceForm.type form;
                  Resource.name := ResourceForm.name form;
                  Resource.parent_id := parent_id |}
             else r) db
  end.

(** ** Messages at the request boundary *)

(** A request that ends with [answer], and with [messages] flashed after
    the ones that were pending. *)
Definition responds (run : result response * app_state) (st : app_state)
    (answer : response) (messages : list (string * string)) : Prop :=
  exists st', run = (Ok answer, st') /\ flashes st' = flashes st ++ messages.

(** What [save_themesconfig] flashes: nothing when the file is written,
    the message of its [except IOError] clause when it is not. *)
Definition write_flash (env : environment) : list (string * string) :=
  match write_error env with
  | Some strerror =>
      [("Could not write " +:+ config_file env +:+ ": " +:+ strerror, "error")]
  | None => []
  end.

(** What the [except] clauses of the themes controller flash for the
    commit of the request: the [orig] of an InternalError as an error, the
    handler's own text for an IntegrityError as a warning. *)
Definition commit_flash (env : environment) (on_integrity : string)
  : list (string * string) :=
  match commit env with
  | Committed => []
  | InternalError orig => [("InternalError: " +:+ orig, "error")]
  | IntegrityError _ => [(on_integrity, "warning")]
  end.

(** ** Sample data *)

Definition sample_theme (url : string) : theme := [("url", VStr url)].

Definition sample_items : list theme :=
  [sample_theme "/maps/a"; sample_theme "/maps/b"; sample_theme "/maps/c"].

Definition sample_groups : list theme_group :=
  [ {| group_title := VStr "first"; group_items := sample_items |};
    {| group_title := VStr "second"; group_items := [] |} ].

Definition sample_doc : themes_doc :=
  {| items := sample_items; groups := sample_groups |}.

Definition sample_types : list ResourceType.t :=
  [ ResourceType.mk "map" "Map" 1;
    ResourceType.mk "layer" "Layer" 2;
    ResourceType.mk "attribute" "Attribute" 3 ].

Definition sample_resources : list Resource.t :=
  [ Resource.mk 1 "map" "city" None;
    Resource.mk 2 "layer" "streets" (Some 1);
    Resource.mk 3 "layer" "buildings" (Some 1);
    Resource.mk 4 "attribute" "height" (Some 3);
    Resource.mk 5 "map" "region" None ].

Definition sample_state : app_state :=
  {| themesconfig := sample_doc; themes_file := sample_doc;
     resources := sample_resources; resource_types := sample_types;
     permissions := [Permission.mk 1 3]; flashes := [] |}.

Definition sample_env : environment :=
  {| commit := Committed;
     config_file := "qwc2/themesConfig.json";
     write_error := None;
     config_generator_service_url := Some "http://localhost:5010/";
     service_get :=
       fun _ => Reply 200 (inr ["region"; "harbour"; "city"; "airport"]) |}.

(** A submitted form with a title and scales and nothing else filled, and
    a stand-in for [int] that reads the two scales it is given. *)
Definition sample_form : ThemeForm.t :=
  {| ThemeForm.url := VStr "/maps/harbour";
     ThemeForm.title := VStr "Harbour";
     ThemeForm.thumbnail := VStr EmptyString;
     ThemeForm.attribution := VStr EmptyString;
     ThemeForm.attributionUrl := VStr EmptyString;
     ThemeForm.format := VStr EmptyString;
     ThemeForm.mapCrs := VStr EmptyString;
     ThemeForm.additionalMouseCrs := VStr EmptyString;
     ThemeForm.scales := VStr "1000, 500";
     ThemeForm.printScales := VStr EmptyString;
     ThemeForm.printResolutions := VStr EmptyString;
     ThemeForm.searchProviders := VStr EmptyString;
     ThemeForm.collapseLayerGroupsBelowLevel := VNone;
     ThemeForm.default := VBool false;
     ThemeForm.tiled := VBool false;
     ThemeForm.skipEmptyFeatureAttributes := VBool false;
     ThemeForm.backgroundLayers := [] |}.

Definition sample_int (s : string) : option Z :=
  if String.eqb s "1000" then Some 1000
  else if String.eqb s "500" then Some 500
  else None.

(** A theme as the file can hold it, and a stand-in for [str]. *)
Definition sample_edit_theme : theme :=
  [ ("url", VStr "/maps/a");
    ("attribution", VStr "City");
    ("attributionUrl", VStr "https://example.org/terms");
    ("collapseLayerGroupsBelowLevel", VInt 2);
    ("scales", VList [VStr "1000"; VStr "500"]) ].

Definition sample_str (v : value) : string :=
  match v with
  | VStr s => s
  | _ => "?"
  end.

(** A theme paired with the map "mymap", in a table where a layer of the
    same name comes first, and the form that moves the theme to the url
    "/maps/renamed". *)
Definition paired_doc : themes_doc :=
  {| items := [sample_theme "/maps/mymap"]; groups := [] |}.

Definition paired_resources : list Resource.t :=
  [ Resource.mk 1 "map" "city" None;
    Resource.mk 2 "layer" "mymap" (Some 1);
    Resource.mk 3 "map" "mymap" None ].

Definition paired_state : app_state :=
  {| themesconfig := paired_doc; themes_file := paired_doc;
     resources := paired_resources; resource_types := sample_types;
     permissions := []; flashes := [] |}.

Definition renamed_form : ThemeForm.t :=
  {| ThemeForm.url := VStr "/maps/renamed";
     ThemeForm.title := VStr EmptyString;
     ThemeForm.thumbnail := VStr EmptyString;
     ThemeForm.attribution := VStr EmptyString;
     ThemeForm.attributionUrl := VStr EmptyString;
     ThemeForm.format := VStr EmptyString;
     ThemeForm.mapCrs := VStr EmptyString;
     ThemeForm.additionalMouseCrs := VStr EmptyString;
     ThemeForm.scales := VStr EmptyString;
     ThemeForm.printScales := VStr EmptyString;
     ThemeForm.printResolutions := VStr EmptyString;
     ThemeForm.searchProviders := VStr EmptyString;
     ThemeForm.collapseLayerGroupsBelowLevel := VNone;
     ThemeForm.default := VBool false;
     ThemeForm.tiled := VBool false;
     ThemeForm.skipEmptyFeatureAttributes := VBool false;
     ThemeForm.backgroundLayers := [] |}.

(** Surroundings in which everything fails: the database refuses the
    commit, the themes file cannot be written, the service answers 500. *)
Definition failing_env : environment :=
  {| commit := IntegrityError "duplicate key value";
     config_file := "qwc2/themesConfig.json";
     write_error := Some "Permission denied";
     config_generator_service_url := Some "http://localhost:5010/";
     service_get := fun _ => Reply 500 (inl "Internal Server Error") |}.

(** The levels of the sample resources in their trees. *)
Definition sample_level (id : Z) : nat :=
  match id with
  | 2 | 3 => 1
  | 4 => 2
  | _ => 0
  end.

(** A map whose two children have types of one list_order. *)
Definition tie_types : list ResourceType.t :=
  [ ResourceType.mk "map" "Map" 1;
    ResourceType.mk "layer" "Layer" 2;
    ResourceType.mk "data" "Data" 2 ].

Definition tie_resources : list Resource.t :=
  [ Resource.mk 1 "map" "city" None;
    Resource.mk 2 "layer" "roads" (Some 1);
    Resource.mk 3 "data" "zones" (Some 1) ].

Definition tie_state : app_state :=
  {| themesconfig := sample_doc; themes_file := sample_doc;
     resources := tie_resources; resource_types := tie_types;
     permissions := []; flashes := [] |}.

(** A stand-in for [str] that prints integers, and a theme with scales. *)
Definition decimal_str (v : value) : string :=
  match v with
  | VInt z => pretty z
  | VStr s => s
  | _ => "?"
  end.

Definition scaled_theme : theme :=
  [ ("url", VStr "/maps/a");
    ("scales", VList [VInt 1000; VInt 500]);
    ("searchProviders", VList [VStr "coordinates"]) ].
(** A themes file as [json.load] reads it: two flat themes, the second
    without a title, and a group of one theme. *)
Definition listed_items : list theme :=
  [ [("url", VStr "/maps/a"); ("title", VStr "A")]; sample_theme "/maps/b" ].

Definition listed_groups : list (list (string * value) * list theme) :=
  [ ([ ("title", VStr "first");
       ("items", VList [VDict (sample_theme "/maps/c")]) ],
     [sample_theme "/maps/c"]) ].

Definition listed_themes : list (string * value) :=
  [ ("items", VList (map VDict listed_items));
    ("groups", VList (map (fun g => VDict g.1) listed_groups)) ].

Definition listed_config : list (string * value) :=
  [ ("themes", VDict listed_themes) ].
(** Two resources that are each other's parent, and a form that makes a
    layer under the resource 1. *)
Definition looped_resources : list Resource.t :=
  [ Resource.mk 1 "map" "city" (Some 2);
    Resource.mk 2 "layer" "roads" (Some 1) ].

Definition looped_state : app_state :=
  {| themesconfig := sample_doc; themes_file := sample_doc;
     resources := looped_resources; resource_types := sample_types;
     permissions := []; flashes := [] |}.

Definition layer_form : ResourceForm.t :=
  {| ResourceForm.type := "layer"; ResourceForm.name := "rivers";
     ResourceForm.parent_id := Some 1; ResourceForm.type_choices := [];
     ResourceForm.parent_id_choices := [];
     ResourceForm.parent_choices := [] |}.

(** A document whose only theme has no key. *)
Definition keyless_state : app_state :=
  {| themesconfig := {| items := [[]]; groups := [] |};
     themes_file := {| items := [[]]; groups := [] |};
     resources := sample_resources; resource_types := sample_types;
     permissions := []; flashes := [] |}.

(** * Properties *)

(** ** Python lists *)

Lemma py_index_nat {A} (l : list A) (i : nat) :
  (i < length l)%nat -> py_index l (Z.of_nat i) = Some i.
Proof.
  intros Hi. unfold py_index. rewrite decide_True by lia. by rewrite Nat2Z.id.
Qed.

Lemma py_index_last {A} (l : list A) :
  l <> [] -> py_index l (-1) = Some (pred (length l)).
Proof.
  intros Hl. unfold py_index. destruct l as [|x l]; [done|].
  rewrite decide_False by lia. rewrite decide_True by (simpl length; lia).
  f_equal. simpl length. lia.
Qed.

Lemma py_index_Some {A} (l : list A) (i : Z) (k : nat) :
  py_index l i = Some k -> (k < length l)%nat.
Proof. unfold py_index. repeat case_decide; intros; simplify_eq; lia. Qed.

Lemma py_getitem_nat {A} (l : list A) (i : nat) (x : A) :
  l !! i = Some x -> py_getitem l (Z.of_nat i) = Ok x.
Proof.
  intros Hx. unfold py_getitem.
  rewrite py_index_nat by (by eapply lookup_lt_Some). by rewrite Hx.
Qed.

Lemma lookup_py_getitem {A} (l : list A) (i : Z) (x : A) :
  0 <= i -> l !! Z.to_nat i = Some x <-> py_getitem l i = Ok x.
Proof.
  intros Hi. unfold py_getitem, py_index. split.
  - intros Hx. apply lookup_lt_Some in Hx as Hlt.
    rewrite decide_True by lia. by rewrite Hx.
  - destruct (decide (0 <= i < _)); [|destruct (decide _); [lia|done]].
    destruct (l !! Z.to_nat i); [congruence|done].
Qed.

(** The swap statement exchanges the two positions it names. *)
Lemma py_swap_assign_index {A} (l : list A) (a b : Z) (i j : nat) :
  py_index l a = Some i -> py_index l b = Some j ->
  py_swap_assign l a b = Ok (swap_at i j l).
Proof.
  intros Ha Hb. unfold py_swap_assign, py_getitem, py_setitem, swap_at.
  rewrite Hb, Ha.
  destruct (lookup_lt_is_Some_2 l i (py_index_Some _ _ _ Ha)) as [x Hx].
  destruct (lookup_lt_is_Some_2 l j (py_index_Some _ _ _ Hb)) as [y Hy].
  rewrite Hx, Hy. simpl.
  assert (py_index (<[i:=y]> l) b = Some j) as ->; [|done].
  revert Hb. unfold py_index. by rewrite length_insert.
Qed.

(** ** Moving a theme item *)

(** "up" at the first position changes nothing. *)
Lemma move_items_up_first {A} (l : list A) : move_items "up" 0 l = Ok l.
Proof. unfold move_items. rewrite !decide_False; [done| |]; intros [? ?]; done. Qed.

(** "up" elsewhere exchanges the item with the one above it. *)
Lemma move_items_up {A} (l : list A) (i : nat) :
  (0 < i < length l)%nat ->
  move_items "up" (Z.of_nat i) l = Ok (move_spec "up" i l).
Proof.
  intros Hi. unfold move_items, move_spec.
  rewrite decide_True by (split; [done|lia]).
  rewrite decide_True by done.
  destruct i as [|k]; [lia|].
  apply py_swap_assign_index.
  - replace (Z.of_nat (S k) - 1) with (Z.of_nat k) by lia.
    apply py_index_nat; lia.
  - apply py_index_nat; lia.
Qed.

(** "down" at the last position changes nothing. *)
Lemma move_items_down_last {A} (l : list A) :
  move_items "down" (Z.of_nat (length l) - 1) l = Ok l.
Proof.
  unfold move_items. rewrite !decide_False; [done| |]; intros [? ?]; [lia|done].
Qed.

(** "down" before the last position takes the same two positions as "up":
    the item goes above its upper neighbour, not below its lower one. *)
Lemma move_items_down {A} (l : list A) (i : nat) :
  (0 < i)%nat -> (S i < length l)%nat ->
  move_items "down" (Z.of_nat i) l = Ok (swap_at i (pred i) l).
Proof.
  intros Hi Hlen. unfold move_items.
  rewrite decide_False by (intros [? ?]; done).
  rewrite decide_True by (split; [done|lia]).
  apply py_swap_assign_index.
  - apply py_index_nat; lia.
  - replace (Z.of_nat i - 1) with (Z.of_nat (pred i)) by lia.
    apply py_index_nat; lia.
Qed.

(** "down" at the first position reaches position [-1], the last item. *)
Lemma move_items_down_first {A} (l : list A) :
  (1 < length l)%nat ->
  move_items "down" 0 l = Ok (swap_at 0 (pred (length l)) l).
Proof.
  intros Hlen. unfold move_items.
  rewrite decide_False by (intros [? ?]; done).
  rewrite decide_True by (split; [done|lia]).
  apply py_swap_assign_index.
  - apply (py_index_nat l 0); lia.
  - apply py_index_last. intros ->. simpl in Hlen. lia.
Qed.

(** C1: a move of a theme item "up" at position 0 or "down" at the last
    position changes nothing, and any other move exchanges the item with
    its neighbour in the stated direction.  The code breaks this for
    "down": on the three items a, b, c the move of b (position 1) gives
    b, a, c where the claim asks for a, c, b, also inside a group, and
    the move of a (position 0) exchanges a with the last item c. *)
Theorem move_theme_down_takes_upper_neighbour :
  move_theme "down" 1 None sample_doc
    = Ok (set_items sample_doc
            [sample_theme "/maps/b"; sample_theme "/maps/a"; sample_theme "/maps/c"])
  /\ move_spec "down" 1 sample_items
    = [sample_theme "/maps/a"; sample_theme "/maps/c"; sample_theme "/maps/b"]
  /\ move_theme "down" 1 (Some 0) sample_doc
    = Ok (set_groups sample_doc
            [ {| group_title := VStr "first";
                 group_items := [sample_theme "/maps/b"; sample_theme "/maps/a";
                                 sample_theme "/maps/c"] |};
              {| group_title := VStr "second"; group_items := [] |} ])
  /\ move_theme "down" 0 None sample_doc
    = Ok (set_items sample_doc
            [sample_theme "/maps/c"; sample_theme "/maps/b"; sample_theme "/maps/a"])
  /\ move_spec "down" 0 sample_items
    = [sample_theme "/maps/b"; sample_theme "/maps/a"; sample_theme "/maps/c"].
Proof. repeat split; vm_compute; reflexivity. Qed.

(** ** Moving a theme group *)

(** "up" at the second position is refused like "up" at the first. *)
Lemma move_theme_group_up_second (d : themes_doc) :
  move_theme_group 1 "up" d = Ok d.
Proof.
  unfold move_theme_group. rewrite !decide_False; [by destruct d| |];
    intros [? ?]; done.
Qed.

(** "down" at the last position is not refused, and exchanges the last
    group with the one above it. *)
Lemma move_theme_group_down_last (d : themes_doc) (i : nat) :
  (0 < i)%nat -> length (groups d) = S i ->
  move_theme_group (Z.of_nat i) "down" d
    = Ok (set_groups d (swap_at i (pred i) (groups d))).
Proof.
  intros Hi Hlen. unfold move_theme_group.
  rewrite decide_False by (intros [? ?]; done).
  rewrite decide_True by (split; [done|lia]).
  erewrite py_swap_assign_index; [done| |].
  - apply py_index_nat; lia.
  - replace (Z.of_nat i - 1) with (Z.of_nat (pred i)) by lia.
    apply py_index_nat; lia.
Qed.

(** C7: a move of a theme group "up" at the first position or "down" at the
    last position changes nothing, and any other move exchanges the group
    with its neighbour in the stated direction.  The code breaks this on
    the two groups first, second: "up" of the second group changes nothing
    where the claim asks for second, first, and "down" of the second group,
    which is the last, gives second, first where the claim asks for no
    change. *)
Theorem move_theme_group_wrong_at_both_ends :
  move_theme_group 1 "up" sample_doc = Ok sample_doc
  /\ move_spec "up" 1 sample_groups
     = [ {| group_title := VStr "second"; group_items := [] |};
         {| group_title := VStr "first"; group_items := sample_items |} ]
  /\ move_theme_group 1 "down" sample_doc
     = Ok (set_groups sample_doc
             [ {| group_title := VStr "second"; group_items := [] |};
               {| group_title := VStr "first"; group_items := sample_items |} ])
  /\ move_spec "down" 1 sample_groups = sample_groups.
Proof. repeat split; vm_compute; reflexivity. Qed.

(** ** Pagination of the resources list *)

(** The ceiling of the quotient, by the floor of integer division. *)
Lemma Qceiling_div (n d : Z) :
  0 < d -> Qceiling (inject_Z n / inject_Z d) = - ((- n) / d).
Proof.
  intros Hd. unfold Qceiling. f_equal.
  rewrite Zdiv_Qdiv. apply Qfloor_comp.
  rewrite inject_Z_opp. field.
  intros H. apply (inject_Z_injective d 0) in H. lia.
Qed.

Lemma math_ceil_div_spec (n d : Z) :
  0 < d ->
  exists k, math_ceil_div n d = Ok k /\ (k - 1) * d < n <= k * d.
Proof.
  intros Hd. unfold math_ceil_div. rewrite decide_False by lia.
  eexists; split; [done|]. rewrite Qceiling_div by done.
  pose proof (Z.div_mod (- n) d ltac:(lia)).
  pose proof (Z.mod_pos_bound (- n) d Hd). nia.
Qed.

(** C4: with [n] rows in the query and a page size [per_page > 0], the
    number of pages is the ceiling of [n / per_page], that is the integer
    [k] with [(k - 1) * per_page < n <= k * per_page]; every page from 1 on
    is the slice of the rows at offset [(page - 1) * per_page], of
    [min per_page (n - offset)] rows, or none past the end: the last
    page may be partial, and a page past the last is empty, without error. *)
Theorem index_pagination (ilike : string -> string -> bool)
    (search_text resource_type sort : option string) (sort_asc : bool)
    (page per_page : Z) (st : app_state) :
  0 < per_page -> 1 <= page ->
  let rows := (index_query ilike search_text resource_type sort sort_asc st).1 in
  let n := query_count rows in
  let offset := (page - 1) * per_page in
  exists view,
    index ilike search_text resource_type sort sort_asc page per_page st
      = (Ok view, st)
    /\ (view_num_pages view - 1) * per_page < n <= view_num_pages view * per_page
    /\ view_resources view
       = map fst (take (Z.to_nat per_page) (drop (Z.to_nat offset) rows))
    /\ Z.of_nat (length (view_resources view))
       = Z.max 0 (Z.min per_page (n - offset))
    /\ (view_num_pages view < page -> view_resources view = []).
Proof.
  intros Hp Hpage rows n offset. subst rows n offset. unfold index.
  destruct (index_query _ _ _ _ _ _) as [q sort_param]. simpl.
  destruct (math_ceil_div_spec (query_count q) per_page Hp) as (k & -> & Hk).
  unfold limit_offset. rewrite decide_True by nia. simpl.
  eexists. split; [done|]. simpl. unfold query_count in *.
  split; [done|]. split; [done|]. split.
  - rewrite length_map, length_take, length_drop.
    assert (0 <= (page - 1) * per_page) by nia. unfold row in *. lia.
  - intros Hlt. rewrite drop_ge by nia. by rewrite take_nil.
Qed.

Lemma index_pagination_witness :
  exists view,
    index (fun _ _ => true) None (Some "layer") (Some "name") false 2 1
          sample_state = (Ok view, sample_state)
    /\ view_num_pages view = 2
    /\ view_resources view = [Resource.mk 3 "layer" "buildings" (Some 1)].
Proof.
  destruct (index_pagination (fun _ _ => true) None (Some "layer") (Some "name")
              false 2 1 sample_state) as (view & Hview & Hpages & Hrows & _);
    [lia | lia |].
  exists view. split; [exact Hview|]. split.
  - assert (query_count (index_query (fun _ _ => true) None (Some "layer")
              (Some "name") false sample_state).1 = 2) as Hn
      by (vm_compute; reflexivity).
    cbv zeta in Hpages. rewrite Hn in Hpages. lia.
  - rewrite Hrows. vm_compute. reflexivity.
Defined.

(** ** The item a create or an update writes *)

Lemma dict_get_set {V} (k k' : string) (v : V) d :
  dict_get k (dict_set k' v d) = if String.eqb k k' then Some v else dict_get k d.
Proof.
  induction d as [|[k0 v0] d IH]; simpl; [done|].
  destruct (String.eqb k' k0) eqn:E0; simpl.
  - apply String.eqb_eq in E0 as ->. by destruct (String.eqb k k0).
  - rewrite IH.
    destruct (String.eqb k k0) eqn:E1, (String.eqb k k') eqn:E2; try done.
    apply String.eqb_eq in E1, E2. subst. by rewrite String.eqb_refl in E0.
Qed.

Lemma dict_get_set_if (k k' : string) (v : value) d :
  dict_get k (set_if k' v d)
  = if truthy v && String.eqb k k' then Some v else dict_get k d.
Proof.
  unfold set_if. destruct (truthy v); simpl; [apply dict_get_set|done].
Qed.

Lemma set_list_if_get conv (k' : string) (v : value) d d' :
  set_list_if conv k' v d = Ok d' ->
  exists l, forall k,
    dict_get k d' = if truthy v && String.eqb k k' then Some l else dict_get k d.
Proof.
  unfold set_list_if. destruct (truthy v); simpl.
  - destruct (split_list conv v) as [l|e]; simpl; [|done].
    intros [= <-]. exists l. intros k. apply dict_get_set.
  - intros [= <-]. by exists VNone.
Qed.

Lemma result_bind_Ok {A B} (r : result A) (k : A -> result B) (b : B) :
  r ≫= k = Ok b -> exists a, r = Ok a /\ k a = Ok b.
Proof. destruct r as [a|e]; [by exists a|done]. Qed.

Ltac item_lookup :=
  unfold dict_has;
  repeat first
    [ rewrite dict_get_set
    | rewrite dict_get_set_if
    | match goal with H : forall k, dict_get k _ = _ |- _ => rewrite H end ];
  simpl; rewrite ?andb_false_r, ?andb_true_r; simpl;
  repeat match goal with
         | H : truthy ?v = _ |- context [truthy ?v] => rewrite H
         | |- context [truthy ?v] => destruct (truthy v)
         end;
  try done.

Lemma build_item_keys py_int form item :
  build_item py_int form = Ok item ->
  Forall (fun k => dict_has k item = true) mandatory_keys
  /\ Forall (fun kv => dict_has kv.1 item = truthy kv.2) (optional_fields form)
  /\ (truthy (ThemeForm.attribution form) = false ->
      dict_get "attribution" item = Some (VStr EmptyString))
  /\ dict_get "default" item = Some (VBool (truthy (ThemeForm.default form)))
  /\ dict_get "skipEmptyFeatureAttributes" item
     = Some (VBool (truthy (ThemeForm.skipEmptyFeatureAttributes form)))
  /\ (truthy (ThemeForm.searchProviders form) = false ->
      dict_get "searchProviders" item = Some (VList []))
  /\ (ThemeForm.backgroundLayers form = [] ->
      dict_get "backgroundLayers" item = Some (VList [])).
Proof.
  unfold build_item. cbv zeta. intros H.
  apply result_bind_Ok in H as (i1 & E1 & H).
  apply result_bind_Ok in H as (i2 & E2 & H).
  apply result_bind_Ok in H as (i3 & E3 & H).
  apply result_bind_Ok in H as (i4 & E4 & H).
  injection H as <-.
  apply set_list_if_get in E1 as [l1 G1], E2 as [l2 G2], E3 as [l3 G3],
    E4 as [l4 G4].
  unfold mandatory_keys, optional_fields.
  repeat split; repeat constructor; simpl fst; simpl snd.
  all: try (intros Hempty); item_lookup.
  by rewrite Hempty.
Qed.

Lemma handler_bind_Ok {A B} (m : handler A) (k : A -> handler B) st b st' :
  (m ≫= k) st = (Ok b, st') ->
  exists a st1, m st = (Ok a, st1) /\ k a st1 = (Ok b, st').
Proof.
  unfold mbind, handler_bind. destruct (m st) as [[a|e] st1]; [eauto|done].
Qed.

Lemma commit_or_flash_doc env db f g st r st' :
  commit_or_flash env db f g st = (r, st') ->
  r = Ok tt /\ themesconfig st' = themesconfig st.
Proof.
  unfold commit_or_flash, put_resources, flash.
  destruct (commit env); intros [= <- <-]; done.
Qed.

Lemma save_themesconfig_doc env st r st' :
  save_themesconfig env st = (r, st') ->
  r = Ok tt /\ themesconfig st' = themesconfig st /\ resources st' = resources st.
Proof.
  unfold save_themesconfig, flash.
  destruct (write_error env); [by intros [= <- <-]|].
  unfold mbind, handler_bind, get_doc, put_file. by intros [= <- <-].
Qed.

Ltac handler_prim H :=
  lazymatch type of H with
  | lift _ _ = _ => unfold lift in H; simplify_eq
  | get_doc _ = _ => unfold get_doc in H; simplify_eq
  | get_resources _ = _ => unfold get_resources in H; simplify_eq
  | put_doc _ _ = _ => unfold put_doc in H; simplify_eq
  | put_resources _ _ = _ => unfold put_resources in H; simplify_eq
  | flash _ _ _ = _ => unfold flash in H; simplify_eq
  | mret _ _ = _ => unfold mret, handler_ret in H; simplify_eq
  | _ => idtac
  end.

Tactic Notation "handler_step" hyp(H) "as" ident(a) ident(st) ident(Hs) :=
  apply handler_bind_Ok in H as (a & st & Hs & H);
  handler_prim Hs.

Tactic Notation "handler_step" hyp(H) :=
  let a := fresh "a" in
  let st := fresh "st" in
  let Hs := fresh "Hstep" in
  handler_step H as a st Hs.

Lemma py_getitem_setitem {A} (l l' : list A) i x :
  py_setitem l i x = Ok l' -> py_getitem l' i = Ok x.
Proof.
  unfold py_setitem, py_getitem. destruct (py_index l i) as [k|] eqn:Hk; [|done].
  intros [= <-]. pose proof (py_index_Some _ _ _ Hk).
  assert (py_index (<[k:=x]> l) i = Some k) as ->.
  { revert Hk. unfold py_index. by rewrite length_insert. }
  by rewrite list_lookup_insert_eq.
Qed.


Lemma replace_theme_item_spec item tid gid st u st' :
  replace_theme_item item tid gid st = (Ok u, st') ->
  (exists l, target_items gid (themesconfig st') = Ok l
             /\ py_getitem l tid = Ok item)
  /\ (exists l0 old, target_items gid (themesconfig st) = Ok l0
                     /\ py_getitem l0 tid = Ok old
                     /\ dict_getitem "url" old = Ok u)
  /\ resources st' = resources st /\ flashes st' = flashes st.
Proof.
  unfold replace_theme_item. intros H.
  handler_step H. simplify_eq. destruct gid as [g|].
  - do 6 (handler_step H; simplify_eq). handler_prim H.
    simpl. split; [|split]; [| |done].
    + erewrite py_getitem_setitem by done. simpl.
      eauto using py_getitem_setitem.
    + rewrite H0. simpl. eauto.
  - do 4 (handler_step H; simplify_eq). handler_prim H.
    simpl. split; [|split]; [| |done].
    + eauto using py_getitem_setitem.
    + eauto.
Qed.

Lemma append_theme_item_spec item gid st r st' :
  append_theme_item item gid st = (Ok r, st') ->
  (exists l, target_items gid (themesconfig st') = Ok l /\ last l = Some item)
  /\ resources st' = resources st /\ flashes st' = flashes st.
Proof.
  unfold append_theme_item. intros H.
  handler_step H. simplify_eq. destruct gid as [g|].
  - do 2 (handler_step H; simplify_eq). handler_prim H.
    simpl. split; [|done].
    erewrite py_getitem_setitem by done. simpl.
    eexists; split; [done|]. apply last_snoc.
  - handler_prim H. simpl. split; [|done].
    eexists; split; [done|]. apply last_snoc.
Qed.

Lemma written_item_placed py_int env th form tid gid st st' :
  create_or_update_theme py_int env th form tid gid st = (Ok tt, st') ->
  exists item l,
    build_item py_int form = Ok item
    /\ target_items gid (themesconfig st') = Ok l
    /\ match th with
       | Some (_ :: _) => py_getitem l tid = Ok item
       | _ => last l = Some item
       end.
Proof.
  unfold create_or_update_theme. intros H.
  handler_step H as item st1 Hitem.
  handler_step H as new_name st2 Hname.
  handler_step H as u st3 Hbody.
  apply save_themesconfig_doc in H as (_ & Hdoc & _).
  exists item. rewrite Hdoc. clear Hdoc st'.
  enough (exists l, target_items gid (themesconfig st3) = Ok l
                    /\ match th with
                       | Some (_ :: _) => py_getitem l tid = Ok item
                       | _ => last l = Some item
                       end) as (l & ? & ?) by eauto.
  assert (forall db f g st2 (u : unit) st3,
            (commit_or_flash env db f g;; append_theme_item item gid) st2
              = (Ok u, st3) ->
            exists l, target_items gid (themesconfig st3) = Ok l
                      /\ last l = Some item) as Hcreate.
  { intros db f g st4 u' st5 Hc. handler_step Hc.
    by apply append_theme_item_spec in Hc as [Hl _]. }
  destruct th as [[|kv th]|].
  - handler_step Hbody. eauto.
  - handler_step Hbody as old_url st4 Hreplace.
    handler_step Hbody as name st5 Hold.
    handler_step Hbody as db st6 Hdb.
    apply replace_theme_item_spec in Hreplace as ((l & Hl & Hl_tid) & _).
    exists l. split; [|done]. rewrite <- Hl. f_equal.
    destruct (query_first _ _).
    + by apply commit_or_flash_doc in Hbody as [_ ->].
    + by handler_prim Hbody.
  - handler_step Hbody. eauto.
Qed.

(** C9: the item a create or an update writes (at the index of an update,
    at the end of the list for a create) has the keys "url",
    "attribution", "default", "skipEmptyFeatureAttributes",
    "searchProviders" and "backgroundLayers" whatever the form left empty,
    with the empty string for an empty attribution, False for the empty
    booleans and the empty list for the empty lists; each other optional
    key is there exactly when its form field holds data. *)
Theorem written_item_keys (py_int : string -> option Z) (env : environment)
    (th : option theme) (form : ThemeForm.t) (tid : Z) (gid : option Z)
    (st st' : app_state) :
  create_or_update_theme py_int env th form tid gid st = (Ok tt, st') ->
  exists item l,
    target_items gid (themesconfig st') = Ok l
    /\ match th with
       | Some (_ :: _) => py_getitem l tid = Ok item
       | _ => last l = Some item
       end
    /\ Forall (fun k => dict_has k item = true) mandatory_keys
    /\ Forall (fun kv => dict_has kv.1 item = truthy kv.2) (optional_fields form)
    /\ (truthy (ThemeForm.attribution form) = false ->
        dict_get "attribution" item = Some (VStr EmptyString))
    /\ dict_get "default" item = Some (VBool (truthy (ThemeForm.default form)))
    /\ dict_get "skipEmptyFeatureAttributes" item
       = Some (VBool (truthy (ThemeForm.skipEmptyFeatureAttributes form)))
    /\ (truthy (ThemeForm.searchProviders form) = false ->
        dict_get "searchProviders" item = Some (VList []))
    /\ (ThemeForm.backgroundLayers form = [] ->
        dict_get "backgroundLayers" item = Some (VList [])).
Proof.
  intros H.
  apply written_item_placed in H as (item & l & Hitem & Hl & Hplace).
  exists item, l. split; [done|]. split; [done|].
  by apply (build_item_keys py_int).
Qed.

Lemma written_item_keys_witness :
  exists item l,
    target_items None
      (themesconfig
         (create_or_update_theme sample_int sample_env None sample_form 0 None
            sample_state).2) = Ok l
    /\ last l = Some item
    /\ dict_get "attribution" item = Some (VStr EmptyString)
    /\ dict_get "scales" item = Some (VList [VInt 1000; VInt 500])
    /\ dict_has "thumbnail" item = false.
Proof.
  destruct (written_item_keys sample_int sample_env None sample_form 0 None
              sample_state
              (create_or_update_theme sample_int sample_env None sample_form 0
                 None sample_state).2)
    as (item & l & Hl & Hlast & _ & Hopt & Hattr & _).
  { vm_compute. reflexivity. }
  exists item, l. split; [exact Hl|]. split; [exact Hlast|].
  split; [apply Hattr; reflexivity|].
  assert (item = [("url", VStr "/maps/harbour"); ("title", VStr "Harbour");
                  ("attribution", VStr EmptyString); ("default", VBool false);
                  ("scales", VList [VInt 1000; VInt 500]);
                  ("skipEmptyFeatureAttributes", VBool false);
                  ("searchProviders", VList []);
                  ("backgroundLayers", VList [])]) as ->.
  { vm_compute in Hl. injection Hl as <-. vm_compute in Hlast.
    by injection Hlast as <-. }
  split; reflexivity.
Defined.

(** ** Populating the edit form *)

Lemma run_steps_cons step steps f :
  run_steps (step :: steps) f = step f ≫= run_steps steps.
Proof.
  unfold run_steps. simpl. destruct (step f) as [f'|e]; simpl; [done|].
  induction steps as [|s steps IH]; simpl; [done|]. apply IH.
Qed.

Lemma run_steps_app steps1 steps2 f :
  run_steps (steps1 ++ steps2) f = run_steps steps1 f ≫= run_steps steps2.
Proof.
  revert f. induction steps1 as [|s steps1 IH]; intros f; [done|].
  simpl. rewrite !run_steps_cons. destruct (s f) as [f'|e]; simpl; [apply IH|done].
Qed.

Lemma run_steps_keeps {X} (field : ThemeForm.t -> X) steps f f' :
  Forall (step_keeps field) steps ->
  run_steps steps f = Ok f' -> field f' = field f.
Proof.
  intros Hsteps. revert f. induction Hsteps as [|s steps Hs _ IH]; intros f.
  - by intros [= <-].
  - rewrite run_steps_cons. intros H.
    apply result_bind_Ok in H as (f1 & H1 & H). rewrite (IH _ H). by apply Hs.
Qed.

Lemma when_key_keeps {X} (field : ThemeForm.t -> X) k th assign :
  (forall v, step_keeps field (assign v)) ->
  step_keeps field (when_key k th assign).
Proof.
  intros Hassign f f'. unfold when_key.
  destruct (dict_get k th) as [v|]; [apply Hassign|by intros [= <-]].
Qed.

Lemma append_layers_keeps layers f f' :
  append_layers layers f = Ok f' ->
  ThemeForm.attribution f' = ThemeForm.attribution f
  /\ ThemeForm.attributionUrl f' = ThemeForm.attributionUrl f
  /\ ThemeForm.skipEmptyFeatureAttributes f' = ThemeForm.skipEmptyFeatureAttributes f
  /\ ThemeForm.collapseLayerGroupsBelowLevel f'
     = ThemeForm.collapseLayerGroupsBelowLevel f.
Proof.
  revert f. induction layers as [|layer layers IH]; intros f; simpl.
  - by intros [= <-].
  - intros H. apply result_bind_Ok in H as (e & _ & H).
    by apply IH in H as (-> & -> & -> & ->).
Qed.

Ltac step_keeps :=
  apply when_key_keeps; intros ? ? ? Hs;
  first
    [ by injection Hs as <-
    | apply result_bind_Ok in Hs as (? & _ & Hs);
      first [ by injection Hs as <-
            | by apply append_layers_keeps in Hs as (? & ? & ? & ?) ] ].

Lemma run_steps_split n steps f form :
  run_steps steps f = Ok form ->
  exists f1, run_steps (take n steps) f = Ok f1
             /\ run_steps (drop n steps) f1 = Ok form.
Proof.
  rewrite <- (take_drop n steps) at 1. rewrite run_steps_app.
  intros H. by apply result_bind_Ok in H.
Qed.

(** C10: for a theme with an "attributionUrl" key, populating the edit form
    assigns that value to the form's attribution field, over a value set
    from the "attribution" key, and the form's attributionUrl field is
    never populated; likewise the value of "collapseLayerGroupsBelowLevel"
    is assigned to the form's skipEmptyFeatureAttributes field (the form
    after the twelfth statement holds it), where it stays unless the
    theme also has a "skipEmptyFeatureAttributes" key, whose value the
    next statement assigns to the same field; the form's own
    collapseLayerGroupsBelowLevel field is never populated. *)
Theorem create_form_misplaced_fields (py_str : value -> string)
    (request_form : ThemeForm.t) (th : theme) (form : ThemeForm.t) :
  create_form py_str request_form (Some th) = Ok form ->
  (forall v, dict_get "attributionUrl" th = Some v ->
             ThemeForm.attribution form = v)
  /\ ThemeForm.attributionUrl form = VNone
  /\ ThemeForm.collapseLayerGroupsBelowLevel form = VNone
  /\ (forall c, dict_get "collapseLayerGroupsBelowLevel" th = Some c ->
        (exists u assigned,
            dict_getitem "url" th = Ok u
            /\ run_steps (take 12 (create_form_steps py_str th)) (ThemeForm.new u)
               = Ok assigned
            /\ ThemeForm.skipEmptyFeatureAttributes assigned = c)
        /\ ThemeForm.skipEmptyFeatureAttributes form
           = default c (dict_get "skipEmptyFeatureAttributes" th)).
Proof.
  unfold create_form. intros H.
  apply result_bind_Ok in H as (u & Hu & H).
  split; [|split; [|split]].
  - intros v Hv.
    apply (run_steps_split 3) in H as (f3 & _ & H).
    unfold create_form_steps in H. cbn [drop] in H.
    rewrite run_steps_cons in H. apply result_bind_Ok in H as (f4 & H4 & H).
    apply (run_steps_keeps ThemeForm.attribution) in H as ->;
      [|repeat constructor; step_keeps].
    unfold when_key in H4. rewrite Hv in H4. by injection H4 as <-.
  - by apply (run_steps_keeps ThemeForm.attributionUrl) in H as ->;
      [|repeat constructor; step_keeps].
  - by apply (run_steps_keeps ThemeForm.collapseLayerGroupsBelowLevel) in H as ->;
      [|repeat constructor; step_keeps].
  - intros c Hc.
    apply (run_steps_split 12) in H as (f12 & H12 & H).
    assert (ThemeForm.skipEmptyFeatureAttributes f12 = c) as Hf12.
    { apply (run_steps_split 11) in H12 as (f11 & _ & H12).
      unfold create_form_steps in H12. cbn [take drop] in H12.
      rewrite run_steps_cons in H12. unfold when_key in H12. rewrite Hc in H12.
      simpl in H12. by injection H12 as <-. }
    split; [by eauto|].
    unfold create_form_steps in H. cbn [drop] in H.
    rewrite run_steps_cons in H. apply result_bind_Ok in H as (f13 & H13 & H).
    apply (run_steps_keeps ThemeForm.skipEmptyFeatureAttributes) in H as ->;
      [|repeat constructor; step_keeps].
    unfold when_key in H13.
    destruct (dict_get "skipEmptyFeatureAttributes" th) as [s|];
      by injection H13 as <-.
Qed.

Lemma create_form_misplaced_fields_witness :
  exists form,
    create_form sample_str sample_form (Some sample_edit_theme) = Ok form
    /\ ThemeForm.attribution form = VStr "https://example.org/terms"
    /\ ThemeForm.attributionUrl form = VNone
    /\ ThemeForm.skipEmptyFeatureAttributes form = VInt 2.
Proof.
  destruct (create_form sample_str sample_form (Some sample_edit_theme))
    as [form|e] eqn:E; [|vm_compute in E; discriminate E].
  destruct (create_form_misplaced_fields _ _ _ _ E)
    as (Hattribution & Hurl & _ & Hskip).
  exists form. split; [reflexivity|]. split; [by apply Hattribution|].
  split; [exact Hurl|]. by apply Hskip.
Defined.

(** ** The order of strings *)

Lemma ascii_compare_refl (a : ascii) : Ascii.compare a a = Eq.
Proof. apply N.compare_refl. Qed.

Lemma ascii_compare_trans (a b c : ascii) :
  Ascii.compare a b = Lt -> Ascii.compare b c = Lt -> Ascii.compare a c = Lt.
Proof. unfold Ascii.compare. rewrite !N.compare_lt_iff. lia. Qed.

Lemma string_compare_refl (s : string) : String.compare s s = Eq.
Proof. induction s as [|a s IH]; simpl; [done|]. by rewrite ascii_compare_refl. Qed.

Lemma string_compare_trans (s1 s2 s3 : string) :
  String.compare s1 s2 = Lt -> String.compare s2 s3 = Lt ->
  String.compare s1 s3 = Lt.
Proof.
  revert s2 s3. induction s1 as [|a1 s1 IH]; intros [|a2 s2] [|a3 s3]; simpl;
    try done.
  destruct (Ascii.compare a1 a2) eqn:E12; [|clear IH|done].
  - apply Ascii.compare_eq_iff in E12 as ->.
    destruct (Ascii.compare a2 a3); [apply IH|done|done].
  - intros _. destruct (Ascii.compare a2 a3) eqn:E23; [| |done].
    + apply Ascii.compare_eq_iff in E23 as <-. by rewrite E12.
    + by rewrite (ascii_compare_trans _ _ _ E12 E23).
Qed.

Lemma str_le_compare (a b : string) : str_le a b <-> String.compare a b <> Gt.
Proof. unfold str_le, String.leb. by destruct (String.compare a b). Qed.

#[global] Instance str_le_total : Total str_le.
Proof. intros a b. apply String.leb_total. Qed.

#[global] Instance str_le_refl : Reflexive str_le.
Proof. intros a. apply str_le_compare. by rewrite string_compare_refl. Qed.

#[global] Instance str_le_trans : Transitive str_le.
Proof.
  intros a b c. rewrite !str_le_compare. intros Hab Hbc.
  destruct (String.compare a b) eqn:Eab; [| |done].
  - by apply String.compare_eq_iff in Eab as ->.
  - destruct (String.compare b c) eqn:Ebc; [| |done].
    + by apply String.compare_eq_iff in Ebc as <-; rewrite Eab.
    + by rewrite (string_compare_trans _ _ _ Eab Ebc).
Qed.

#[global] Instance str_le_antisym : AntiSymm eq str_le.
Proof. intros a b. apply String.leb_antisym. Qed.

(** ** The names an import adds *)

Lemma new_names_spec (from_config existing : list string) :
  (forall x, x ∈ new_names from_config existing
             <-> x ∈ from_config /\ x ∉ existing)
  /\ NoDup (new_names from_config existing)
  /\ StronglySorted str_le (new_names from_config existing).
Proof.
  unfold new_names. split; [|split].
  - intros x. rewrite merge_sort_Permutation, elem_of_elements,
      elem_of_difference, !elem_of_list_to_set. done.
  - rewrite merge_sort_Permutation. apply NoDup_elements.
  - apply StronglySorted_merge_sort; apply _.
Qed.

Lemma new_names_nil (existing : list string) : new_names [] existing = [].
Proof.
  destruct (new_names [] existing) as [|x l] eqn:E; [done|].
  destruct (new_names_spec [] existing) as (Hin & _).
  destruct (Hin x) as [Hx _]. rewrite E in Hx.
  destruct Hx as [Hx _]; [left|]. by apply elem_of_nil in Hx.
Qed.

Lemma add_resources_app ty parent_id names db :
  exists added,
    add_resources ty parent_id names db = db ++ added
    /\ map Resource.name added = names
    /\ Forall (fun r => Resource.type r = ty
                        /\ Resource.parent_id r = parent_id) added.
Proof.
  unfold add_resources. revert db.
  induction names as [|n names IH]; intros db; simpl.
  - exists []. by rewrite app_nil_r.
  - destruct (IH (db ++ [ {| Resource.id := fresh_id db; Resource.type := ty;
                             Resource.name := n;
                             Resource.parent_id := parent_id |} ]))
      as (added & -> & <- & Hadded).
    eexists (_ :: added). rewrite <- app_assoc. split; [done|].
    split; [done|]. by constructor.
Qed.

(** C3: with the names the config service returns and the rows of the
    type in the table (the maps; for a map, its layers), a committed
    import appends to the table exactly one row per name of the set
    difference, service names minus existing names, compared as strings,
    so never a name already present; the rows are staged in the order of
    the sorted names, which is lexicographic and without repetition. *)
Theorem import_adds_sorted_difference (env : environment) (st : app_state)
    (url : string) (names layers : list string) (map_resource : Resource.t) :
  config_generator_service_url env = Some url ->
  commit env = Committed ->
  service_get env "maps" = Reply 200 (inr names) ->
  service_get env ("maps/" +:+ Resource.name map_resource)
    = Reply 200 (inr layers) ->
  let maps :=
    map Resource.name (filter (fun r => Resource.type r = "map") (resources st)) in
  let map_layers :=
    map Resource.name
      (filter (fun r => Resource.type r = "layer"
                        /\ Resource.parent_id r = Some (Resource.id map_resource))
              (resources st)) in
  (exists added,
      resources (import_maps env st).2 = resources st ++ added
      /\ map Resource.name added = new_names names maps
      /\ Forall (fun r => Resource.type r = "map"
                          /\ Resource.parent_id r = None) added)
  /\ (exists added,
        resources (import_layers env map_resource st).2 = resources st ++ added
        /\ map Resource.name added = new_names layers map_layers
        /\ Forall (fun r => Resource.type r = "layer"
                            /\ Resource.parent_id r
                               = Some (Resource.id map_resource)) added)
  /\ (forall from_config existing,
        (forall x, x ∈ new_names from_config existing
                   <-> x ∈ from_config /\ x ∉ existing)
        /\ NoDup (new_names from_config existing)
        /\ StronglySorted str_le (new_names from_config existing)).
Proof.
  intros Hurl Hcommit Hmaps Hlayers maps map_layers.
  split; [|split; [|apply new_names_spec]].
  - unfold import_maps. rewrite Hurl, Hmaps.
    destruct (decide (200 <> 200)) as [|_]; [done|].
    unfold mbind at 1, handler_bind at 1, get_resources. fold maps.
    destruct (new_names names maps) as [|n ns] eqn:Hnew.
    + exists []. by rewrite app_nil_r.
    + rewrite Hcommit.
      destruct (add_resources_app "map" None (n :: ns) (resources st))
        as (added & Hadd & Hnames & Hadded).
      exists added. by rewrite Hadd.
  - unfold import_layers. rewrite Hlayers.
    destruct (decide (200 <> 200)) as [|_]; [done|].
    destruct layers as [|l ls].
    { exists []. by rewrite app_nil_r, new_names_nil. }
    unfold mbind at 1, handler_bind at 1, get_resources. fold map_layers.
    destruct (new_names (l :: ls) map_layers) as [|n ns] eqn:Hnew.
    + exists []. by rewrite app_nil_r.
    + rewrite Hcommit.
      destruct (add_resources_app "layer" (Some (Resource.id map_resource))
                  (n :: ns) (resources st))
        as (added & Hadd & Hnames & Hadded).
      exists added. by rewrite Hadd.
Qed.

Lemma import_adds_sorted_difference_witness :
  exists added,
    resources (import_maps sample_env sample_state).2 = sample_resources ++ added
    /\ map Resource.name added = ["airport"; "harbour"].
Proof.
  destruct (import_adds_sorted_difference sample_env sample_state
              "http://localhost:5010/"
              ["region"; "harbour"; "city"; "airport"]
              ["region"; "harbour"; "city"; "airport"]
              (Resource.mk 1 "map" "city" None))
    as ((added & Hadd & Hnames & _) & _); [reflexivity..|].
  exists added. split; [exact Hadd|]. rewrite Hnames. vm_compute. reflexivity.
Defined.

(** ** The map resource paired with a theme *)

(** C6: every theme item is paired with the resource of type "map" named
    after the last segment of its url, and create, update and delete keep
    the pairing.  The update breaks it: it looks the resource up by name
    alone, where the delete also asks for the type "map".  With a layer and
    a map both named "mymap", the layer first in the table, the update of
    the theme to "/maps/renamed" renames the layer and leaves the map
    "mymap", so that no map resource is named "renamed". *)
Theorem update_theme_renames_resource_of_any_type :
  let out := update_theme sample_int sample_str sample_env renamed_form true 0
               None paired_state in
  out.1 = Ok (Redirect "themes" [])
  /\ map (dict_get "url") (items (themesconfig out.2))
     = [Some (VStr "/maps/renamed")]
  /\ resources out.2
     = [ Resource.mk 1 "map" "city" None;
         Resource.mk 2 "layer" "renamed" (Some 1);
         Resource.mk 3 "map" "mymap" None ]
  /\ query_first (fun r => Resource.type r = "map" /\ Resource.name r = "renamed")
       (resources out.2) = None
  /\ query_first (fun r => Resource.type r = "map" /\ Resource.name r = "mymap")
       paired_resources = Some (Resource.mk 3 "map" "mymap" None).
Proof. repeat split; vm_compute; reflexivity. Qed.

(** ** Failures at the request boundary *)

Lemma split_on_not_nil c s : split_on c s <> [].
Proof.
  destruct s as [|a s]; simpl; [done|].
  destruct (Ascii.eqb a c); [done|]. by destruct (split_on c s).
Qed.

Lemma url_basename_str (s : string) : exists name, url_basename (VStr s) = Ok name.
Proof.
  simpl. unfold py_getitem.
  rewrite py_index_last by apply split_on_not_nil.
  destruct (split_on "/" s) as [|x l] eqn:E; [by apply split_on_not_nil in E|].
  destruct (lookup_lt_is_Some_2 (x :: l) (pred (length (x :: l)))) as [y ->];
    [simpl; lia|by eexists].
Qed.

Lemma py_getitem_Some {A} (l : list A) i x :
  py_getitem l i = Ok x -> exists k, py_index l i = Some k /\ l !! k = Some x.
Proof.
  unfold py_getitem. destruct (py_index l i) as [k|]; [|done].
  destruct (l !! k) eqn:E; [|done]. intros [= <-]. eauto.
Qed.

Lemma pop_theme_item_ok tid gid st l it url :
  target_items gid (themesconfig st) = Ok l ->
  py_getitem l tid = Ok it ->
  dict_get "url" it = Some (VStr url) ->
  exists name st1,
    pop_theme_item tid gid st = (Ok name, st1)
    /\ url_basename (VStr url) = Ok name
    /\ resources st1 = resources st /\ flashes st1 = flashes st.
Proof.
  intros Hl Hit Hurl. destruct (url_basename_str url) as [name Hname].
  exists name. unfold pop_theme_item, target_items in *.
  unfold mbind at 1, handler_bind at 1, get_doc.
  destruct (py_getitem_Some _ _ _ Hit) as (k & Hk & Hlk).
  destruct gid as [g|].
  - apply result_bind_Ok in Hl as (grp & Hgrp & [= <-]).
    destruct (py_getitem_Some _ _ _ Hgrp) as (kg & Hkg & _).
    unfold mbind, handler_bind, lift, put_doc, mret, handler_ret.
    rewrite Hgrp, Hit. unfold dict_getitem. rewrite Hurl, Hname.
    unfold py_pop, py_setitem. rewrite Hk, Hlk, Hkg. simpl. eauto.
  - injection Hl as <-.
    unfold mbind, handler_bind, lift, put_doc, mret, handler_ret.
    rewrite Hit. unfold dict_getitem. rewrite Hurl, Hname.
    unfold py_pop. rewrite Hk, Hlk. simpl. eauto.
Qed.

Lemma save_themesconfig_run env st :
  exists st' io_flash,
    save_themesconfig env st = (Ok tt, st')
    /\ flashes st' = flashes st ++ io_flash
    /\ resources st' = resources st
    /\ (write_error env <> None -> io_flash <> []).
Proof.
  unfold save_themesconfig. destruct (write_error env) as [e|].
  - eexists _, [_]. unfold flash. simpl. done.
  - eexists _, []. unfold mbind, handler_bind, get_doc, put_file. simpl.
    by rewrite app_nil_r.
Qed.

Lemma commit_or_flash_run env db f g st :
  exists st' db_flash,
    commit_or_flash env db f g st = (Ok tt, st')
    /\ flashes st' = flashes st ++ db_flash
    /\ themesconfig st' = themesconfig st
    /\ (commit env = Committed -> resources st' = db /\ db_flash = [])
    /\ (commit env <> Committed -> resources st' = resources st /\ db_flash <> []).
Proof.
  unfold commit_or_flash, put_resources, flash.
  destruct (commit env) as [|orig|orig].
  - eexists _, []. simpl. by rewrite app_nil_r.
  - eexists _, [_]. simpl. done.
  - eexists _, [_]. simpl. done.
Qed.

Lemma handler_bind_run {A B} (m : handler A) (k : A -> handler B) st a st1 :
  m st = (Ok a, st1) -> (m ≫= k) st = k a st1.
Proof. intros H. unfold mbind, handler_bind. by rewrite H. Qed.

(** A committed run for a new theme adds the map resource named after the
    url. *)
Lemma new_theme_adds_map_resource py_int env form tid gid st st' name :
  create_or_update_theme py_int env None form tid gid st = (Ok tt, st') ->
  commit env = Committed ->
  url_basename (ThemeForm.url form) = Ok name ->
  resources st'
  = resources st ++ [ {| Resource.id := fresh_id (resources st);
                         Resource.type := "map"; Resource.name := name;
                         Resource.parent_id := None |} ].
Proof.
  unfold create_or_update_theme. intros H Hcommit Hname.
  handler_step H as item st1 Hitem.
  handler_step H as new_name st2 Hnew.
  assert (new_name = name) as -> by congruence.
  handler_step H as u st3 Hbody.
  apply save_themesconfig_doc in H as (_ & _ & ->).
  handler_step Hbody as db st4 Hdb.
  handler_step Hbody as u' st5 Hadd.
  apply append_theme_item_spec in Hbody as (_ & -> & _).
  match type of Hadd with commit_or_flash env ?db' ?f ?g ?s = _ =>
    destruct (commit_or_flash_run env db' f g s) as (s' & fl & Hrun & _ & _ & Hok & _)
  end.
  rewrite Hrun in Hadd. simplify_eq. by destruct (Hok Hcommit).
Qed.

(** A committed delete removes the map resource named after the url. *)
Lemma delete_theme_removes_map_resource env st tid gid l it url name :
  target_items gid (themesconfig st) = Ok l ->
  py_getitem l tid = Ok it ->
  dict_get "url" it = Some (VStr url) ->
  url_basename (VStr url) = Ok name ->
  commit env = Committed ->
  resources (delete_theme env tid gid st).2
  = match query_first (fun r => Resource.type r = "map" /\ Resource.name r = name)
                      (resources st) with
    | Some resource =>
        filter (fun r => Resource.id r <> Resource.id resource) (resources st)
    | None => resources st
    end.
Proof.
  intros Hl Hit Hurl Hname Hcommit.
  destruct (pop_theme_item_ok tid gid st l it url Hl Hit Hurl)
    as (name' & st1 & Hpop & Hname' & Hres & Hfl).
  assert (name' = name) as -> by congruence.
  unfold delete_theme. rewrite (handler_bind_run _ _ _ _ _ Hpop).
  rewrite (handler_bind_run get_resources _ st1 (resources st1) st1 eq_refl).
  rewrite Hres.
  destruct (query_first _ (resources st)) as [r|] eqn:Hq.
  - match goal with |- context [commit_or_flash env ?db ?f ?g] =>
      destruct (commit_or_flash_run env db f g st1)
        as (st2 & dbf & Hrun & _ & _ & Hok & _)
    end.
    rewrite (handler_bind_run _ _ _ _ _ Hrun).
    destruct (save_themesconfig_run env st2) as (st' & io & Hsave & _ & Hr & _).
    rewrite (handler_bind_run _ _ _ _ _ Hsave). simpl.
    rewrite Hr. by destruct (Hok Hcommit).
  - rewrite (handler_bind_run (mret tt) _ st1 tt st1 eq_refl).
    destruct (save_themesconfig_run env st1) as (st' & io & Hsave & _ & Hr & _).
    rewrite (handler_bind_run _ _ _ _ _ Hsave). simpl. by rewrite Hr.
Qed.

Lemma handler_bind_assoc {A B C} (m : handler A) (k : A -> handler B)
    (k' : B -> handler C) st :
  ((m ≫= k) ≫= k') st = (m ≫= fun a => k a ≫= k') st.
Proof. unfold mbind, handler_bind. by destruct (m st) as [[a|e] st1]. Qed.

Lemma save_themesconfig_flashes env st :
  exists st',
    save_themesconfig env st = (Ok tt, st')
    /\ flashes st' = flashes st ++ write_flash env.
Proof.
  unfold save_themesconfig, write_flash. destruct (write_error env) as [e|].
  - by eexists.
  - eexists. unfold mbind, handler_bind, get_doc, put_file. simpl.
    by rewrite app_nil_r.
Qed.

(** The end of every handler that saves the themes file. *)
Lemma saved_responds env st0 st messages :
  flashes st = flashes st0 ++ messages ->
  responds ((save_themesconfig env;; mret (Redirect "themes" [])) st) st0
    (Redirect "themes" []) (messages ++ write_flash env).
Proof.
  intros Hfl. destruct (save_themesconfig_flashes env st) as (st' & Hsave & Hio).
  exists st'. rewrite (handler_bind_run _ _ _ _ _ Hsave). split; [done|].
  by rewrite Hio, Hfl, app_assoc.
Qed.

Lemma commit_or_flash_flashes env db text st :
  exists st',
    commit_or_flash env db (fun orig => ("InternalError: " +:+ orig, "error"))
      (fun _ => (text, "warning")) st = (Ok tt, st')
    /\ flashes st' = flashes st ++ commit_flash env text.
Proof.
  unfold commit_or_flash, commit_flash, put_resources, flash.
  destruct (commit env); eexists; (split; [reflexivity|]); simpl;
    by rewrite ?app_nil_r.
Qed.

Lemma add_theme_group_responds env st :
  responds (add_theme_group env st) st (Redirect "themes" []) (write_flash env).
Proof.
  unfold add_theme_group.
  rewrite (handler_bind_run get_doc _ st (themesconfig st) st eq_refl).
  erewrite (handler_bind_run (put_doc _)); [|done].
  apply (saved_responds env st _ []). simpl. by rewrite app_nil_r.
Qed.

Lemma delete_theme_group_responds env st g k :
  py_index (groups (themesconfig st)) g = Some k ->
  responds (delete_theme_group env g st) st (Redirect "themes" [])
    (write_flash env).
Proof.
  intros Hk. unfold delete_theme_group.
  rewrite (handler_bind_run get_doc _ st (themesconfig st) st eq_refl).
  pose proof (py_index_Some _ _ _ Hk) as Hlt.
  destruct (lookup_lt_is_Some_2 _ _ Hlt) as [grp Hgrp].
  erewrite (handler_bind_run (lift _)); [|unfold lift, py_pop; by rewrite Hk, Hgrp].
  erewrite (handler_bind_run (put_doc _)); [|done].
  apply (saved_responds env st _ []). simpl. by rewrite app_nil_r.
Qed.

Lemma update_theme_group_responds env st title g k :
  py_index (groups (themesconfig st)) g = Some k ->
  responds (update_theme_group env title g st) st (Redirect "themes" [])
    (write_flash env).
Proof.
  intros Hk. unfold update_theme_group.
  rewrite (handler_bind_run get_doc _ st (themesconfig st) st eq_refl).
  pose proof (py_index_Some _ _ _ Hk) as Hlt.
  destruct (lookup_lt_is_Some_2 _ _ Hlt) as [grp Hgrp].
  erewrite (handler_bind_run (lift _));
    [|unfold lift, py_getitem; by rewrite Hk, Hgrp].
  erewrite (handler_bind_run (lift _)); [|unfold lift, py_setitem; by rewrite Hk].
  erewrite (handler_bind_run (put_doc _)); [|done].
  apply (saved_responds env st _ []). simpl. by rewrite app_nil_r.
Qed.

Lemma move_theme_group_request_responds env st g direction d' :
  move_theme_group g direction (themesconfig st) = Ok d' ->
  responds (move_theme_group_request env g direction st) st
    (Redirect "themes" []) (write_flash env).
Proof.
  intros Hmove. unfold move_theme_group_request.
  rewrite (handler_bind_run get_doc _ st (themesconfig st) st eq_refl).
  erewrite (handler_bind_run (lift _)); [|unfold lift; by rewrite Hmove].
  erewrite (handler_bind_run (put_doc _)); [|done].
  apply (saved_responds env st _ []). simpl. by rewrite app_nil_r.
Qed.

Lemma move_theme_request_responds env st direction tid gid d' :
  move_theme direction tid gid (themesconfig st) = Ok d' ->
  responds (move_theme_request env direction tid gid st) st
    (Redirect "themes" []) (write_flash env).
Proof.
  intros Hmove. unfold move_theme_request.
  rewrite (handler_bind_run get_doc _ st (themesconfig st) st eq_refl).
  erewrite (handler_bind_run (lift _)); [|unfold lift; by rewrite Hmove].
  erewrite (handler_bind_run (put_doc _)); [|done].
  apply (saved_responds env st _ []). simpl. by rewrite app_nil_r.
Qed.

Lemma delete_theme_responds env st tid gid l it url name :
  target_items gid (themesconfig st) = Ok l ->
  py_getitem l tid = Ok it ->
  dict_get "url" it = Some (VStr url) ->
  url_basename (VStr url) = Ok name ->
  match query_first (fun r => Resource.type r = "map" /\ Resource.name r = name)
                    (resources st) with
  | Some _ =>
      exists shown,
        responds (delete_theme env tid gid st) st (Redirect "themes" [])
          (commit_flash env ("could not delete resource map '" +:+ shown
                             +:+ "'. " +:+ continued)
           ++ write_flash env)
  | None =>
      responds (delete_theme env tid gid st) st (Redirect "themes" [])
        (write_flash env)
  end.
Proof.
  intros Hl Hit Hurl Hname.
  destruct (pop_theme_item_ok tid gid st l it url Hl Hit Hurl)
    as (name' & st1 & Hpop & Hname' & Hres & Hfl).
  assert (name' = name) as -> by congruence.
  unfold delete_theme. rewrite (handler_bind_run _ _ _ _ _ Hpop).
  rewrite (handler_bind_run get_resources _ st1 (resources st1) st1 eq_refl).
  rewrite Hres.
  destruct (query_first _ (resources st)) as [r|] eqn:Hq.
  - exists (Resource.name r).
    match goal with |- context [commit_or_flash env ?db _ _] =>
      destruct (commit_or_flash_flashes env db
                  ("could not delete resource map '" +:+ Resource.name r
                   +:+ "'. " +:+ continued) st1) as (st2 & Hcommit & Hdbf)
    end.
    rewrite (handler_bind_run _ _ _ _ _ Hcommit).
    apply saved_responds. by rewrite Hdbf, Hfl.
  - rewrite (handler_bind_run (mret tt) _ st1 tt st1 eq_refl).
    apply (saved_responds env st st1 []). by rewrite app_nil_r.
Qed.

Lemma find_theme_getitem tid gid d th :
  find_theme tid gid d = Some th ->
  exists l, target_items gid d = Ok l /\ py_getitem l tid = Ok th.
Proof.
  unfold find_theme, target_items. destruct gid as [g|].
  - destruct (decide (0 <= g)) as [Hg|]; [|done].
    destruct (groups d !! Z.to_nat g) as [grp|] eqn:Hgrp; [|done].
    destruct (decide (0 <= tid)) as [Ht|]; [|done]. intros Hth.
    apply lookup_py_getitem in Hgrp; [|done]. rewrite Hgrp. simpl.
    eexists; split; [done|]. by apply lookup_py_getitem.
  - destruct (decide (0 <= tid)) as [Ht|]; [|done]. intros Hth.
    eexists; split; [done|]. by apply lookup_py_getitem.
Qed.

Lemma replace_theme_item_ok item tid gid st l old url :
  target_items gid (themesconfig st) = Ok l ->
  py_getitem l tid = Ok old ->
  dict_get "url" old = Some (VStr url) ->
  exists st1,
    replace_theme_item item tid gid st = (Ok (VStr url), st1)
    /\ resources st1 = resources st /\ flashes st1 = flashes st.
Proof.
  intros Hl Hit Hurl. unfold replace_theme_item, target_items in *.
  unfold mbind at 1, handler_bind at 1, get_doc.
  destruct (py_getitem_Some _ _ _ Hit) as (k & Hk & Hlk).
  destruct gid as [g|].
  - apply result_bind_Ok in Hl as (grp & Hgrp & [= <-]).
    destruct (py_getitem_Some _ _ _ Hgrp) as (kg & Hkg & _).
    unfold mbind, handler_bind, lift, put_doc, mret, handler_ret.
    rewrite Hgrp, Hit. unfold dict_getitem. rewrite Hurl.
    unfold py_setitem. rewrite Hk, Hkg. simpl. eauto.
  - injection Hl as <-.
    unfold mbind, handler_bind, lift, put_doc, mret, handler_ret.
    rewrite Hit. unfold dict_getitem. rewrite Hurl.
    unfold py_setitem. rewrite Hk. simpl. eauto.
Qed.

(** The update of a theme that is found, has a key and a string for url,
    from a form whose lists parse: what the body of
    [create_or_update_theme] flashes. *)
Lemma create_or_update_theme_edit_flashes py_int env st form tid gid th url name
    item new_name :
  find_theme tid gid (themesconfig st) = Some th ->
  th <> [] ->
  dict_get "url" th = Some (VStr url) ->
  url_basename (VStr url) = Ok name ->
  build_item py_int form = Ok item ->
  url_basename (ThemeForm.url form) = Ok new_name ->
  exists st',
    create_or_update_theme py_int env (Some th) form tid gid st = (Ok tt, st')
    /\ flashes st'
       = flashes st
         ++ match query_first (fun r => Resource.name r = name) (resources st) with
            | Some _ =>
                commit_flash env ("Could not create resource f√ºr map '"
                                  +:+ new_name +:+ "'! " +:+ continued +:+ "    ")
            | None => []
            end
         ++ write_flash env.
Proof.
  intros Hfind Hth Hurl Hname Hitem Hnew.
  destruct (find_theme_getitem _ _ _ _ Hfind) as (l & Hl & Hget).
  destruct (replace_theme_item_ok item tid gid st l th url Hl Hget Hurl)
    as (st1 & Hreplace & Hres & Hfl).
  unfold create_or_update_theme.
  erewrite (handler_bind_run (lift _)); [|unfold lift; by rewrite Hitem].
  erewrite (handler_bind_run (lift _)); [|unfold lift; by rewrite Hnew].
  destruct th as [|kv th]; [done|].
  rewrite !handler_bind_assoc.
  rewrite (handler_bind_run _ _ _ _ _ Hreplace).
  rewrite !handler_bind_assoc.
  erewrite (handler_bind_run (lift _)); [|unfold lift; by rewrite Hname].
  rewrite !handler_bind_assoc.
  rewrite (handler_bind_run get_resources _ st1 (resources st1) st1 eq_refl).
  rewrite Hres.
  destruct (query_first _ (resources st)) as [r|] eqn:Hq.
  - match goal with |- context [commit_or_flash env ?db _ _] =>
      destruct (commit_or_flash_flashes env db
                  ("Could not create resource f√ºr map '" +:+ new_name
                   +:+ "'! " +:+ continued +:+ "    ") st1)
        as (st2 & Hcommit & Hdbf)
    end.
    rewrite (handler_bind_run _ _ _ _ _ Hcommit).
    destruct (save_themesconfig_flashes env st2) as (st' & Hsave & Hio).
    exists st'. split; [done|]. by rewrite Hio, Hdbf, Hfl, app_assoc.
  - rewrite (handler_bind_run (mret tt) _ st1 tt st1 eq_refl).
    destruct (save_themesconfig_flashes env st1) as (st' & Hsave & Hio).
    exists st'. split; [done|]. by rewrite Hio, Hfl.
Qed.

Lemma update_theme_responds py_int py_str env st request_form tid gid th url
    name item new_name :
  find_theme tid gid (themesconfig st) = Some th ->
  th <> [] ->
  dict_get "url" th = Some (VStr url) ->
  url_basename (VStr url) = Ok name ->
  build_item py_int request_form = Ok item ->
  url_basename (ThemeForm.url request_form) = Ok new_name ->
  match query_first (fun r => Resource.name r = name) (resources st) with
  | Some _ =>
      exists shown,
        responds (update_theme py_int py_str env request_form true tid gid st)
          st (Redirect "themes" [])
          (commit_flash env ("Could not create resource f√ºr map '" +:+ shown
                             +:+ "'! " +:+ continued +:+ "    ")
           ++ write_flash env
           ++ [("Updated theme " +:+ py_str (ThemeForm.title request_form)
                +:+ ".", "success")])
  | None =>
      responds (update_theme py_int py_str env request_form true tid gid st)
        st (Redirect "themes" [])
        (write_flash env
         ++ [("Updated theme " +:+ py_str (ThemeForm.title request_form)
              +:+ ".", "success")])
  end.
Proof.
  intros Hfind Hth Hurl Hname Hitem Hnew.
  destruct (create_or_update_theme_edit_flashes py_int env st request_form tid
              gid th url name item new_name Hfind Hth Hurl Hname Hitem Hnew)
    as (st1 & Hrun & Hfl).
  assert (update_theme py_int py_str env request_form true tid gid st
          = (Ok (Redirect "themes" []),
             (flash ("Updated theme " +:+ py_str (ThemeForm.title request_form)
                     +:+ ".") "success" st1).2)) as ->.
  { unfold update_theme.
    rewrite (handler_bind_run get_doc _ st (themesconfig st) st eq_refl).
    rewrite Hfind.
    rewrite (handler_bind_run (lift (create_form py_str request_form None)) _
               st request_form st eq_refl).
    by rewrite (handler_bind_run _ _ _ _ _ Hrun). }
  destruct (query_first _ (resources st)) as [r|].
  - exists new_name. eexists. split; [done|]. simpl.
    by rewrite Hfl, <- !app_assoc.
  - eexists. split; [done|]. simpl. by rewrite Hfl, <- !app_assoc.
Qed.

(** A form that does not validate is shown again, with a warning. *)
Lemma invalid_form_responds py_int py_str env st request_form tid gid th :
  responds (create_theme py_str request_form false gid st) st
    (Render "themes/form.html")
    [("could not create theme " +:+ py_str (ThemeForm.title request_form)
      +:+ ".", "warning")]
  /\ (find_theme tid gid (themesconfig st) = Some th ->
      responds (update_theme py_int py_str env request_form false tid gid st)
        st (Render "themes/form.html")
        [("could not update theme " +:+ py_str (ThemeForm.title request_form)
          +:+ ".", "warning")]).
Proof.
  split.
  - by eexists.
  - intros Hfind. unfold update_theme.
    rewrite (handler_bind_run get_doc _ st (themesconfig st) st eq_refl).
    rewrite Hfind. by eexists.
Qed.

Lemma import_maps_responds env st :
  (config_generator_service_url env = None ->
   responds (import_maps env st) st (Redirect "resources" [])
     [("Config generator URL is not defined", "error")])
  /\ (config_generator_service_url env <> None ->
      (forall e,
         service_get env "maps" = Unreachable e ->
         responds (import_maps env st) st (Redirect "resources" [])
           [("Could not import maps: " +:+ e, "error")])
      /\ (forall status body,
            service_get env "maps" = Reply status body ->
            status <> 200 ->
            responds (import_maps env st) st (Redirect "resources" [])
              [("Could not import maps: Status " +:+ pretty status, "error")])
      /\ (forall e,
            service_get env "maps" = Reply 200 (inl e) ->
            responds (import_maps env st) st (Redirect "resources" [])
              [("Could not import maps: " +:+ e, "error")])
      /\ (forall names,
            service_get env "maps" = Reply 200 (inr names) ->
            new_names names
              (map Resource.name
                 (filter (fun r => Resource.type r = "map") (resources st)))
            <> [] ->
            commit env <> Committed ->
            exists detail,
              responds (import_maps env st) st (Redirect "resources" [])
                [("Could not import maps: " +:+ detail, "error")]
              /\ resources (import_maps env st).2 = resources st)).
Proof.
  unfold import_maps. split.
  - intros ->. by eexists.
  - intros Hurl.
    destruct (config_generator_service_url env) as [u|]; [clear Hurl|done].
    split; [|split; [|split]].
    + intros e ->. by eexists.
    + intros status body -> Hs. rewrite decide_True by done. by eexists.
    + intros e ->. rewrite decide_False by (by intros []). by eexists.
    + intros names -> Hnew Hcommit. rewrite decide_False by (by intros []).
      rewrite (handler_bind_run get_resources _ st (resources st) st eq_refl).
      destruct (new_names _ _) as [|n ns]; [done|].
      destruct (commit env) as [|orig|orig]; [done| |];
        exists orig; (split; [by eexists|done]).
Qed.

Lemma import_children_responds env st id res :
  find_resource id (resources st) = Some res ->
  let back := Redirect "hierarchy_resource" [("id", pretty id)] in
  (config_generator_service_url env = None ->
   responds (import_children env id st) st back
     [("Config generator URL is not defined", "error")])
  /\ (config_generator_service_url env <> None ->
      Resource.type res = "map" ->
      (forall e,
         service_get env ("maps/" +:+ Resource.name res) = Unreachable e ->
         responds (import_children env id st) st back
           [("Could not import layers: " +:+ e, "error")])
      /\ (forall status body,
            service_get env ("maps/" +:+ Resource.name res) = Reply status body ->
            status <> 200 ->
            responds (import_children env id st) st back
              [("Could not import layers: Status " +:+ pretty status, "error")])
      /\ (forall e,
            service_get env ("maps/" +:+ Resource.name res) = Reply 200 (inl e) ->
            responds (import_children env id st) st back
              [("Could not import layers: " +:+ e, "error")])
      /\ (forall names,
            service_get env ("maps/" +:+ Resource.name res)
              = Reply 200 (inr names) ->
            new_names names
              (map Resource.name
                 (filter (fun r => Resource.type r = "layer"
                            /\ Resource.parent_id r = Some (Resource.id res))
                         (resources st)))
            <> [] ->
            commit env <> Committed ->
            exists detail,
              responds (import_children env id st) st back
                [("Could not import layers: " +:+ detail, "error")]
              /\ resources (import_children env id st).2 = resources st)).
Proof.
  intros Hfind back. subst back. unfold import_children.
  rewrite (handler_bind_run get_resources _ st (resources st) st eq_refl).
  rewrite Hfind. split.
  - intros ->. by eexists.
  - intros Hurl Hmap.
    destruct (config_generator_service_url env) as [u|]; [clear Hurl|done].
    rewrite decide_True by done. unfold import_layers.
    split; [|split; [|split]].
    + intros e ->. by eexists.
    + intros status body -> Hs. rewrite decide_True by done. by eexists.
    + intros e ->. rewrite decide_False by (by intros []). by eexists.
    + intros names -> Hnew Hcommit. rewrite decide_False by (by intros []).
      destruct names as [|n0 names].
      { by rewrite new_names_nil in Hnew. }
      rewrite !handler_bind_assoc.
      rewrite (handler_bind_run get_resources _ st (resources st) st eq_refl).
      destruct (new_names _ _) as [|n ns]; [done|].
      destruct (commit env) as [|orig|orig]; [done| |];
        exists orig; (split; [by eexists|done]).
Qed.

Lemma edit_theme_missing py_str request_form tid gid st :
  find_theme tid gid (themesconfig st) = None ->
  edit_theme py_str request_form tid gid st = (Raise (HTTPAbort 404), st).
Proof.
  intros Hfind. unfold edit_theme.
  rewrite (handler_bind_run get_doc _ st (themesconfig st) st eq_refl).
  by rewrite Hfind.
Qed.

Lemma update_theme_missing py_int py_str env request_form valid tid gid st :
  find_theme tid gid (themesconfig st) = None ->
  update_theme py_int py_str env request_form valid tid gid st
    = (Raise (HTTPAbort 404), st).
Proof.
  intros Hfind. unfold update_theme.
  rewrite (handler_bind_run get_doc _ st (themesconfig st) st eq_refl).
  by rewrite Hfind.
Qed.

Lemma resource_missing env depth_limit id st :
  find_resource id (resources st) = None ->
  import_children env id st = (Raise (HTTPAbort 404), st)
  /\ destroy_casacaded env depth_limit "DELETE" id st
     = (Raise (HTTPAbort 404), st).
Proof.
  intros Hfind. unfold import_children, destroy_casacaded.
  rewrite decide_False by (by intros []).
  rewrite !(handler_bind_run get_resources _ st (resources st) st eq_refl).
  by rewrite Hfind.
Qed.

(** An index past the list is not caught. *)
Lemma group_index_missing env title tid g st :
  py_index (groups (themesconfig st)) g = None ->
  delete_theme_group env g st = (Raise IndexError, st)
  /\ update_theme_group env title g st = (Raise IndexError, st)
  /\ delete_theme env tid (Some g) st = (Raise IndexError, st).
Proof.
  intros Hg.
  unfold delete_theme_group, update_theme_group, delete_theme, pop_theme_item.
  unfold mbind, handler_bind, get_doc, lift, py_pop, py_getitem.
  by rewrite Hg.
Qed.

Lemma item_index_missing env tid gid l st :
  target_items gid (themesconfig st) = Ok l ->
  py_index l tid = None ->
  delete_theme env tid gid st = (Raise IndexError, st).
Proof.
  intros Hl Htid. unfold delete_theme, pop_theme_item, target_items in *.
  destruct gid as [g|].
  - apply result_bind_Ok in Hl as (grp & Hgrp & [= <-]).
    unfold mbind, handler_bind, get_doc, lift. rewrite Hgrp.
    unfold py_getitem. by rewrite Htid.
  - injection Hl as <-. unfold mbind, handler_bind, get_doc, lift, py_getitem.
    by rewrite Htid.
Qed.

(** The cascade delete of a resource that is found: whatever is raised
    inside its [try] ends with a NameError. *)
Lemma destroy_casacaded_raises env depth_limit id st res :
  find_resource id (resources st) = Some res ->
  commit env <> Committed
  \/ (exists e,
        destroy_resource_cascaded depth_limit (resources st) res [] = Raise e) ->
  destroy_casacaded env depth_limit "DELETE" id st = (Raise NameError, st).
Proof.
  intros Hfind Hfail. unfold destroy_casacaded.
  rewrite decide_False by (by intros []).
  rewrite (handler_bind_run get_resources _ st (resources st) st eq_refl).
  rewrite Hfind.
  destruct (destroy_resource_cascaded _ _ _ _) as [session|e]; [|done].
  destruct Hfail as [Hcommit|[e He]]; [|done].
  by destruct (commit env).
Qed.




(** ** Resource trees *)

Lemma query_first_Some (P : Resource.t -> Prop) `{forall r, Decision (P r)}
    (db : list Resource.t) (r : Resource.t) :
  query_first P db = Some r -> P r /\ r ∈ db.
Proof.
  unfold query_first. intros Hhead.
  apply (list_elem_of_filter P). destruct (filter P db); simplify_eq/=. left.
Qed.

Lemma find_resource_Some id db r :
  find_resource id db = Some r -> Resource.id r = id /\ r ∈ db.
Proof. apply query_first_Some. Qed.

Lemma elem_of_children db r c :
  c ∈ children db r <-> c ∈ db /\ Resource.parent_id c = Some (Resource.id r).
Proof. unfold children. rewrite list_elem_of_filter. tauto. Qed.

Lemma children_is_child db r c :
  r ∈ db -> c ∈ children db r <-> is_child db r c.
Proof. intros Hr. rewrite elem_of_children. unfold is_child. tauto. Qed.

Lemma elem_of_concat {A} (x : A) (ls : list (list A)) :
  x ∈ concat ls <-> exists l, x ∈ l /\ l ∈ ls.
Proof.
  induction ls as [|l ls IH]; simpl.
  - split; [by intros ?%elem_of_nil|by intros (? & _ & ?%elem_of_nil)].
  - rewrite elem_of_app, IH. split.
    + intros [?|(l' & ? & ?)]; [exists l|exists l']; split; try done;
        [left|by right].
    + intros (l' & Hx & [->|?]%elem_of_cons); eauto.
Qed.

Lemma elem_of_map {A B} (f : A -> B) (l : list A) (y : B) :
  y ∈ map f l <-> exists x, y = f x /\ x ∈ l.
Proof.
  induction l as [|a l IH]; simpl.
  - split; [by intros ?%elem_of_nil|by intros (? & _ & ?%elem_of_nil)].
  - rewrite elem_of_cons, IH. split.
    + intros [->|(x & -> & ?)]; [exists a|exists x]; split; try done;
        [left|by right].
    + intros (x & -> & [->|?]%elem_of_cons); eauto.
Qed.

Section Forest.
Context {db : list Resource.t} {level : Z -> nat} {bound : nat}.
Context (Hforest : forest db level bound).

Lemma same_id_same_row (a b : Resource.t) :
  a ∈ db -> b ∈ db -> Resource.id a = Resource.id b -> a = b.
Proof.
  intros Ha Hb Hid.
  apply list_elem_of_lookup in Ha as [i Hi], Hb as [j Hj].
  assert (i = j) as ->.
  { eapply NoDup_lookup; [apply (forest_ids _ _ _ Hforest)| |];
      rewrite list_lookup_fmap; [by rewrite Hi|by rewrite Hj, Hid]. }
  congruence.
Qed.

Lemma descendant_level (a x : Resource.t) :
  descendant db a x -> (level (Resource.id a) < level (Resource.id x))%nat.
Proof.
  induction 1 as [a x Hax|a c x Hac _ IH].
  - by apply (forest_level _ _ _ Hforest).
  - pose proof (forest_level _ _ _ Hforest _ _ Hac). lia.
Qed.

Lemma descendant_irrefl (a : Resource.t) : ~ descendant db a a.
Proof. intros H%descendant_level. lia. Qed.

Lemma descendant_in_db (a x : Resource.t) : descendant db a x -> x ∈ db.
Proof. induction 1 as [a x (_ & Hx & _)|]; done. Qed.

(** The session of a cascade delete is the subtree in post-order. *)
Lemma destroy_resource_cascaded_post_order (n : nat) (r : Resource.t)
    (session : list Resource.t) :
  r ∈ db -> (bound < level (Resource.id r) + n)%nat ->
  destroy_resource_cascaded n db r session = Ok (session ++ post_order n db r).
Proof.
  revert r session. induction n as [|n IH]; intros r session Hr Hn.
  { pose proof (forest_bound _ _ _ Hforest r Hr). lia. }
  simpl.
  assert (forall cs s,
            (forall c, c ∈ cs -> is_child db r c) ->
            foldl (fun acc child =>
                     session ← acc; destroy_resource_cascaded n db child session)
                  (Ok s) cs
            = Ok (s ++ concat (map (post_order n db) cs))) as Hfold.
  { induction cs as [|c cs IHcs]; intros s Hcs; simpl.
    - by rewrite app_nil_r.
    - assert (is_child db r c) as Hc by (apply Hcs; left).
      pose proof (forest_level _ _ _ Hforest _ _ Hc).
      rewrite IH; [|by destruct Hc as (_ & ? & _)|lia].
      rewrite IHcs; [by rewrite app_assoc|].
      intros c' Hc'. apply Hcs. by right. }
  rewrite Hfold; [by rewrite app_assoc|].
  intros c Hc. by apply children_is_child.
Qed.

(** The rows of the subtree: the resource and its descendants. *)
Lemma elem_of_post_order (n : nat) (r x : Resource.t) :
  r ∈ db -> (bound < level (Resource.id r) + n)%nat ->
  x ∈ post_order n db r <-> x = r \/ descendant db r x.
Proof.
  revert r x. induction n as [|n IH]; intros r x Hr Hn.
  { pose proof (forest_bound _ _ _ Hforest r Hr). lia. }
  simpl. rewrite elem_of_app, list_elem_of_singleton.
  assert (x ∈ concat (map (post_order n db) (children db r))
          <-> descendant db r x) as ->; [|tauto].
  rewrite elem_of_concat. split.
  - intros (l & Hx & Hl). apply elem_of_map in Hl as (c & -> & Hc).
    apply children_is_child in Hc; [|done].
    pose proof (forest_level _ _ _ Hforest _ _ Hc).
    apply IH in Hx as [->|Hx]; [by apply tc_once| |by destruct Hc as (_ & ? & _)|lia].
    by eapply tc_l.
  - intros Hdesc.
    assert (exists c, is_child db r c /\ (x = c \/ descendant db c x))
      as (c & Hc & Hx).
    { inversion Hdesc; subst; eauto. }
    pose proof (forest_level _ _ _ Hforest _ _ Hc).
    exists (post_order n db c). split.
    + apply IH; [by destruct Hc as (_ & ? & _)|lia|done].
    + apply elem_of_map. exists c. split; [done|].
      by apply children_is_child.
Qed.

Lemma children_first_app (l1 l2 : list Resource.t) :
  children_first db l1 -> children_first db l2 -> children_first db (l1 ++ l2).
Proof.
  intros H1 H2 i p c Hi Hc. destruct (decide (i < length l1)%nat) as [Hlt|Hge].
  - rewrite lookup_app_l in Hi by done.
    destruct (H1 i p c Hi Hc) as (j & Hj & Hlj).
    exists j. split; [done|]. rewrite lookup_app_l; [done|lia].
  - rewrite lookup_app_r in Hi by lia.
    destruct (H2 _ p c Hi Hc) as (j & Hj & Hlj).
    exists (length l1 + j)%nat. split; [lia|].
    rewrite lookup_app_r by lia.
    by replace (length l1 + j - length l1)%nat with j by lia.
Qed.

Lemma children_first_concat (ls : list (list Resource.t)) :
  Forall (children_first db) ls -> children_first db (concat ls).
Proof.
  induction 1 as [|l ls Hl _ IH]; simpl.
  - by intros i p c ?.
  - by apply children_first_app.
Qed.

Lemma post_order_last (n : nat) (r : Resource.t) :
  (0 < n)%nat -> last (post_order n db r) = Some r.
Proof. destruct n; [lia|]. intros _. simpl. apply last_snoc. Qed.

Lemma children_first_post_order (n : nat) (r : Resource.t) :
  r ∈ db -> (bound < level (Resource.id r) + n)%nat ->
  children_first db (post_order n db r).
Proof.
  revert r. induction n as [|n IH]; intros r Hr Hn.
  { by intros i p c ?. }
  simpl. intros i p c Hi Hc.
  set (subs := concat (map (post_order n db) (children db r))) in *.
  assert (children_first db subs) as Hsubs.
  { apply children_first_concat, Forall_forall. intros l Hl.
    apply elem_of_map in Hl as (c' & -> & Hc').
    apply children_is_child in Hc'; [|done].
    pose proof (forest_level _ _ _ Hforest _ _ Hc').
    apply IH; [by destruct Hc' as (_ & ? & _)|lia]. }
  destruct (decide (i < length subs)%nat) as [Hlt|Hge].
  - rewrite lookup_app_l in Hi by done.
    destruct (Hsubs i p c Hi Hc) as (j & Hj & Hlj).
    exists j. split; [done|]. rewrite lookup_app_l; [done|lia].
  - rewrite lookup_app_r in Hi by lia.
    apply list_lookup_singleton_Some in Hi as [Hi ->].
    assert (c ∈ subs) as Hin.
    { apply elem_of_concat. exists (post_order n db c). split.
      - pose proof (forest_level _ _ _ Hforest _ _ Hc).
        apply elem_of_post_order; [by destruct Hc as (_ & ? & _)|lia|by left].
      - apply elem_of_map. exists c. split; [done|].
        by apply children_is_child. }
    apply list_elem_of_lookup in Hin as [j Hj].
    exists j. split; [|by rewrite lookup_app_l by (by eapply lookup_lt_Some)].
    apply lookup_lt_Some in Hj. lia.
Qed.

(** The rows the commit deletes are the rows of the session. *)
Lemma elem_of_delete_rows (session : list Resource.t) (r : Resource.t) :
  (forall x, x ∈ session -> x ∈ db) ->
  r ∈ delete_rows session db <-> r ∈ db /\ r ∉ session.
Proof.
  intros Hsub. unfold delete_rows. rewrite list_elem_of_filter. split.
  - intros [Hid Hr]. split; [done|]. intros Hin. apply Hid.
    apply elem_of_map. eauto.
  - intros [Hr Hnot]. split; [|done]. intros Hid.
    apply elem_of_map in Hid as (x & Hid & Hx).
    apply Hnot. by rewrite (same_id_same_row r x Hr (Hsub x Hx) Hid).
Qed.
End Forest.

Lemma destroy_casacaded_committed env depth_limit id st target session :
  find_resource id (resources st) = Some target ->
  destroy_resource_cascaded depth_limit (resources st) target [] = Ok session ->
  commit env = Committed ->
  exists response st',
    destroy_casacaded env depth_limit "DELETE" id st = (Ok response, st')
    /\ resources st' = delete_rows session (resources st).
Proof.
  intros Hfind Hsession Hcommit. unfold destroy_casacaded.
  destruct (decide ("DELETE" <> "DELETE")) as [|_]; [done|].
  rewrite (handler_bind_run get_resources _ st (resources st) st eq_refl).
  rewrite Hfind, Hsession, Hcommit. unfold mbind, handler_bind, put_resources, flash.
  destruct (Resource.parent_id target) as [p|]; [destruct (decide (p = 0))|];
    by eexists _, _.
Qed.

(** C2: in a table that holds a forest, the cascade delete of a resource
    that is present, once committed, marks for deletion that resource and
    every descendant of it and nothing else, every child before its
    parent and the resource itself last (depth first); the rows that are
    neither the resource nor a descendant of it stay in the table as they
    were, in their order. *)
Theorem cascade_delete_removes_subtree (env : environment) (depth_limit : nat)
    (id : Z) (st : app_state) (level : Z -> nat) (bound : nat)
    (target : Resource.t) :
  forest (resources st) level bound ->
  find_resource id (resources st) = Some target ->
  commit env = Committed ->
  (bound < depth_limit)%nat ->
  exists session response st',
    destroy_resource_cascaded depth_limit (resources st) target [] = Ok session
    /\ destroy_casacaded env depth_limit "DELETE" id st = (Ok response, st')
    /\ (forall r, r ∈ session
                  <-> r = target \/ descendant (resources st) target r)
    /\ last session = Some target
    /\ children_first (resources st) session
    /\ resources st' `sublist_of` resources st
    /\ (forall r, r ∈ resources st'
                  <-> r ∈ resources st /\ r <> target
                      /\ ~ descendant (resources st) target r).
Proof.
  intros Hforest Hfind Hcommit Hlimit.
  destruct (find_resource_Some _ _ _ Hfind) as [_ Htarget].
  assert (bound < level (Resource.id target) + depth_limit)%nat as Hn by lia.
  pose proof (destroy_resource_cascaded_post_order Hforest depth_limit target []
                Htarget Hn) as Hsession.
  simpl in Hsession.
  destruct (destroy_casacaded_committed env depth_limit id st target _ Hfind
              Hsession Hcommit) as (response & st' & Hrun & Hres).
  exists (post_order depth_limit (resources st) target), response, st'.
  pose proof (elem_of_post_order Hforest depth_limit target) as Hin.
  split; [done|]. split; [done|]. split; [by intros r; apply Hin|].
  split; [apply post_order_last; lia|].
  split; [by apply (children_first_post_order Hforest)|].
  rewrite Hres. split; [apply sublist_filter|].
  intros r. rewrite (elem_of_delete_rows Hforest).
  - rewrite (Hin r Htarget Hn). tauto.
  - intros x [->|Hx]%Hin; [done|by eapply descendant_in_db|done..].
Qed.

Lemma sample_forest : forest sample_resources sample_level 2.
Proof.
  split.
  - apply (bool_decide_unpack _). vm_compute. reflexivity.
  - intros p c (Hp & Hc & Hparent). unfold sample_resources in *.
    set_unfold. destruct_or!; subst; simpl in *; simplify_eq; vm_compute; lia.
  - intros r Hr. unfold sample_resources in *.
    set_unfold. destruct_or!; subst; vm_compute; lia.
Defined.

Lemma cascade_delete_removes_subtree_witness :
  exists session response st',
    destroy_casacaded sample_env 10 "DELETE" 1 sample_state = (Ok response, st')
    /\ last session = Some (Resource.mk 1 "map" "city" None)
    /\ resources st' `sublist_of` sample_resources.
Proof.
  destruct (cascade_delete_removes_subtree sample_env 10 1 sample_state
              sample_level 2 (Resource.mk 1 "map" "city" None) sample_forest)
    as (session & response & st' & _ & Hrun & _ & Hlast & _ & Hsub & _);
    [reflexivity|reflexivity|lia|].
  by exists session, response, st'.
Defined.

(** ** The order of the rows of a query *)

Lemma ordering_Z {A} (f : A -> Z) : ordering (fun a b => Z.compare (f a) (f b)).
Proof.
  split.
  - intros a b. apply Z.compare_antisym.
  - intros a b c Hab. apply Z.compare_eq in Hab. by rewrite Hab.
  - intros a b c. rewrite !Z.compare_lt_iff. lia.
Qed.

Lemma ordering_string {A} (f : A -> string) :
  ordering (fun a b => String.compare (f a) (f b)).
Proof.
  split.
  - intros a b. apply String.compare_antisym.
  - intros a b c Hab. apply String.compare_eq_iff in Hab. by rewrite Hab.
  - intros a b c. apply string_compare_trans.
Qed.

Lemma ordering_opp {A} (cmp : A -> A -> comparison) :
  ordering cmp -> ordering (fun a b => CompOpp (cmp a b)).
Proof.
  intros [Hanti Heq Hlt]. split.
  - intros a b. by rewrite (Hanti a b).
  - intros a b c Hab. f_equal. apply Heq. by destruct (cmp a b).
  - intros a b c Hab Hbc.
    rewrite (Hanti c a). rewrite (Hanti b a) in Hab. rewrite (Hanti c b) in Hbc.
    rewrite CompOpp_involutive in *.
    assert (cmp c b = Lt) as Hcb by (by destruct (cmp c b)).
    assert (cmp b a = Lt) as Hba by (by destruct (cmp b a)).
    by rewrite (Hlt c b a Hcb Hba).
Qed.

Lemma ordering_lex {A} (cmp1 cmp2 : A -> A -> comparison) :
  ordering cmp1 -> ordering cmp2 ->
  ordering (fun a b => match cmp1 a b with Eq => cmp2 a b | o => o end).
Proof.
  intros [Hanti1 Heq1 Hlt1] [Hanti2 Heq2 Hlt2]. split.
  - intros a b. rewrite (Hanti1 a b), (Hanti2 a b). by destruct (cmp1 a b).
  - intros a b c Hab. destruct (cmp1 a b) eqn:E1; try done.
    rewrite (Heq1 a b c E1). destruct (cmp1 b c); [by apply Heq2|done..].
  - intros a b c Hab Hbc.
    destruct (cmp1 a b) eqn:E1; [|clear Hab|done].
    + rewrite (Heq1 a b c E1). destruct (cmp1 b c); [by eapply Hlt2|done..].
    + destruct (cmp1 b c) eqn:E2; [|by rewrite (Hlt1 a b c)|done].
      assert (cmp1 c b = Eq) as E3 by (by rewrite (Hanti1 b c), E2).
      assert (cmp1 a c = cmp1 a b) as ->; [|by rewrite E1].
      rewrite (Hanti1 c a), (Hanti1 b a). f_equal. by apply Heq1.
Qed.

Lemma ordering_column (c : column) : ordering (column_compare c).
Proof.
  destruct c; first [apply (ordering_Z (fun a : row => _))
                    |apply (ordering_string (fun a : row => _))].
Qed.

Lemma ordering_rows (order_by : list (column * bool)) :
  ordering (rows_compare order_by).
Proof.
  induction order_by as [|[c desc] rest IH]; simpl.
  - by split.
  - destruct desc.
    + apply (ordering_lex _ _ (ordering_opp _ (ordering_column c)) IH).
    + apply (ordering_lex _ _ (ordering_column c) IH).
Qed.

#[global] Instance rows_le_total order_by : Total (rows_le order_by).
Proof.
  intros a b. unfold rows_le.
  rewrite (ordering_antisym _ (ordering_rows order_by) a b).
  destruct (rows_compare order_by a b); [left|left|right]; done.
Qed.

#[global] Instance rows_le_trans order_by : Transitive (rows_le order_by).
Proof.
  intros a b c. unfold rows_le. intros Hab Hbc.
  pose proof (ordering_rows order_by) as [Hanti Heq Hlt].
  destruct (rows_compare order_by a b) eqn:Eab; [| |done].
  - by rewrite (Heq a b c Eab).
  - destruct (rows_compare order_by b c) eqn:Ebc; [| |done].
    + assert (rows_compare order_by a c = rows_compare order_by a b) as ->;
        [|by rewrite Eab].
      rewrite (Hanti c a), (Hanti b a). f_equal. apply Heq.
      by rewrite (Hanti b c), Ebc.
    + by rewrite (Hlt a b c Eab Ebc).
Qed.

(** ** The sorted children of a resource *)

Lemma elem_of_join_types rs ts (q : row) :
  q ∈ join_types rs ts
  <-> q.1 ∈ rs /\ q.2 ∈ ts /\ ResourceType.name q.2 = Resource.type q.1.
Proof.
  unfold join_types. rewrite list_elem_of_bind. split.
  - intros (r & Hq & Hr). apply list_elem_of_bind in Hq as (t & Hq & Ht).
    apply list_elem_of_singleton in Hq as ->.
    apply list_elem_of_filter in Ht as [? ?]. done.
  - intros (Hr & Ht & Hname). exists q.1. split; [|done].
    apply list_elem_of_bind. exists q.2. split.
    + destruct q. apply list_elem_of_singleton. done.
    + by apply list_elem_of_filter.
Qed.

Lemma filter_unique_name ts ty :
  NoDup (map ResourceType.name ts) -> ty ∈ map ResourceType.name ts ->
  exists t, filter (fun t => ResourceType.name t = ty) ts = [t]
            /\ ResourceType.name t = ty.
Proof.
  induction ts as [|t ts IH]; simpl; intros Hnd Hin.
  { by apply elem_of_nil in Hin. }
  apply NoDup_cons in Hnd as [Hnot Hnd].
  destruct (decide (ResourceType.name t = ty)) as [Heq|Hne].
  - exists t. rewrite filter_cons_True by done. split; [|done]. f_equal.
    apply elem_of_nil_inv. intros x Hx.
    apply list_elem_of_filter in Hx as [Hx1 Hx2]. apply Hnot.
    rewrite Heq, <- Hx1. apply elem_of_map. eauto.
  - rewrite filter_cons_False by done. apply IH; [done|].
    apply elem_of_cons in Hin as [Hin|Hin]; [by rewrite Hin in Hne|done].
Qed.

Section SortedChildren.
Context {st : app_state} (Htypes : types_ok st).

Lemma type_row_Some (r : Resource.t) :
  r ∈ resources st ->
  exists t, type_row st r = Some t
            /\ filter (fun t => ResourceType.name t = Resource.type r)
                      (resource_types st) = [t].
Proof.
  intros Hr. destruct Htypes as [Hnd Hfk].
  destruct (filter_unique_name _ _ Hnd (Hfk r Hr)) as (t & Ht & _).
  exists t. unfold type_row. by rewrite Ht.
Qed.

Lemma join_types_type_row (q : row) :
  q ∈ join_types (resources st) (resource_types st) ->
  type_row st q.1 = Some q.2.
Proof.
  intros (Hr & Ht & Hname)%elem_of_join_types.
  destruct (type_row_Some q.1 Hr) as (t & -> & Hfilter).
  assert (q.2 ∈ [t]) as ->%list_elem_of_singleton; [|done].
  rewrite <- Hfilter. by apply list_elem_of_filter.
Qed.

Lemma join_types_fst (rs : list Resource.t) :
  (forall r, r ∈ rs -> r ∈ resources st) ->
  map fst (join_types rs (resource_types st)) = rs.
Proof.
  induction rs as [|r rs IH]; intros Hrs; [done|].
  unfold join_types in *. rewrite bind_cons, map_app, IH.
  - destruct (type_row_Some r) as (t & _ & ->); [apply Hrs; left|]. done.
  - intros r' Hr'. apply Hrs. by right.
Qed.
End SortedChildren.

Lemma map_fst_filter {A B} (P : A -> Prop) (Q : A * B -> Prop)
    `{forall x, Decision (P x)} `{forall q, Decision (Q q)} (l : list (A * B)) :
  (forall q, Q q <-> P q.1) ->
  map fst (filter Q l) = filter P (map fst l).
Proof.
  intros HQ. induction l as [|[a b] l IH]; [done|]. simpl.
  rewrite !filter_cons. destruct (decide (Q (a, b))) as [Hq|Hq];
    destruct (decide (P a)) as [Hp|Hp]; simpl; rewrite ?IH; try done.
  - by apply HQ in Hq.
  - by apply (HQ (a, b)) in Hp.
Qed.

Lemma StronglySorted_filter {A} (R : relation A) (P : A -> Prop)
    `{forall x, Decision (P x)} (l : list A) :
  StronglySorted R l -> StronglySorted R (filter P l).
Proof.
  induction 1 as [|x l _ IH Hx]; [constructor|].
  rewrite filter_cons. destruct (decide (P x)); [|done].
  constructor; [done|]. apply Forall_forall. intros y Hy.
  apply list_elem_of_filter in Hy as [_ Hy].
  by eapply Forall_forall in Hx.
Qed.

Lemma StronglySorted_map {A B} (R : relation A) (R' : relation B) (f : A -> B)
    (l : list A) :
  (forall x y, x ∈ l -> y ∈ l -> R x y -> R' (f x) (f y)) ->
  StronglySorted R l -> StronglySorted R' (map f l).
Proof.
  intros Hf Hl. induction Hl as [|x l _ IH Hx]; simpl; [constructor|].
  constructor.
  - apply IH. intros a b Ha Hb. apply Hf; by right.
  - apply Forall_forall. intros y Hy. apply elem_of_map in Hy as (z & -> & Hz).
    apply Hf; [left|by right|]. by eapply Forall_forall in Hx.
Qed.

Section SortedChildrenOrder.
Context {st : app_state} (Htypes : types_ok st).

Lemma sorted_children_Permutation (r : Resource.t) :
  sorted_children st r ≡ₚ children (resources st) r.
Proof.
  unfold sorted_children, order_rows, children.
  rewrite (map_fst_filter
             (fun c => Resource.parent_id c = Some (Resource.id r))
             (fun q : row => Resource.parent_id q.1 = Some (Resource.id r)))
    by done.
  rewrite <- (join_types_fst Htypes (resources st)) at 2 by done.
  apply filter_Permutation. change (map fst ?l) with (fst <$> l).
  apply fmap_Permutation, merge_sort_Permutation.
Qed.

Lemma elem_of_sorted_children (r c : Resource.t) :
  c ∈ sorted_children st r
  <-> c ∈ resources st /\ Resource.parent_id c = Some (Resource.id r).
Proof. rewrite sorted_children_Permutation. apply elem_of_children. Qed.

Lemma sorted_children_sorted (r : Resource.t) :
  StronglySorted (sibling_le default_order st) (sorted_children st r).
Proof.
  unfold sorted_children.
  eapply StronglySorted_map;
    [|apply StronglySorted_filter, StronglySorted_merge_sort; apply _].
  intros x y Hx Hy Hle.
  apply list_elem_of_filter in Hx as [_ Hx], Hy as [_ Hy].
  unfold order_rows in Hx, Hy. rewrite merge_sort_Permutation in Hx, Hy.
  unfold sibling_le.
  rewrite (join_types_type_row Htypes x Hx), (join_types_type_row Htypes y Hy).
  by destruct x, y.
Qed.
End SortedChildrenOrder.

(** ** Trees in the resources table *)

Section Hierarchy.
Context {db : list Resource.t} {level : Z -> nat} {bound : nat}.
Context (Hforest : forest db level bound).

Lemma find_resource_elem_of (r : Resource.t) :
  r ∈ db -> find_resource (Resource.id r) db = Some r.
Proof.
  intros Hr. unfold find_resource.
  destruct (query_first (fun r0 => Resource.id r0 = Resource.id r) db)
    as [r'|] eqn:Hq.
  - apply query_first_Some in Hq as [Hid Hr'].
    by rewrite (same_id_same_row Hforest r' r Hr' Hr Hid).
  - unfold query_first in Hq.
    assert (r ∈ filter (fun r0 => Resource.id r0 = Resource.id r) db) as Hin
      by (by apply list_elem_of_filter).
    destruct (filter _ db); [by apply elem_of_nil in Hin|done].
Qed.

Lemma parent_is_child (p c : Resource.t) :
  c ∈ db -> parent db c = Some p <-> is_child db p c.
Proof.
  intros Hc. unfold parent, is_child. split.
  - destruct (Resource.parent_id c) as [pid|]; [|done].
    intros [<- Hp]%find_resource_Some. done.
  - intros (Hp & _ & ->). by apply find_resource_elem_of.
Qed.

Lemma is_child_parent_unique (p p' c : Resource.t) :
  is_child db p c -> is_child db p' c -> p = p'.
Proof.
  intros (Hp & _ & Hid) (Hp' & _ & Hid').
  apply (same_id_same_row Hforest); congruence.
Qed.

(** The parent of a descendant is in the subtree. *)
Lemma descendant_parent (a x p : Resource.t) :
  descendant db a x -> is_child db p x -> rtc (is_child db) a p.
Proof.
  intros Hdesc Hp.
  assert (exists p', rtc (is_child db) a p' /\ is_child db p' x) as (p' & Ha & Hp').
  { clear Hp. induction Hdesc as [a x Hax|a c x Hac _ (p' & Hcp & Hpx)].
    - by exists a.
    - exists p'. split; [by eapply rtc_l|done]. }
  by rewrite (is_child_parent_unique p p' x).
Qed.

(** Two ancestors of a resource are on one line. *)
Lemma ancestors_linear (a b x : Resource.t) :
  rtc (is_child db) a x -> rtc (is_child db) b x ->
  rtc (is_child db) a b \/ rtc (is_child db) b a.
Proof.
  intros Ha. revert b. revert x Ha.
  apply (rtc_ind_r (fun x => forall b, rtc (is_child db) b x ->
                      rtc (is_child db) a b \/ rtc (is_child db) b a) a);
    [by right|].
  intros y x Hay Hyx IH b Hb.
  apply rtc_inv_r in Hb as [->|(y' & Hby' & Hy'x)].
  - left. by eapply rtc_r.
  - rewrite (is_child_parent_unique y' y x Hy'x Hyx) in Hby'. by apply IH.
Qed.

Lemma rtc_descendant (a x : Resource.t) :
  rtc (is_child db) a x <-> a = x \/ descendant db a x.
Proof. apply rtc_tc. Qed.

(** The subtrees of two children of one resource do not meet. *)
Lemma subtrees_disjoint (r c1 c2 x : Resource.t) :
  is_child db r c1 -> is_child db r c2 ->
  rtc (is_child db) c1 x -> rtc (is_child db) c2 x -> c1 = c2.
Proof.
  intros H1 H2 Hx1 Hx2.
  assert (forall a b, is_child db r a -> is_child db r b ->
                      rtc (is_child db) a b -> a = b) as Hline.
  { intros a b Ha Hb [->|Hab]%rtc_descendant; [done|].
    pose proof (descendant_parent a b r Hab Hb) as Har.
    destruct (descendant_irrefl Hforest r).
    eapply tc_rtc_r; [apply tc_once; exact Ha|exact Har]. }
  destruct (ancestors_linear c1 c2 x Hx1 Hx2); [|symmetry]; by apply Hline.
Qed.

(** *** The root *)

Lemma find_root_enough (n : nat) (x : Resource.t) :
  x ∈ db -> (level (Resource.id x) <= n)%nat ->
  exists root, find_root n db x = Some root
               /\ parent db root = None /\ rtc (is_child db) root x.
Proof.
  revert x. induction n as [|n IH]; intros x Hx Hn.
  - simpl. destruct (parent db x) as [p|] eqn:Hp; [|by exists x].
    apply parent_is_child in Hp; [|done].
    pose proof (forest_level _ _ _ Hforest _ _ Hp). lia.
  - simpl. destruct (parent db x) as [p|] eqn:Hp; [|by exists x].
    apply parent_is_child in Hp; [|done].
    pose proof (forest_level _ _ _ Hforest _ _ Hp).
    destruct (IH p) as (root & Hroot & Hnone & Hrtc);
      [by destruct Hp|lia|].
    exists root. split; [done|]. split; [done|]. by eapply rtc_r.
Qed.

Lemma find_root_fuel (n m : nat) (x r r' : Resource.t) :
  find_root n db x = Some r -> find_root m db x = Some r' -> r = r'.
Proof.
  revert m x. induction n as [|n IH]; intros [|m] x; simpl;
    destruct (parent db x); try congruence. apply IH.
Qed.

Lemma find_root_child (n : nat) (p c : Resource.t) :
  (bound <= n)%nat -> is_child db p c ->
  find_root n db c = find_root n db p.
Proof.
  intros Hn Hc. pose proof Hc as (Hp & Hc' & _).
  pose proof (forest_level _ _ _ Hforest _ _ Hc).
  pose proof (forest_bound _ _ _ Hforest c Hc').
  destruct n as [|n]; [lia|].
  destruct (find_root_enough (S n) p Hp) as (r & Hr & _); [lia|].
  destruct (find_root_enough n p Hp) as (r' & Hr' & _); [lia|].
  rewrite Hr. simpl. apply parent_is_child in Hc; [|done]. rewrite Hc, Hr'.
  f_equal. by eapply find_root_fuel.
Qed.

Lemma find_root_same_tree (n : nat) (a b : Resource.t) :
  (bound <= n)%nat -> same_tree db a b ->
  find_root n db a = find_root n db b.
Proof.
  intros Hn. induction 1 as [|a c b [Hac|Hca] _ IH]; [done| |];
    rewrite <- IH; [symmetry|]; by apply find_root_child.
Qed.
End Hierarchy.

(** ** Positions in a list *)

Section Before.
Context {A : Type}.
Implicit Types (l : list A) (x y : A).

Lemma before_cons_head l x y : y ∈ l -> before (x :: l) x y.
Proof.
  intros (l2 & l3 & ->)%list_elem_of_split. by exists [], l2, l3.
Qed.

Lemma before_cons l a x y : before l x y -> before (a :: l) x y.
Proof. intros (l1 & l2 & l3 & ->). by exists (a :: l1), l2, l3. Qed.

Lemma before_app_l l l' x y : before l x y -> before (l ++ l') x y.
Proof.
  intros (l1 & l2 & l3 & ->). exists l1, l2, (l3 ++ l').
  rewrite <- app_assoc. simpl. by rewrite <- app_assoc.
Qed.

Lemma before_app_r l l' x y : before l' x y -> before (l ++ l') x y.
Proof.
  intros (l1 & l2 & l3 & ->). exists (l ++ l1), l2, l3.
  by rewrite <- app_assoc.
Qed.

Lemma before_app_both l l' x y : x ∈ l -> y ∈ l' -> before (l ++ l') x y.
Proof.
  intros (l1 & l2 & ->)%list_elem_of_split (l3 & l4 & ->)%list_elem_of_split.
  exists l1, (l2 ++ l3), l4. rewrite <- ?app_assoc. simpl.
  by rewrite <- ?app_assoc.
Qed.

Lemma before_elem_of l x y : before l x y -> x ∈ l /\ y ∈ l.
Proof.
  intros (l1 & l2 & l3 & ->). rewrite !elem_of_app, !elem_of_cons, !elem_of_app,
    !elem_of_cons. tauto.
Qed.

Lemma before_cons_inv l a x y :
  before (a :: l) x y -> (x = a /\ y ∈ l) \/ before l x y.
Proof.
  intros ([|a' l1] & l2 & l3 & Heq); simplify_eq/=.
  - left. split; [done|]. rewrite elem_of_app, elem_of_cons. tauto.
  - right. by exists l1, l2, l3.
Qed.

Lemma before_app_inv l l' x y :
  before (l ++ l') x y ->
  before l x y \/ (x ∈ l /\ y ∈ l') \/ before l' x y.
Proof.
  induction l as [|a l IH]; simpl; [tauto|].
  intros [[-> Hy]|H]%before_cons_inv.
  - apply elem_of_app in Hy as [Hy|Hy].
    + left. by apply before_cons_head.
    + right. left. split; [left|done].
  - destruct (IH H) as [?|[[? ?]|?]].
    + left. by apply before_cons.
    + right. left. split; [by right|done].
    + by right; right.
Qed.

Lemma before_lookup l x y :
  before l x y <-> exists i j, (i < j)%nat /\ l !! i = Some x /\ l !! j = Some y.
Proof.
  split.
  - intros (l1 & l2 & l3 & ->).
    exists (length l1), (length l1 + S (length l2))%nat. split; [lia|]. split.
    + by rewrite list_lookup_middle.
    + rewrite lookup_app_r by lia.
      replace (length l1 + S (length l2) - length l1)%nat
        with (S (length l2)) by lia.
      simpl. by rewrite list_lookup_middle.
  - intros (i & j & Hij & Hi & Hj).
    apply list_elem_of_split_length in Hi as (l1 & l' & -> & ->).
    rewrite lookup_app_r in Hj by lia.
    destruct (j - length l1)%nat as [|k] eqn:Hk; [lia|]. simpl in Hj.
    apply list_elem_of_split_length in Hj as (l2 & l3 & -> & _).
    by exists l1, l2, l3.
Qed.
End Before.

(** ** The hierarchy in pre-order *)

Section PreOrder.
Context {st : app_state} {level : Z -> nat} {bound : nat}.
Context (Hforest : forest (resources st) level bound) (Htypes : types_ok st).

Lemma sorted_children_is_child (r c : Resource.t) :
  r ∈ resources st -> c ∈ sorted_children st r <-> is_child (resources st) r c.
Proof.
  intros Hr. rewrite (elem_of_sorted_children Htypes). unfold is_child. tauto.
Qed.

Lemma elem_of_blocks (n : nat) (d : Z) (cs : list Resource.t)
    (it : hierarchy_item) :
  it ∈ concat (map (fun c => pre_order n st c (d + 1)) cs)
  <-> exists c, c ∈ cs /\ it ∈ pre_order n st c (d + 1).
Proof.
  rewrite elem_of_concat. split.
  - intros (l & Hit & (c & -> & Hc)%elem_of_map). eauto.
  - intros (c & Hc & Hit). eexists. split; [done|]. apply elem_of_map. eauto.
Qed.

(** The items are what the function appends. *)
Lemma collect_resources_pre_order (n : nat) (r : Resource.t) (d : Z)
    (items : list hierarchy_item) :
  r ∈ resources st -> (bound < level (Resource.id r) + n)%nat ->
  collect_resources n st r d items = Ok (items ++ pre_order n st r d).
Proof.
  revert r d items. induction n as [|n IH]; intros r d items Hr Hn.
  { pose proof (forest_bound _ _ _ Hforest r Hr). lia. }
  simpl.
  assert (forall cs acc,
            (forall c, c ∈ cs -> is_child (resources st) r c) ->
            foldl (fun acc child =>
                     items ← acc; collect_resources n st child (d + 1) items)
                  (Ok acc) cs
            = Ok (acc ++ concat (map (fun c => pre_order n st c (d + 1)) cs)))
    as Hfold.
  { induction cs as [|c cs IHcs]; intros acc Hcs; simpl.
    - by rewrite app_nil_r.
    - assert (is_child (resources st) r c) as Hc by (apply Hcs; left).
      pose proof (forest_level _ _ _ Hforest _ _ Hc).
      rewrite IH; [|by destruct Hc as (_ & ? & _)|lia].
      rewrite IHcs; [by rewrite app_assoc|].
      intros c' Hc'. apply Hcs. by right. }
  rewrite Hfold; [by rewrite <- app_assoc|].
  intros c Hc. by apply sorted_children_is_child.
Qed.

(** Every listed resource is in the subtree. *)
Lemma pre_order_subtree (n : nat) (r : Resource.t) (d : Z) (it : hierarchy_item) :
  r ∈ resources st -> it ∈ pre_order n st r d ->
  rtc (is_child (resources st)) r (resource it).
Proof.
  revert r d it. induction n as [|n IH]; intros r d it Hr; simpl.
  { by intros ?%elem_of_nil. }
  intros [->|Hit]%elem_of_cons; [done|].
  apply elem_of_blocks in Hit as (c & Hc & Hit).
  apply sorted_children_is_child in Hc; [|done].
  eapply rtc_l; [done|]. eapply IH; [by destruct Hc as (_ & ? & _)|done].
Qed.

(** Every resource of the subtree is listed. *)
Lemma pre_order_complete (n : nat) (r x : Resource.t) (d : Z) :
  r ∈ resources st -> (bound < level (Resource.id r) + n)%nat ->
  rtc (is_child (resources st)) r x -> x ∈ map resource (pre_order n st r d).
Proof.
  revert r x d. induction n as [|n IH]; intros r x d Hr Hn Hx.
  { pose proof (forest_bound _ _ _ Hforest r Hr). lia. }
  simpl. apply rtc_inv in Hx as [->|(c & Hc & Hx)]; [left|]. right.
  pose proof (forest_level _ _ _ Hforest _ _ Hc).
  apply (IH c x (d + 1)) in Hx; [|by destruct Hc as (_ & ? & _)|lia].
  apply elem_of_map in Hx as (it & -> & Hit).
  apply elem_of_map. exists it. split; [done|].
  apply elem_of_blocks. exists c. split; [|done].
  by apply sorted_children_is_child.
Qed.

(** The subtrees of distinct children share no resource. *)
Lemma blocks_disjoint (n m : nat) (d d' : Z) (r c c' : Resource.t)
    (a b : hierarchy_item) :
  is_child (resources st) r c -> is_child (resources st) r c' ->
  a ∈ pre_order n st c d -> b ∈ pre_order m st c' d' ->
  resource a = resource b -> c = c'.
Proof.
  intros Hc Hc' Ha Hb Heq.
  apply pre_order_subtree in Ha; [|by destruct Hc as (_ & ? & _)].
  apply pre_order_subtree in Hb; [|by destruct Hc' as (_ & ? & _)].
  rewrite Heq in Ha. by eapply (subtrees_disjoint Hforest).
Qed.

(** No resource is listed twice. *)
Lemma pre_order_NoDup (n : nat) (r : Resource.t) (d : Z) :
  r ∈ resources st -> NoDup (map resource (pre_order n st r d)).
Proof.
  revert r d. induction n as [|n IH]; intros r d Hr; simpl; [constructor|].
  apply NoDup_cons. split.
  - intros (it & Hit & (c & Hc & Hin)%elem_of_blocks)%elem_of_map.
    apply sorted_children_is_child in Hc; [|done].
    apply pre_order_subtree in Hin; [|by destruct Hc as (_ & ? & _)].
    simpl in Hit. rewrite <- Hit in Hin.
    destruct (descendant_irrefl Hforest r).
    eapply tc_rtc_r; [by apply tc_once|done].
  - assert (forall cs,
              NoDup cs -> (forall c, c ∈ cs -> is_child (resources st) r c) ->
              NoDup (map resource
                       (concat (map (fun c => pre_order n st c (d + 1)) cs))))
      as Hblocks.
    { induction cs as [|c cs IHcs]; intros Hnd Hcs; simpl; [constructor|].
      apply NoDup_cons in Hnd as [Hc Hnd].
      rewrite map_app. apply NoDup_app. split; [|split].
      - apply IH. by destruct (Hcs c) as (_ & ? & _); [left|].
      - intros x (a & -> & Ha)%elem_of_map (b & Hb & Hin)%elem_of_map.
        apply elem_of_blocks in Hin as (c' & Hc' & Hin).
        apply Hc. assert (c = c') as ->; [|done].
        eapply blocks_disjoint; [apply Hcs; left|apply Hcs; by right|done..].
      - apply IHcs; [done|]. intros c' Hc'. apply Hcs. by right. }
    apply Hblocks.
    + rewrite (sorted_children_Permutation Htypes). apply NoDup_filter.
      eapply NoDup_fmap_1. apply (forest_ids _ _ _ Hforest).
    + intros c Hc. by apply sorted_children_is_child.
Qed.

Lemma before_blocks (n : nat) (d : Z) (cs : list Resource.t) (c : Resource.t)
    (a b : hierarchy_item) :
  c ∈ cs -> before (pre_order n st c (d + 1)) a b ->
  before (concat (map (fun c => pre_order n st c (d + 1)) cs)) a b.
Proof.
  induction cs as [|c' cs IH]; intros Hc Hab; [by apply elem_of_nil in Hc|].
  simpl. apply elem_of_cons in Hc as [->|Hc].
  - by apply before_app_l.
  - by apply before_app_r, IH.
Qed.

(** Every item but the first has the item of its parent before it, one
    level up. *)
Lemma pre_order_parent_before (n : nat) (r : Resource.t) (d : Z)
    (it : hierarchy_item) :
  r ∈ resources st -> it ∈ pre_order n st r d ->
  it = hierarchy_entry st d r
  \/ exists parent_item,
       before (pre_order n st r d) parent_item it
       /\ is_child (resources st) (resource parent_item) (resource it)
       /\ depth it = depth parent_item + 1.
Proof.
  revert r d it. induction n as [|n IH]; intros r d it Hr; simpl.
  { by intros ?%elem_of_nil. }
  intros [->|Hit]%elem_of_cons; [by left|]. right.
  pose proof Hit as (c & Hc & Hin)%elem_of_blocks.
  pose proof Hc as Hchild. apply sorted_children_is_child in Hchild; [|done].
  destruct (IH c (d + 1) it) as [->|(pit & Hbefore & Hpit & Hdepth)];
    [by destruct Hchild as (_ & ? & _)|done| |].
  - exists (hierarchy_entry st d r). split; [by apply before_cons_head|]. done.
  - exists pit. split; [|done]. by eapply before_cons, before_blocks.
Qed.

(** Siblings are listed in the order of the children query. *)
Lemma pre_order_siblings (n : nat) (r p : Resource.t) (d : Z)
    (a b : hierarchy_item) :
  r ∈ resources st -> before (pre_order n st r d) a b ->
  is_child (resources st) p (resource a) -> is_child (resources st) p (resource b) ->
  sibling_le default_order st (resource a) (resource b).
Proof.
  revert r p d a b. induction n as [|n IH]; intros r p d a b Hr; simpl.
  { intros [Hnil _]%before_elem_of. by apply elem_of_nil in Hnil. }
  assert (forall c x, is_child (resources st) r c ->
                      rtc (is_child (resources st)) c x ->
                      is_child (resources st) p x ->
                      (x = c /\ p = r) \/ rtc (is_child (resources st)) c p) as Hup.
  { intros c x Hc [->|Hx]%(rtc_descendant) Hp.
    - left. split; [done|]. by eapply (is_child_parent_unique Hforest).
    - right. by eapply (descendant_parent Hforest). }
  assert (forall c, is_child (resources st) r c ->
                    ~ rtc (is_child (resources st)) c r) as Hcycle.
  { intros c Hc Hcr. destruct (descendant_irrefl Hforest r).
    eapply tc_rtc_r; [by apply tc_once|done]. }
  intros [[-> Hb]|Hab]%before_cons_inv Hpa Hpb.
  - (* the first item is the root of the subtree, above everything else *)
    apply elem_of_blocks in Hb as (c & Hc & Hb).
    apply sorted_children_is_child in Hc; [|done].
    apply pre_order_subtree in Hb; [|by destruct Hc as (_ & ? & _)].
    simpl in Hpa.
    destruct (Hup c (resource b) Hc Hb Hpb) as [[_ ->]|Hcp].
    + destruct (descendant_irrefl Hforest r). by apply tc_once.
    + destruct (Hcycle c Hc). eapply rtc_r; [done|]. done.
  - assert (forall cs,
              StronglySorted (sibling_le default_order st) cs -> NoDup cs ->
              (forall c, c ∈ cs -> is_child (resources st) r c) ->
              before (concat (map (fun c => pre_order n st c (d + 1)) cs)) a b ->
              sibling_le default_order st (resource a) (resource b)) as Hblocks.
    { clear Hab. induction cs as [|c cs IHcs]; intros Hsorted Hnd Hcs; simpl.
      { intros [Hnil _]%before_elem_of. by apply elem_of_nil in Hnil. }
      apply StronglySorted_cons in Hsorted as [Hle Hsorted].
      apply NoDup_cons in Hnd as [Hnot Hnd].
      assert (is_child (resources st) r c) as Hc by (apply Hcs; left).
      intros [Hab|[[Ha Hb]|Hab]]%before_app_inv.
      - eapply IH; [by destruct Hc as (_ & ? & _)|done..].
      - apply elem_of_blocks in Hb as (c' & Hc' & Hb).
        assert (is_child (resources st) r c') as Hchild' by (apply Hcs; by right).
        apply pre_order_subtree in Ha; [|by destruct Hc as (_ & ? & _)].
        apply pre_order_subtree in Hb; [|by destruct Hchild' as (_ & ? & _)].
        destruct (Hup c (resource a) Hc Ha Hpa) as [[-> ->]|Hcp];
          destruct (Hup c' (resource b) Hchild' Hb Hpb) as [[-> Hpr]|Hcp'].
        + by eapply Forall_forall in Hle.
        + by destruct (Hcycle c' Hchild').
        + subst p. by destruct (Hcycle c Hc).
        + destruct Hnot.
          by rewrite (subtrees_disjoint Hforest r c c' p Hc Hchild' Hcp Hcp').
      - apply IHcs; [done|done| |done]. intros c' Hc'. apply Hcs. by right. }
    apply (Hblocks (sorted_children st r));
      [by apply sorted_children_sorted| | |done].
    + rewrite (sorted_children_Permutation Htypes). apply NoDup_filter.
      eapply NoDup_fmap_1. apply (forest_ids _ _ _ Hforest).
    + intros c Hc. by apply sorted_children_is_child.
Qed.
End PreOrder.

(** ** The hierarchy view *)

(** C5, as the code has it: in a table that holds a forest, whose types
    are all in the types table, the hierarchy view of a resource that is
    present reaches, by the parent links, the same root from every
    resource of the same tree; the items are the root's subtree in
    pre-order, each resource once: the root first with depth 0, every
    other item after the item of its parent and one level deeper, and
    siblings in the order of the type's list_order, then the type, then
    the name, then the id. *)
Theorem hierarchy_is_sorted_pre_order (steps depth_limit : nat) (id : Z)
    (st : app_state) (level : Z -> nat) (bound : nat) (res : Resource.t) :
  forest (resources st) level bound ->
  types_ok st ->
  find_resource id (resources st) = Some res ->
  (bound <= steps)%nat ->
  (bound < depth_limit)%nat ->
  exists root items,
    hierarchy steps depth_limit id st
      = Some (Ok {| hierarchy_items := items; selected_item_id := id |}, st)
    /\ find_root steps (resources st) res = Some root
    /\ (forall other, same_tree (resources st) res other ->
                      find_root steps (resources st) other = Some root)
    /\ items = pre_order depth_limit st root 0
    /\ head items = Some (hierarchy_entry st 0 root)
    /\ NoDup (map resource items)
    /\ (forall r, r ∈ map resource items
                  <-> r = root \/ descendant (resources st) root r)
    /\ (forall it, it ∈ items ->
          it = hierarchy_entry st 0 root
          \/ exists parent_item,
               before items parent_item it
               /\ is_child (resources st) (resource parent_item) (resource it)
               /\ depth it = depth parent_item + 1)
    /\ (forall a b p,
          before items a b ->
          is_child (resources st) p (resource a) ->
          is_child (resources st) p (resource b) ->
          sibling_le default_order st (resource a) (resource b)).
Proof.
  intros Hforest Htypes Hfind Hsteps Hlimit.
  destruct (find_resource_Some _ _ _ Hfind) as [Hid Hres].
  pose proof (forest_bound _ _ _ Hforest res Hres) as Hlevel.
  destruct (find_root_enough Hforest steps res Hres) as (root & Hroot & _ & Hrtc);
    [lia|].
  assert (root ∈ resources st) as Hin.
  { apply rtc_inv in Hrtc as [->|(c & (? & _) & _)]; done. }
  assert (bound < level (Resource.id root) + depth_limit)%nat as Hfuel by lia.
  exists root, (pre_order depth_limit st root 0).
  split; [|split; [done|split; [|split; [done|split; [|split; [|split; [|split]]]]]]].
  - unfold hierarchy. rewrite Hfind, Hroot. simpl.
    rewrite (collect_resources_pre_order Hforest Htypes) by done.
    simpl. by rewrite Hid.
  - intros other Hsame. by rewrite <- (find_root_same_tree Hforest steps res other).
  - destruct depth_limit; [lia|done].
  - by apply (pre_order_NoDup Hforest Htypes).
  - intros r. split.
    + intros (it & -> & Hit)%elem_of_map.
      apply (pre_order_subtree Htypes) in Hit; [|done].
      apply rtc_descendant in Hit as [->|?]; [by left|by right].
    + intros Hr. apply (pre_order_complete Hforest Htypes); [done..|].
      apply rtc_descendant. destruct Hr as [->|?]; [by left|by right].
  - intros it. by apply (pre_order_parent_before Htypes).
  - intros a b p. by apply (pre_order_siblings Hforest Htypes).
Qed.

Lemma sample_types_ok : types_ok sample_state.
Proof.
  split.
  - apply (bool_decide_unpack _). vm_compute. reflexivity.
  - intros r Hr. simpl in Hr. unfold sample_resources in Hr.
    set_unfold in Hr. destruct_or!; subst; apply list_elem_of_In; simpl; tauto.
Defined.

Lemma hierarchy_is_sorted_pre_order_witness :
  exists root items,
    hierarchy 5 5 4 sample_state
      = Some (Ok {| hierarchy_items := items; selected_item_id := 4 |},
              sample_state)
    /\ find_root 5 sample_resources (Resource.mk 4 "attribute" "height" (Some 3))
       = Some root
    /\ head items = Some (hierarchy_entry sample_state 0 root).
Proof.
  destruct (hierarchy_is_sorted_pre_order 5 5 4 sample_state sample_level 2
              (Resource.mk 4 "attribute" "height" (Some 3))
              sample_forest sample_types_ok)
    as (root & items & Hrun & Hroot & _ & _ & Hhead & _);
    [reflexivity|lia|lia|].
  by exists root, items.
Defined.

(** C5, as the claim states it, fails on the order of siblings: where two
    types have one list_order the type decides before the name, and the
    child "zones" of type "data" is listed before the child "roads" of
    type "layer". *)
Lemma hierarchy_siblings_not_by_name :
  hierarchy 5 5 1 tie_state
    = Some (Ok {| hierarchy_items :=
                    [ hierarchy_entry tie_state 0 (Resource.mk 1 "map" "city" None);
                      hierarchy_entry tie_state 1
                        (Resource.mk 3 "data" "zones" (Some 1));
                      hierarchy_entry tie_state 1
                        (Resource.mk 2 "layer" "roads" (Some 1)) ];
                  selected_item_id := 1 |}, tie_state)
  /\ ~ sibling_le spec_order tie_state
         (Resource.mk 3 "data" "zones" (Some 1))
         (Resource.mk 2 "layer" "roads" (Some 1)).
Proof.
  split; [vm_compute; reflexivity|].
  vm_compute. intros H. by apply H.
Qed.

(** * Further properties of the controllers *)

(** ** The last segment of a url *)

Lemma split_on_last (c : ascii) (s : string) :
  exists init name prefix,
    split_on c s = init ++ [name]
    /\ s = prefix +:+ name
    /\ (forall i, String.get i name <> Some c)
    /\ (init = [] -> prefix = EmptyString)
    /\ (init <> [] -> exists p, prefix = p +:+ String c EmptyString).
Proof.
  induction s as [|a s IH]; simpl.
  - exists [], EmptyString, EmptyString. repeat split; try done.
  - destruct IH as (init & name & prefix & Hsplit & -> & Hname & Hnil & Hcons).
    destruct (Ascii.eqb_spec a c) as [->|Hac].
    + exists (EmptyString :: init), name, (String c prefix).
      rewrite Hsplit. repeat split; try done. intros _.
      destruct init as [|x init].
      * exists EmptyString. by rewrite Hnil.
      * destruct Hcons as (p & ->); [done|]. by exists (String c p).
    + rewrite Hsplit. destruct init as [|x init]; simpl.
      * exists [], (String a name), EmptyString. rewrite Hnil by done.
        repeat split; try done.
        intros [|i]; simpl; [congruence|apply Hname].
      * exists (String a x :: init), name, (String a prefix).
        repeat split; try done. intros _.
        destruct Hcons as (p & ->); [done|]. by exists (String a p).
Qed.

(** X1: the name taken from a url, [url.split("/")[-1]], exists for every
    string; it holds no slash, and the url is this name after a prefix
    that is empty or ends with a slash. *)
Theorem url_basename_is_last_segment (s : string) :
  exists prefix name,
    url_basename (VStr s) = Ok name
    /\ s = prefix +:+ name
    /\ (forall i, String.get i name <> Some "/"%char)
    /\ (prefix = EmptyString \/ exists p, prefix = p +:+ "/").
Proof.
  destruct (split_on_last "/" s)
    as (init & name & prefix & Hsplit & Hs & Hname & Hnil & Hcons).
  exists prefix, name. split; [|split; [done|split; [done|]]].
  - unfold url_basename, py_getitem. rewrite Hsplit.
    rewrite py_index_last by (by destruct init).
    rewrite length_app, Nat.add_1_r. simpl.
    by rewrite lookup_app_r, Nat.sub_diag by lia.
  - destruct init; [left; by apply Hnil|right; by apply Hcons].
Qed.

(** ** Finding a theme by its index *)

(** X2: [find_theme] finds the item that indexing the addressed list
    gives, at an index from 0 on (and a group index from 0 on); at a
    negative index, where Python's indexing counts from the end, and past
    the end it finds nothing. *)
Theorem find_theme_agrees_with_indexing (tid : Z) (gid : option Z)
    (d : themes_doc) (th : theme) :
  find_theme tid gid d = Some th
  <-> 0 <= tid
      /\ match gid with Some g => 0 <= g | None => True end
      /\ exists l, target_items gid d = Ok l /\ py_getitem l tid = Ok th.
Proof.
  pose proof (@lookup_py_getitem) as Hget.
  unfold find_theme, target_items. destruct gid as [g|].
  - destruct (decide (0 <= g)) as [Hg|Hg]; [|split; [done|tauto]].
    destruct (groups d !! Z.to_nat g) as [grp|] eqn:Hgrp.
    + apply Hget in Hgrp as Hgrp'; [|done]. rewrite Hgrp'. simpl.
      destruct (decide (0 <= tid)) as [Ht|Ht].
      * rewrite Hget by done. split.
        -- intros Hth. split; [done|]. split; [done|]. by eexists.
        -- by intros (_ & _ & l & [= <-] & Hth).
      * split; [done|tauto].
    + split; [done|]. intros (_ & _ & l & Hl & _).
      destruct (py_getitem (groups d) g) as [grp|] eqn:Hgrp'; [|done].
      apply Hget in Hgrp'; [congruence|done].
  - destruct (decide (0 <= tid)) as [Ht|Ht]; [|split; [done|tauto]].
    rewrite Hget by done. split.
    + intros Hth. split; [done|]. split; [done|]. by eexists.
    + by intros (_ & _ & l & [= <-] & Hth).
Qed.

(** ** Moves keep every theme *)

Lemma py_swap_assign_Permutation {A} (l l' : list A) (a b : Z) :
  py_swap_assign l a b = Ok l' -> l' ≡ₚ l.
Proof.
  unfold py_swap_assign, py_getitem, py_setitem. intros H.
  destruct (py_index l b) as [ib|] eqn:Hb; [|done]. simpl in H.
  destruct (l !! ib) as [x|] eqn:Hx; [|done]. simpl in H.
  destruct (py_index l a) as [ia|] eqn:Ha; [|done]. simpl in H.
  destruct (l !! ia) as [y|] eqn:Hy; [|done]. simpl in H.
  assert (py_index (<[ia:=x]> l) b = Some ib) as Hb'.
  { unfold py_index in *. by rewrite length_insert. }
  rewrite Hb' in H. injection H as <-. by apply Permutation_insert_swap.
Qed.

Lemma move_items_Permutation {A} direction tid (l l' : list A) :
  move_items direction tid l = Ok l' -> l' ≡ₚ l.
Proof.
  unfold move_items. repeat case_decide.
  - apply py_swap_assign_Permutation.
  - apply py_swap_assign_Permutation.
  - by intros [= <-].
Qed.

(** X3: whatever the direction and the index, a move that does not fail
    keeps every theme: the addressed list holds the same items as before,
    in some order, and nothing else of the document changes (the flat list
    for a move inside a group; the other groups, and the group's title). *)
Theorem move_theme_keeps_every_theme (direction : string) (tid : Z)
    (gid : option Z) (d d' : themes_doc) :
  move_theme direction tid gid d = Ok d' ->
  match gid with
  | None => items d' ≡ₚ items d /\ groups d' = groups d
  | Some g =>
      items d' = items d
      /\ exists k grp l,
           py_index (groups d) g = Some k
           /\ groups d !! k = Some grp
           /\ l ≡ₚ group_items grp
           /\ groups d' = <[k := set_group_items grp l]> (groups d)
  end.
Proof.
  unfold move_theme. intros H. destruct gid as [g|].
  - unfold py_getitem, py_setitem in H.
    destruct (py_index (groups d) g) as [k|] eqn:Hk; [|done].
    destruct (groups d !! k) as [grp|] eqn:Hgrp; [|done]. simpl in H.
    destruct (move_items direction tid (group_items grp)) as [l|] eqn:Hl;
      [|done].
    simpl in H. injection H as <-. split; [done|].
    exists k, grp, l. by apply move_items_Permutation in Hl.
  - destruct (move_items direction tid (items d)) as [l|] eqn:Hl; [|done].
    simpl in H. injection H as <-. by apply move_items_Permutation in Hl.
Qed.

Lemma move_theme_keeps_every_theme_witness :
  [sample_theme "/maps/b"; sample_theme "/maps/a"; sample_theme "/maps/c"]
  ≡ₚ sample_items
  /\ sample_groups = sample_groups.
Proof.
  exact (move_theme_keeps_every_theme "down" 1 None sample_doc
           {| items := [sample_theme "/maps/b"; sample_theme "/maps/a";
                        sample_theme "/maps/c"];
              groups := sample_groups |} eq_refl).
Defined.

(** X4: a move of a group that does not fail keeps every group, in some
    order, and leaves the flat list of themes alone. *)
Theorem move_theme_group_keeps_every_group (gid : Z) (direction : string)
    (d d' : themes_doc) :
  move_theme_group gid direction d = Ok d' ->
  groups d' ≡ₚ groups d /\ items d' = items d.
Proof.
  unfold move_theme_group. intros H.
  destruct (if decide (direction = "up" /\ gid > 1) then _ else _)
    as [gs|] eqn:Hgs; [|done].
  simpl in H. injection H as <-. split; [|done]. simpl.
  repeat case_decide.
  - by apply py_swap_assign_Permutation in Hgs.
  - by apply py_swap_assign_Permutation in Hgs.
  - by injection Hgs as <-.
Qed.
Lemma move_theme_group_keeps_every_group_witness :
  [ {| group_title := VStr "second"; group_items := [] |};
    {| group_title := VStr "first"; group_items := sample_items |} ]
  ≡ₚ sample_groups
  /\ sample_items = sample_items.
Proof.
  exact (move_theme_group_keeps_every_group 1 "down" sample_doc
           {| items := sample_items;
              groups :=
                [ {| group_title := VStr "second"; group_items := [] |};
                  {| group_title := VStr "first";
                     group_items := sample_items |} ] |} eq_refl).
Defined.

(** ** The themes file and the document in memory *)

Lemma save_themesconfig_writes env st :
  write_error env = None ->
  exists st',
    save_themesconfig env st = (Ok tt, st')
    /\ themes_file st' = themesconfig st
    /\ themesconfig st' = themesconfig st
    /\ resources st' = resources st
    /\ flashes st' = flashes st.
Proof.
  intros Hw. unfold save_themesconfig. rewrite Hw. by eexists.
Qed.

Lemma saved_then_done {A} env (a : A) st r st' :
  write_error env = None ->
  (save_themesconfig env;; mret a) st = (r, st') ->
  themes_file st' = themesconfig st'.
Proof.
  intros Hw H.
  destruct (save_themesconfig_writes env st Hw) as (st1 & Hs & Hf & Hd & _).
  rewrite (handler_bind_run _ _ _ _ _ Hs) in H.
  injection H as _ <-. congruence.
Qed.

Ltac saved :=
  match goal with
  | Hw : write_error _ = None, H : _ = (_, ?st') |- themes_file ?st' = _ =>
      apply (saved_then_done _ _ _ _ _ Hw H)
  end.

Lemma create_or_update_theme_saved py_int env th form tid gid st r st' :
  write_error env = None ->
  create_or_update_theme py_int env th form tid gid st = (Ok r, st') ->
  themes_file st' = themesconfig st'.
Proof.
  intros Hw H. unfold create_or_update_theme in H.
  handler_step H as item st1 Hitem.
  handler_step H as new_name st2 Hname.
  handler_step H as u st3 Hbody.
  destruct (save_themesconfig_writes env st3 Hw) as (st4 & Hs & Hf & Hd & _).
  rewrite Hs in H. injection H as <-. congruence.
Qed.

(** X5: when the themes file can be written, every request that changes
    the document and ends without an exception leaves the file equal to
    the document in memory: the moves, the add, the rename and the delete
    of a group, the delete of a theme and the update of a theme from a
    valid form; so does every run of [create_or_update_theme] that ends
    without an exception, for a new theme as for a found one. *)
Theorem written_file_matches_memory (py_int : string -> option Z)
    (py_str : value -> string) (env : environment) (st st' : app_state)
    (r : response) :
  write_error env = None ->
  (forall direction tid gid,
      move_theme_request env direction tid gid st = (Ok r, st') ->
      themes_file st' = themesconfig st')
  /\ (forall gid direction,
        move_theme_group_request env gid direction st = (Ok r, st') ->
        themes_file st' = themesconfig st')
  /\ (add_theme_group env st = (Ok r, st') ->
      themes_file st' = themesconfig st')
  /\ (forall title gid,
        update_theme_group env title gid st = (Ok r, st') ->
        themes_file st' = themesconfig st')
  /\ (forall gid,
        delete_theme_group env gid st = (Ok r, st') ->
        themes_file st' = themesconfig st')
  /\ (forall tid gid,
        delete_theme env tid gid st = (Ok r, st') ->
        themes_file st' = themesconfig st')
  /\ (forall form tid gid,
        update_theme py_int py_str env form true tid gid st = (Ok r, st') ->
        themes_file st' = themesconfig st')
  /\ (forall th form tid gid u,
        create_or_update_theme py_int env th form tid gid st = (Ok u, st') ->
        themes_file st' = themesconfig st').
Proof.
  intros Hw. repeat split.
  - intros direction tid gid H. unfold move_theme_request in H.
    do 3 handler_step H. saved.
  - intros gid direction H. unfold move_theme_group_request in H.
    do 3 handler_step H. saved.
  - intros H. unfold add_theme_group in H. do 2 handler_step H. saved.
  - intros title gid H. unfold update_theme_group in H.
    do 4 handler_step H. saved.
  - intros gid H. unfold delete_theme_group in H. do 3 handler_step H. saved.
  - intros tid gid H. unfold delete_theme in H. do 3 handler_step H. saved.
  - intros form tid gid H. unfold update_theme in H.
    handler_step H as d st1 Hd.
    destruct (find_theme tid gid _) as [th|]; [|by handler_prim H].
    handler_step H as f st2 Hf. handler_step H as u st3 Hc.
    handler_step H as u' st4 Hflash. handler_prim H.
    apply (create_or_update_theme_saved _ _ _ _ _ _ _ _ _ Hw) in Hc.
    by simpl.
  - intros th form tid gid u H.
    by apply (create_or_update_theme_saved _ _ _ _ _ _ _ _ _ Hw) in H.
Qed.

Lemma written_file_matches_memory_witness :
  themes_file (add_theme_group sample_env sample_state).2
  = themesconfig (add_theme_group sample_env sample_state).2.
Proof.
  destruct (written_file_matches_memory sample_int sample_str sample_env
              sample_state (add_theme_group sample_env sample_state).2
              (Redirect "themes" []) eq_refl)
    as (_ & _ & H & _).
  apply H. reflexivity.
Defined.

(** ** Groups of themes *)

Lemma py_index_length {A} (l : list A) (x : A) :
  py_index (l ++ [x]) (Z.of_nat (length l)) = Some (length l).
Proof. rewrite py_index_nat; [done|]. rewrite length_app. simpl. lia. Qed.

Lemma py_pop_snoc {A} (l : list A) (x : A) :
  py_pop (l ++ [x]) (Z.of_nat (length l)) = Ok (x, l).
Proof.
  unfold py_pop. rewrite py_index_length.
  rewrite lookup_app_r, Nat.sub_diag by lia. simpl. f_equal. f_equal.
  induction l as [|y l IH]; [done|]. simpl. by rewrite IH.
Qed.

Lemma py_getitem_snoc {A} (l : list A) (x : A) :
  py_getitem (l ++ [x]) (Z.of_nat (length l)) = Ok x.
Proof.
  unfold py_getitem. rewrite py_index_length.
  by rewrite lookup_app_r, Nat.sub_diag by lia.
Qed.

(** X6: a group added by [add_theme_group] is empty, titled "new group"
    and last; deleting the group at that index gives back the document as
    it was before the add, and with a writable file the file holds it. *)
Theorem add_then_delete_theme_group_restores (env : environment)
    (st : app_state) :
  let added := add_theme_group env st in
  let gid := Z.of_nat (length (groups (themesconfig st))) in
  let deleted := delete_theme_group env gid added.2 in
  added.1 = Ok (Redirect "themes" [])
  /\ groups (themesconfig added.2)
     = groups (themesconfig st)
       ++ [ {| group_title := VStr "new group"; group_items := [] |} ]
  /\ items (themesconfig added.2) = items (themesconfig st)
  /\ deleted.1 = Ok (Redirect "themes" [])
  /\ themesconfig deleted.2 = themesconfig st
  /\ (write_error env = None -> themes_file deleted.2 = themesconfig st).
Proof.
  unfold add_theme_group, delete_theme_group, save_themesconfig.
  unfold mbind, handler_bind, get_doc, put_doc, put_file, flash, lift, mret,
    handler_ret.
  destruct (write_error env) as [e|]; simpl; rewrite py_pop_snoc; simpl;
    destruct (themesconfig st); repeat split; done.
Qed.

(** X7: the delete of a group removes the addressed group alone, with the
    themes it holds, and never touches the resources table: the map
    resources of those themes stay. *)
Theorem delete_theme_group_keeps_resources (env : environment) (gid : Z)
    (st st' : app_state) (r : response) :
  delete_theme_group env gid st = (Ok r, st') ->
  resources st' = resources st
  /\ items (themesconfig st') = items (themesconfig st)
  /\ exists k grp,
       py_index (groups (themesconfig st)) gid = Some k
       /\ groups (themesconfig st) !! k = Some grp
       /\ groups (themesconfig st') = delete k (groups (themesconfig st)).
Proof.
  unfold delete_theme_group. intros H.
  handler_step H as d st1 Hd. handler_step H as p st2 Hp.
  handler_step H as u st3 Hput. handler_step H as u' st4 Hsave.
  handler_prim H. apply save_themesconfig_doc in Hsave as (_ & -> & ->).
  simpl. split; [done|]. split; [done|].
  unfold py_pop in H0.
  destruct (py_index _ gid) as [k|]; [|done].
  destruct (_ !! k) as [grp|] eqn:Hgrp; [|done].
  injection H0 as <-. by exists k, grp.
Qed.

Lemma delete_theme_group_keeps_resources_witness :
  resources (delete_theme_group sample_env 0 sample_state).2
  = sample_resources.
Proof.
  exact (proj1 (delete_theme_group_keeps_resources sample_env 0 sample_state
                  (delete_theme_group sample_env 0 sample_state).2
                  (Redirect "themes" []) eq_refl)).
Defined.

(** ** A theme created, then deleted *)

Lemma fresh_id_above (db : list Resource.t) (r : Resource.t) :
  r ∈ db -> Resource.id r < fresh_id db.
Proof.
  unfold fresh_id. induction db as [|x db IH]; intros Hr.
  - by apply elem_of_nil in Hr.
  - apply elem_of_cons in Hr as [->|Hr]; simpl; [lia|].
    specialize (IH Hr). lia.
Qed.

Lemma filter_all {A} (P : A -> Prop) `{forall x, Decision (P x)} (l : list A) :
  (forall x, x ∈ l -> P x) -> filter P l = l.
Proof.
  induction l as [|x l IH]; intros Hl; [done|].
  rewrite filter_cons_True by (apply Hl; left).
  rewrite IH; [done|]. intros y Hy. apply Hl. by right.
Qed.

Lemma filter_none {A} (P : A -> Prop) `{forall x, Decision (P x)} (l : list A) :
  (forall x, x ∈ l -> ~ P x) -> filter P l = [].
Proof.
  induction l as [|x l IH]; intros Hl; [done|].
  rewrite filter_cons_False by (apply Hl; left).
  apply IH. intros y Hy. apply Hl. by right.
Qed.

Lemma build_item_url py_int form item :
  build_item py_int form = Ok item ->
  dict_get "url" item = Some (ThemeForm.url form).
Proof.
  unfold build_item. cbv zeta. intros H.
  apply result_bind_Ok in H as (i1 & E1 & H).
  apply result_bind_Ok in H as (i2 & E2 & H).
  apply result_bind_Ok in H as (i3 & E3 & H).
  apply result_bind_Ok in H as (i4 & E4 & H).
  injection H as <-.
  apply set_list_if_get in E1 as [l1 G1], E2 as [l2 G2], E3 as [l3 G3],
    E4 as [l4 G4].
  item_lookup.
Qed.

Lemma py_insert_restore {A} (l : list A) (g : Z) (k : nat) (x y : A) :
  py_index l g = Some k -> l !! k = Some x ->
  py_getitem (<[k:=y]> l) g = Ok y
  /\ forall z, py_setitem (<[k:=y]> l) g z = Ok (<[k:=z]> l).
Proof.
  intros Hk Hx.
  assert (py_index (<[k:=y]> l) g = Some k) as Hk'.
  { revert Hk. unfold py_index. by rewrite length_insert. }
  unfold py_getitem, py_setitem. rewrite Hk'. split.
  - rewrite list_lookup_insert_eq; [done|]. by eapply lookup_lt_Some.
  - intros z. by rewrite list_insert_insert_eq.
Qed.

(** X8: a theme created with the commit accepted, in a table that held no
    map resource of its name, and then deleted at the index the create
    gave it (the end of its list), leaves the document and the resources
    table as they were before the create. *)
Theorem create_then_delete_theme_restores (py_int : string -> option Z)
    (env : environment) (form : ThemeForm.t) (tid : Z) (gid : option Z)
    (st st1 : app_state) (l : list theme) (name : string) :
  commit env = Committed ->
  create_or_update_theme py_int env None form tid gid st = (Ok tt, st1) ->
  target_items gid (themesconfig st) = Ok l ->
  url_basename (ThemeForm.url form) = Ok name ->
  (forall r, r ∈ resources st ->
             ~ (Resource.type r = "map" /\ Resource.name r = name)) ->
  exists item st2,
    target_items gid (themesconfig st1) = Ok (l ++ [item])
    /\ delete_theme env (Z.of_nat (length l)) gid st1
       = (Ok (Redirect "themes" []), st2)
    /\ themesconfig st2 = themesconfig st
    /\ resources st2 = resources st.
Proof.
  intros Hcommit Hcreate Hl Hname Hfree.
  unfold create_or_update_theme in Hcreate.
  handler_step Hcreate as item st0 Hitem.
  handler_step Hcreate as name' st0' Hname'.
  assert (name' = name) as -> by congruence.
  apply build_item_url in H as Hurl.
  assert (dict_getitem "url" item = Ok (ThemeForm.url form)) as Hurl'
    by (unfold dict_getitem; by rewrite Hurl).
  clear Hurl. rename Hurl' into Hurl.
  exists item.
  set (new := {| Resource.id := fresh_id (resources st0');
                 Resource.type := "map"; Resource.name := name;
                 Resource.parent_id := None |}) in *.
  assert (query_first
            (fun r => Resource.type r = "map" /\ Resource.name r = name)
            (resources st0' ++ [new]) = Some new) as Hq.
  { unfold query_first. rewrite filter_app, filter_none by done.
    by rewrite filter_cons_True. }
  assert (filter (fun r => Resource.id r <> Resource.id new)
            (resources st0' ++ [new]) = resources st0') as Hdel.
  { rewrite filter_app, filter_cons_False, filter_nil, app_nil_r
      by (by intros ?).
    apply filter_all. intros r Hr. apply fresh_id_above in Hr. simpl. lia. }
  subst new. simpl in Hdel. revert Hcreate.
  unfold delete_theme, pop_theme_item, append_theme_item, commit_or_flash,
    save_themesconfig.
  rewrite Hcommit.
  unfold mbind, handler_bind, get_doc, put_doc, put_file, get_resources,
    put_resources, flash, lift, mret, handler_ret.
  destruct gid as [g|]; simpl in Hl |- *.
  - destruct (py_getitem (groups (themesconfig st0')) g) as [grp|] eqn:Hgrp;
      [|done].
    simpl in Hl. injection Hl as <-.
    unfold py_getitem in Hgrp.
    destruct (py_index (groups (themesconfig st0')) g) as [k|] eqn:Hk; [|done].
    destruct (groups (themesconfig st0') !! k) as [grp'|] eqn:Hk'; [|done].
    injection Hgrp as ->.
    unfold py_setitem at 1. rewrite Hk.
    destruct (py_insert_restore _ g k grp
                (set_group_items grp (group_items grp ++ [item])) Hk Hk')
      as [Hget Hset].
    destruct (write_error env) as [e|]; simpl; intros [= <-]; simpl;
      rewrite Hget; simpl; rewrite py_getitem_snoc; simpl; rewrite Hurl;
      simpl; rewrite Hname; simpl; rewrite py_pop_snoc; simpl;
      rewrite Hset; simpl; rewrite Hq; simpl; rewrite Hdel;
      (eexists; split; [done|]; split; [reflexivity|]; split; [|done];
       simpl; unfold set_groups, set_group_items; simpl;
       replace {| group_title := group_title grp;
                  group_items := group_items grp |} with grp
         by (by destruct grp);
       rewrite list_insert_id by done;
       by destruct (themesconfig st0')).
  - injection Hl as <-.
    destruct (write_error env) as [e|]; simpl; intros [= <-]; simpl;
      rewrite py_getitem_snoc; simpl; rewrite Hurl; simpl; rewrite Hname;
      simpl; rewrite py_pop_snoc; simpl; rewrite Hq; simpl; rewrite Hdel;
      (eexists; split; [done|]; split; [reflexivity|]; split; [|done];
       simpl; by destruct (themesconfig st0')).
Qed.
Lemma create_then_delete_theme_restores_witness :
  let st1 := (create_or_update_theme sample_int sample_env None sample_form 0
                None sample_state).2 in
  exists item st2,
    target_items None (themesconfig st1) = Ok (sample_items ++ [item])
    /\ delete_theme sample_env 3 None st1 = (Ok (Redirect "themes" []), st2)
    /\ themesconfig st2 = sample_doc
    /\ resources st2 = sample_resources.
Proof.
  apply (create_then_delete_theme_restores sample_int sample_env sample_form
           0 None sample_state _ sample_items "harbour");
    [reflexivity..|].
  intros r Hr [Hty Hname]. simpl in Hr. unfold sample_resources in Hr.
  repeat (apply elem_of_cons in Hr as [->|Hr]; [discriminate|]).
  by apply elem_of_nil in Hr.
Defined.

(** ** A new theme for a group that is missing *)

(** X9: [create_or_update_theme], run for a new theme (no theme is given)
    with a group index that addresses no group, fails with [IndexError]
    only after the commit of the new map resource: with the commit
    accepted the table has gained the map resource named after the url,
    while the document, the file and the flashed messages are as before.
    This is the function by itself, whatever [tid] it is given:
    [create_theme] fails at its call and never runs it. *)
Theorem create_in_missing_group_leaves_resource (py_int : string -> option Z)
    (env : environment) (form : ThemeForm.t) (tid g : Z) (st : app_state)
    (item : theme) (name : string) :
  commit env = Committed ->
  build_item py_int form = Ok item ->
  url_basename (ThemeForm.url form) = Ok name ->
  py_index (groups (themesconfig st)) g = None ->
  exists st',
    create_or_update_theme py_int env None form tid (Some g) st
    = (Raise IndexError, st')
    /\ resources st'
       = resources st
         ++ [ {| Resource.id := fresh_id (resources st);
                 Resource.type := "map"; Resource.name := name;
                 Resource.parent_id := None |} ]
    /\ themesconfig st' = themesconfig st
    /\ themes_file st' = themes_file st
    /\ flashes st' = flashes st.
Proof.
  intros Hcommit Hitem Hname Hg.
  unfold create_or_update_theme, append_theme_item, commit_or_flash.
  rewrite Hcommit.
  unfold mbind, handler_bind, get_doc, put_doc, put_file, get_resources,
    put_resources, flash, lift, mret, handler_ret. simpl.
  rewrite Hitem, Hname. simpl.
  unfold py_getitem. rewrite Hg. simpl. by eexists.
Qed.

Lemma create_in_missing_group_leaves_resource_witness :
  exists st',
    create_or_update_theme sample_int sample_env None sample_form 0 (Some 2)
      sample_state
    = (Raise IndexError, st')
    /\ resources st'
       = sample_resources ++ [Resource.mk 6 "map" "harbour" None]
    /\ themesconfig st' = sample_doc
    /\ themes_file st' = sample_doc
    /\ flashes st' = [].
Proof.
  destruct (create_in_missing_group_leaves_resource sample_int
              sample_env sample_form 0 2 sample_state
              [("url", VStr "/maps/harbour"); ("title", VStr "Harbour");
               ("attribution", VStr EmptyString); ("default", VBool false);
               ("scales", VList [VInt 1000; VInt 500]);
               ("skipEmptyFeatureAttributes", VBool false);
               ("searchProviders", VList []);
               ("backgroundLayers", VList [])]
              "harbour" eq_refl eq_refl eq_refl eq_refl)
    as (st' & H). by exists st'.
Defined.

(** ** A scale that is not a number *)

Lemma map_result_to_int_fails py_int (l : list string) (p : string) :
  p ∈ l -> py_int p = None ->
  map_result (to_int py_int) l = Raise ValueError.
Proof.
  intros Hp Hnone. induction l as [|x l IH]; [by apply elem_of_nil in Hp|].
  simpl. destruct (to_int py_int x) as [v|e] eqn:Hx; simpl.
  - apply elem_of_cons in Hp as [->|Hp]; [|by rewrite IH].
    unfold to_int in Hx. by rewrite Hnone in Hx.
  - unfold to_int in Hx. destruct (py_int x); by simplify_eq.
Qed.

(** X10: when one of the comma-separated scales of the form is not
    accepted by [int], the update of a theme that is found, from the
    validated form, ends with [ValueError], which the handler does not
    catch, before anything is changed: the state after the request is the
    state before it.  So does every run of [create_or_update_theme], for
    a new theme as for a found one. *)
Theorem non_integer_scale_changes_nothing (py_int : string -> option Z)
    (py_str : value -> string) (env : environment) (form : ThemeForm.t)
    (s p : string) :
  ThemeForm.scales form = VStr s ->
  p ∈ split_on "," (remove_spaces s) ->
  py_int p = None ->
  s <> EmptyString ->
  (forall tid gid st th,
      find_theme tid gid (themesconfig st) = Some th ->
      update_theme py_int py_str env form true tid gid st
      = (Raise ValueError, st))
  /\ (forall th tid gid st,
        create_or_update_theme py_int env th form tid gid st
        = (Raise ValueError, st)).
Proof.
  intros Hscales Hp Hnone Hs.
  assert (build_item py_int form = Raise ValueError) as Hbuild.
  { assert (forall item, set_list_if (to_int py_int) "scales" (VStr s) item
                           = Raise ValueError) as Hset.
    { intros item. unfold set_list_if. simpl.
      destruct (String.eqb_spec s EmptyString) as [|_]; [done|]. simpl.
      by rewrite (map_result_to_int_fails py_int _ p). }
    unfold build_item. cbv zeta. by rewrite Hscales, Hset. }
  split.
  - intros tid gid st th Hth.
    unfold update_theme, create_form, create_or_update_theme.
    unfold mbind, handler_bind, get_doc, lift. simpl.
    rewrite Hth. simpl. by rewrite Hbuild.
  - intros th tid gid st. unfold create_or_update_theme.
    unfold mbind, handler_bind, lift. by rewrite Hbuild.
Qed.

Lemma non_integer_scale_changes_nothing_witness :
  update_theme sample_int sample_str sample_env
    (ThemeForm.set_scales (VStr "1000, 2k") sample_form) true 0 None
    sample_state
  = (Raise ValueError, sample_state).
Proof.
  refine (proj1 (non_integer_scale_changes_nothing sample_int sample_str
                   sample_env
                   (ThemeForm.set_scales (VStr "1000, 2k") sample_form)
                   "1000, 2k" "2k" eq_refl _ eq_refl _)
            0 None sample_state (sample_theme "/maps/a") eq_refl).
  - vm_compute. apply list_elem_of_In. simpl. tauto.
  - discriminate.
Defined.

(** ** Lists of the item and the text of the form *)

Lemma code_points_nil (s : string) : code_points s = [] -> s = EmptyString.
Proof.
  destruct s as [|a s]; [done|]. simpl.
  destruct (code_points s); [done|].
  by destruct (match s with String b _ => is_continuation b | _ => false end).
Qed.

(** The characters of a text, put together again, are the text. *)
Lemma code_points_concat (s : string) :
  foldr String.append EmptyString (code_points s) = s.
Proof.
  induction s as [|a s IH]; [done|]. cbn [code_points].
  destruct (code_points s) as [|p ps] eqn:E.
  - by rewrite (code_points_nil s E).
  - cbv zeta.
    destruct (match s with String b _ => is_continuation b | _ => false end);
      cbn [foldr] in *; by rewrite <- IH.
Qed.

(** A text without a byte that continues a character, as every text of
    ASCII is, has one character for each byte. *)
Lemma code_points_single_bytes (s : string) :
  Forall (fun a => is_continuation a = false) (list_ascii_of_string s) ->
  code_points s = map (fun a => String a EmptyString) (list_ascii_of_string s).
Proof.
  induction s as [|a s IH]; [done|]. intros Hs.
  apply Forall_cons in Hs as [_ Hs]. specialize (IH Hs).
  cbn [code_points list_ascii_of_string map]. rewrite IH.
  destruct s as [|b s]; [done|]. apply Forall_cons in Hs as [-> _]. done.
Qed.

(** A character of more than one byte is one element. *)
Lemma code_points_sample :
  code_points "Zürich" = ["Z"; "ü"; "r"; "i"; "c"; "h"].
Proof. reflexivity. Qed.

Lemma remove_spaces_app (a b : string) :
  remove_spaces (a +:+ b) = remove_spaces a +:+ remove_spaces b.
Proof.
  induction a as [|c a IH]; simpl; [done|].
  destruct (Ascii.eqb c " "); simpl; by rewrite IH.
Qed.

Lemma remove_spaces_id (s : string) :
  (forall i, String.get i s <> Some " "%char) -> remove_spaces s = s.
Proof.
  induction s as [|c s IH]; intros Hs; simpl; [done|].
  destruct (Ascii.eqb_spec c " ") as [->|_].
  - by specialize (Hs 0%nat).
  - rewrite IH; [done|]. intros i. apply (Hs (S i)).
Qed.

Lemma split_on_no_sep (c : ascii) (s : string) :
  (forall i, String.get i s <> Some c) -> split_on c s = [s].
Proof.
  induction s as [|a s IH]; intros Hs; simpl; [done|].
  destruct (Ascii.eqb_spec a c) as [->|_].
  - by specialize (Hs 0%nat).
  - rewrite IH; [done|]. intros i. apply (Hs (S i)).
Qed.

Lemma split_on_app_sep (c : ascii) (a b : string) :
  (forall i, String.get i a <> Some c) ->
  split_on c (a +:+ String c b) = a :: split_on c b.
Proof.
  induction a as [|x a IH]; intros Ha; simpl.
  - by rewrite Ascii.eqb_refl.
  - destruct (Ascii.eqb_spec x c) as [->|_].
    + by specialize (Ha 0%nat).
    + rewrite IH; [done|]. intros i. apply (Ha (S i)).
Qed.

Lemma split_join_comma (ss : list string) :
  ss <> [] ->
  Forall (fun s => forall i, String.get i s <> Some ","%char
                             /\ String.get i s <> Some " "%char) ss ->
  split_on "," (remove_spaces (join_comma ss)) = ss.
Proof.
  intros Hne Hss. induction Hss as [|s ss Hs Hss IH]; [done|].
  destruct ss as [|s' ss].
  - simpl. rewrite remove_spaces_id by (intros i; apply Hs).
    apply split_on_no_sep. intros i. apply Hs.
  - change (join_comma (s :: s' :: ss))
      with (s +:+ ", " +:+ join_comma (s' :: ss)).
    rewrite remove_spaces_app, remove_spaces_id by (intros i; apply Hs).
    change (remove_spaces (", " +:+ join_comma (s' :: ss)))
      with (String "," (remove_spaces (join_comma (s' :: ss)))).
    rewrite split_on_app_sep by (intros i; apply Hs).
    by rewrite IH.
Qed.

Lemma join_comma_not_empty (s : string) (ss : list string) :
  s <> EmptyString -> join_comma (s :: ss) <> EmptyString.
Proof. destruct s; [done|]. by destruct ss. Qed.

Lemma map_result_fmap {A B} (f : A -> B) (g : B -> result A) (l : list A) :
  Forall (fun x => g (f x) = Ok x) l -> map_result g (map f l) = Ok l.
Proof.
  induction 1 as [|x l Hx _ IH]; simpl; [done|]. by rewrite Hx, IH.
Qed.

Lemma set_list_if_value conv (k : string) (v : value) d d' :
  set_list_if conv k v d = Ok d' ->
  (truthy v = false /\ d' = d)
  \/ (truthy v = true
      /\ exists s l, v = VStr s
           /\ map_result conv (split_on "," (remove_spaces s)) = Ok l
           /\ d' = dict_set k (VList l) d).
Proof.
  unfold set_list_if. destruct (truthy v); [|intros [= <-]; by left].
  intros H. right. split; [done|].
  apply result_bind_Ok in H as (l & Hl & [= <-]).
  destruct v as [| | |s| |]; try done. simpl in Hl.
  apply result_bind_Ok in Hl as (l' & Hl' & [= <-]). by exists s, l'.
Qed.

(** The list a text of the form is read back to. *)
Lemma set_list_if_joined conv py_str (k : string) (l : list value) d d' :
  Forall (fun v => conv (py_str v) = Ok v
                   /\ py_str v <> EmptyString
                   /\ forall i,
                        String.get i (py_str v) <> Some ","%char
                        /\ String.get i (py_str v) <> Some " "%char) l ->
  set_list_if conv k (VStr (join_comma (map py_str l))) d = Ok d' ->
  d' = match l with [] => d | _ => dict_set k (VList l) d end.
Proof.
  intros Hl H. destruct l as [|v l].
  - by injection H as <-.
  - apply set_list_if_value in H as [[Hf _]|(_ & s & l' & Hs & Hl' & ->)].
    + apply Forall_cons in Hl as [(_ & Hv & _) _].
      simpl in Hf. apply negb_false_iff, String.eqb_eq in Hf.
      by apply join_comma_not_empty in Hf.
    + assert (s = join_comma (map py_str (v :: l))) as -> by congruence.
      clear Hs. rewrite split_join_comma in Hl'.
      * rewrite map_result_fmap in Hl'; [by injection Hl' as <-|].
        eapply Forall_impl; [done|]. by intros x (? & _).
      * done.
      * apply Forall_fmap. eapply Forall_impl; [done|]. by intros x (_ & _ & ?).
Qed.
Lemma append_layers_keeps_field {X} (field : ThemeForm.t -> X) layers f f' :
  (forall e f, field (ThemeForm.append_entry e f) = field f) ->
  append_layers layers f = Ok f' -> field f' = field f.
Proof.
  intros Hfield. revert f. induction layers as [|layer layers IH]; intros f.
  - by intros [= <-].
  - simpl. intros H. apply result_bind_Ok in H as (e & _ & H).
    by rewrite (IH _ H).
Qed.

Ltac field_kept :=
  lazymatch goal with
  | |- step_keeps ?field _ =>
      apply when_key_keeps; intros ? ? ? Hs;
      first
        [ by injection Hs as <-
        | apply result_bind_Ok in Hs as (? & _ & Hs);
          first [ by injection Hs as <-
                | by apply (append_layers_keeps_field field _ _ _
                              (fun _ _ => eq_refl)) in Hs ] ]
  end.

(** The step [n] of [create_form] alone decides a field that no other
    step assigns. *)
Ltac field_of_step n H field :=
  let f0 := fresh "f" in
  let f1 := fresh "f" in
  let H0 := fresh "Hbefore" in
  let H1 := fresh "Hstep" in
  apply (run_steps_split n) in H as (f0 & H0 & H);
  unfold create_form_steps in H, H0; cbn [take drop] in H, H0;
  rewrite run_steps_cons in H; apply result_bind_Ok in H as (f1 & H1 & H);
  apply (run_steps_keeps field) in H as ->; [|repeat constructor; field_kept];
  apply (run_steps_keeps field) in H0; [|repeat constructor; field_kept];
  unfold when_key in H1.

Lemma create_form_joined_fields py_str request_form th form :
  create_form py_str request_form (Some th) = Ok form ->
  (forall v, dict_get "additionalMouseCrs" th = Some v ->
             join_strs py_str v = Ok (ThemeForm.additionalMouseCrs form))
  /\ (forall v, dict_get "scales" th = Some v ->
                join_strs py_str v = Ok (ThemeForm.scales form))
  /\ (forall v, dict_get "printScales" th = Some v ->
                join_strs py_str v = Ok (ThemeForm.printScales form))
  /\ (forall v, dict_get "printResolutions" th = Some v ->
                join_strs py_str v = Ok (ThemeForm.printResolutions form))
  /\ (forall v, dict_get "searchProviders" th = Some v ->
                join_strs py_str v = Ok (ThemeForm.searchProviders form)).
Proof.
  unfold create_form. intros H. apply result_bind_Ok in H as (u & Hu & H).
  repeat split; intros v Hv.
  - field_of_step 7%nat H ThemeForm.additionalMouseCrs.
    rewrite Hv in Hstep. apply result_bind_Ok in Hstep as (s & -> & [= <-]).
    done.
  - field_of_step 8%nat H ThemeForm.scales.
    rewrite Hv in Hstep. apply result_bind_Ok in Hstep as (s & -> & [= <-]).
    done.
  - field_of_step 9%nat H ThemeForm.printScales.
    rewrite Hv in Hstep. apply result_bind_Ok in Hstep as (s & -> & [= <-]).
    done.
  - field_of_step 10%nat H ThemeForm.printResolutions.
    rewrite Hv in Hstep. apply result_bind_Ok in Hstep as (s & -> & [= <-]).
    done.
  - field_of_step 13%nat H ThemeForm.searchProviders.
    rewrite Hv in Hstep. apply result_bind_Ok in Hstep as (s & -> & [= <-]).
    done.
Qed.
(** X11: the lists of a theme survive the edit form.  When the form made
    from a theme is written back without a change, a list under "scales",
    "printScales" or "printResolutions" whose members [str] and [int]
    take to a text and back is in the written item as it was in the theme,
    unless it was empty: then the written item has lost the key.  A list
    of strings under "searchProviders" is written back as it was, the
    empty list too. *)
Theorem lists_survive_the_edit_form (py_int : string -> option Z)
    (py_str : value -> string) (request_form : ThemeForm.t) (th : theme)
    (form : ThemeForm.t) (item : theme) (k : string) (l : list value) :
  create_form py_str request_form (Some th) = Ok form ->
  build_item py_int form = Ok item ->
  dict_get k th = Some (VList l) ->
  (k ∈ ["scales"; "printScales"; "printResolutions"] ->
   Forall (fun v =>
             to_int py_int (py_str v) = Ok v
             /\ py_str v <> EmptyString
             /\ forall i, String.get i (py_str v) <> Some ","%char
                          /\ String.get i (py_str v) <> Some " "%char) l ->
   dict_get k item = match l with [] => None | _ => Some (VList l) end)
  /\ (k = "searchProviders" ->
      Forall (fun v =>
                VStr (py_str v) = v
                /\ py_str v <> EmptyString
                /\ forall i, String.get i (py_str v) <> Some ","%char
                             /\ String.get i (py_str v) <> Some " "%char) l ->
      dict_get k item = Some (VList l)).
Proof.
  intros Hform Hitem Hk.
  apply create_form_joined_fields in Hform
    as (_ & Hscales & HprintScales & HprintResolutions & Hsearch).
  unfold build_item in Hitem. cbv zeta in Hitem.
  apply result_bind_Ok in Hitem as (i1 & E1 & Hitem).
  apply result_bind_Ok in Hitem as (i2 & E2 & Hitem).
  apply result_bind_Ok in Hitem as (i3 & E3 & Hitem).
  apply result_bind_Ok in Hitem as (i4 & E4 & Hitem).
  injection Hitem as <-.
  split.
  - intros Hin Hl.
    apply elem_of_cons in Hin as [->|Hin];
      [|apply elem_of_cons in Hin as [->|Hin];
        [|apply list_elem_of_singleton in Hin as ->]].
    + apply Hscales in Hk. injection Hk as Hk. rewrite <- Hk in E1.
      apply (set_list_if_joined _ _ _ _ _ _ Hl) in E1.
      apply set_list_if_get in E2 as [l2 G2], E3 as [l3 G3], E4 as [l4 G4].
      subst i1. destruct l; item_lookup.
    + apply HprintScales in Hk. injection Hk as Hk. rewrite <- Hk in E2.
      apply (set_list_if_joined _ _ _ _ _ _ Hl) in E2.
      apply set_list_if_get in E1 as [l1 G1], E3 as [l3 G3], E4 as [l4 G4].
      subst i2. destruct l; item_lookup.
    + apply HprintResolutions in Hk. injection Hk as Hk. rewrite <- Hk in E3.
      apply (set_list_if_joined _ _ _ _ _ _ Hl) in E3.
      apply set_list_if_get in E1 as [l1 G1], E2 as [l2 G2], E4 as [l4 G4].
      subst i3. destruct l; item_lookup.
  - intros -> Hl.
    apply Hsearch in Hk. injection Hk as Hk. rewrite <- Hk in E4.
    apply (set_list_if_joined (fun s => Ok (VStr s))) in E4.
    + subst i4. destruct l; item_lookup.
    + eapply Forall_impl; [done|]. intros v (Hv & ?). split; [|done].
      by rewrite Hv.
Qed.
Lemma lists_survive_the_edit_form_witness :
  exists form item,
    create_form decimal_str sample_form (Some scaled_theme) = Ok form
    /\ build_item sample_int form = Ok item
    /\ dict_get "scales" item = Some (VList [VInt 1000; VInt 500]).
Proof.
  destruct (create_form decimal_str sample_form (Some scaled_theme))
    as [form|e] eqn:Hform; [|vm_compute in Hform; discriminate Hform].
  destruct (build_item sample_int form) as [item|e] eqn:Hitem.
  2:{ vm_compute in Hform. injection Hform as <-.
      vm_compute in Hitem. discriminate Hitem. }
  exists form, item. split; [reflexivity|]. split; [exact Hitem|].
  apply (proj1 (lists_survive_the_edit_form sample_int decimal_str
                  sample_form scaled_theme form item "scales"
                  [VInt 1000; VInt 500] Hform Hitem eq_refl)).
  - constructor.
  - constructor; [|constructor; [|constructor]];
      (split; [reflexivity|]; split; [vm_compute; discriminate|];
       vm_compute; intros i;
       do 5 (destruct i as [|i]; [split; discriminate|]);
       split; discriminate).
Defined.

(** X12: the additional mouse CRS does not survive the edit form.  The
    item is written with the text of the form field as it stands, not
    split into a list; the edit form made from such an item joins what
    iterating that text gives, its characters (each with all the bytes
    that encode it), so the field shows every character of the text set
    apart by a comma and a space. *)
Theorem additionalMouseCrs_is_spelled_out (py_int : string -> option Z)
    (py_str : value -> string) (form request_form edit_form : ThemeForm.t)
    (item : theme) (s : string) :
  build_item py_int form = Ok item ->
  ThemeForm.additionalMouseCrs form = VStr s ->
  s <> EmptyString ->
  create_form py_str request_form (Some item) = Ok edit_form ->
  dict_get "additionalMouseCrs" item = Some (VStr s)
  /\ ThemeForm.additionalMouseCrs edit_form
     = VStr (join_comma (map (fun c => py_str (VStr c)) (code_points s))).
Proof.
  intros Hitem Hs Hne Hform.
  assert (dict_get "additionalMouseCrs" item = Some (VStr s)) as Hget.
  { unfold build_item in Hitem. cbv zeta in Hitem.
    apply result_bind_Ok in Hitem as (i1 & E1 & Hitem).
    apply result_bind_Ok in Hitem as (i2 & E2 & Hitem).
    apply result_bind_Ok in Hitem as (i3 & E3 & Hitem).
    apply result_bind_Ok in Hitem as (i4 & E4 & Hitem).
    injection Hitem as <-.
    apply set_list_if_get in E1 as [l1 G1], E2 as [l2 G2], E3 as [l3 G3],
      E4 as [l4 G4].
    rewrite Hs in *.
    item_lookup. by destruct (String.eqb_spec s EmptyString). }
  split; [done|].
  apply create_form_joined_fields in Hform as (Hcrs & _).
  specialize (Hcrs _ Hget). unfold join_strs in Hcrs. simpl in Hcrs.
  injection Hcrs as <-. by rewrite map_map.
Qed.

Lemma additionalMouseCrs_is_spelled_out_witness :
  exists item edit_form,
    build_item sample_int
      (ThemeForm.set_additionalMouseCrs (VStr "Zürich:2056") sample_form)
    = Ok item
    /\ create_form sample_str sample_form (Some item) = Ok edit_form
    /\ dict_get "additionalMouseCrs" item = Some (VStr "Zürich:2056")
    /\ ThemeForm.additionalMouseCrs edit_form
       = VStr "Z, ü, r, i, c, h, :, 2, 0, 5, 6".
Proof.
  destruct (build_item sample_int
              (ThemeForm.set_additionalMouseCrs (VStr "Zürich:2056") sample_form))
    as [item|e] eqn:Hitem; [|vm_compute in Hitem; discriminate Hitem].
  destruct (create_form sample_str sample_form (Some item))
    as [edit_form|e] eqn:Hform.
  2:{ vm_compute in Hitem. injection Hitem as <-.
      vm_compute in Hform. discriminate Hform. }
  exists item, edit_form. split; [reflexivity|]. split; [exact Hform|].
  apply (additionalMouseCrs_is_spelled_out sample_int sample_str
           (ThemeForm.set_additionalMouseCrs (VStr "Zürich:2056") sample_form)
           sample_form edit_form item "Zürich:2056" Hitem eq_refl);
    [discriminate|exact Hform].
Defined.

(** ** The edit form of a written item *)

Lemma run_steps_total steps f :
  Forall (fun step => forall f, exists f', step f = Ok f') steps ->
  exists f', run_steps steps f = Ok f'.
Proof.
  intros Hsteps. revert f.
  induction Hsteps as [|step steps Hstep _ IH]; intros f.
  - by exists f.
  - rewrite run_steps_cons. destruct (Hstep f) as [f1 ->]. apply IH.
Qed.

Lemma append_layers_layer_items (ls : list BackgroundLayersForm.t) f :
  exists f',
    append_layers (map layer_item ls) f = Ok f'
    /\ ThemeForm.backgroundLayers f' = ThemeForm.backgroundLayers f ++ ls.
Proof.
  revert f. induction ls as [|[n p v] ls IH]; intros f; simpl.
  - exists f. by rewrite app_nil_r.
  - destruct (IH (ThemeForm.append_entry (BackgroundLayersForm.mk n p v) f))
      as (f' & -> & Hf').
    exists f'. split; [done|]. rewrite Hf'. simpl. by rewrite <- app_assoc.
Qed.

Lemma build_item_iterables py_int form item :
  build_item py_int form = Ok item ->
  (forall k v, k ∈ ["scales"; "printScales"; "printResolutions";
                    "searchProviders"] ->
               dict_get k item = Some v -> exists l, v = VList l)
  /\ dict_get "additionalMouseCrs" item
     = (if truthy (ThemeForm.additionalMouseCrs form)
        then Some (ThemeForm.additionalMouseCrs form) else None)
  /\ dict_get "backgroundLayers" item
     = Some (VList (map layer_item (ThemeForm.backgroundLayers form))).
Proof.
  unfold build_item. cbv zeta. intros H.
  apply result_bind_Ok in H as (i1 & E1 & H).
  apply result_bind_Ok in H as (i2 & E2 & H).
  apply result_bind_Ok in H as (i3 & E3 & H).
  apply result_bind_Ok in H as (i4 & E4 & H).
  injection H as <-.
  split; [|split].
  - intros k v Hk.
    apply elem_of_cons in Hk as [->|Hk];
      [|apply elem_of_cons in Hk as [->|Hk];
        [|apply elem_of_cons in Hk as [->|Hk];
          [|apply list_elem_of_singleton in Hk as ->]]].
    + apply set_list_if_value in E1
        as [[T1 ->]|(T1 & s1 & l1 & _ & _ & ->)];
        apply set_list_if_get in E2 as [l2 G2], E3 as [l3 G3], E4 as [l4 G4];
        item_lookup; intros [= <-]; eauto.
    + apply set_list_if_value in E2
        as [[T2 ->]|(T2 & s2 & l2 & _ & _ & ->)];
        apply set_list_if_get in E1 as [l1 G1], E3 as [l3 G3], E4 as [l4 G4];
        item_lookup; intros [= <-]; eauto.
    + apply set_list_if_value in E3
        as [[T3 ->]|(T3 & s3 & l3 & _ & _ & ->)];
        apply set_list_if_get in E1 as [l1 G1], E2 as [l2 G2], E4 as [l4 G4];
        item_lookup; intros [= <-]; eauto.
    + apply set_list_if_value in E4
        as [[T4 ->]|(T4 & s4 & l4 & _ & _ & ->)];
        apply set_list_if_get in E1 as [l1 G1], E2 as [l2 G2], E3 as [l3 G3];
        item_lookup; intros [= <-]; eauto.
  - apply set_list_if_get in E1 as [l1 G1], E2 as [l2 G2], E3 as [l3 G3],
      E4 as [l4 G4].
    item_lookup.
  - apply set_list_if_get in E1 as [l1 G1], E2 as [l2 G2], E3 as [l3 G3],
      E4 as [l4 G4].
    item_lookup.
Qed.
Lemma when_key_total k th assign :
  (forall v, dict_get k th = Some v ->
             forall f, exists f', assign v f = Ok f') ->
  forall f, exists f', when_key k th assign f = Ok f'.
Proof.
  intros Hassign f. unfold when_key.
  destruct (dict_get k th) as [v|] eqn:Hv; [by apply Hassign|by exists f].
Qed.

(** X13: an item written from a form whose additional mouse CRS is text,
    or empty, can be opened again: the edit form made from the item is
    built without an exception, with the url of the item and with the
    background layers of the form the item was written from. *)
Theorem written_item_opens_in_edit_form (py_int : string -> option Z)
    (py_str : value -> string) (form request_form : ThemeForm.t)
    (item : theme) :
  build_item py_int form = Ok item ->
  (truthy (ThemeForm.additionalMouseCrs form) = true ->
   exists s, ThemeForm.additionalMouseCrs form = VStr s) ->
  exists edit_form,
    create_form py_str request_form (Some item) = Ok edit_form
    /\ ThemeForm.url edit_form = ThemeForm.url form
    /\ ThemeForm.backgroundLayers edit_form = ThemeForm.backgroundLayers form.
Proof.
  intros Hitem Hcrs.
  pose proof (build_item_url _ _ _ Hitem) as Hurl.
  apply build_item_iterables in Hitem as (Hlists & Hmouse & Hlayers).
  unfold create_form, dict_getitem. rewrite Hurl. simpl.
  rewrite <- (take_drop 14 (create_form_steps py_str item)).
  rewrite run_steps_app.
  destruct (run_steps_total (take 14 (create_form_steps py_str item))
              (ThemeForm.new (ThemeForm.url form))) as [f Hf].
  { unfold create_form_steps. cbn [take].
    assert (forall k v (f : ThemeForm.t)
                   (set : value -> ThemeForm.t -> ThemeForm.t),
              k ∈ ["scales"; "printScales"; "printResolutions";
                   "searchProviders"] ->
              dict_get k item = Some v ->
              exists f', (s ← join_strs py_str v; Ok (set s f)) = Ok f')
      as Hjoin.
    { intros k v f set Hk Hv. destruct (Hlists k v Hk Hv) as [l ->].
      by eexists. }
    repeat constructor; apply when_key_total; intros v Hv f;
      try (by eexists);
      try (eapply Hjoin; [|done]; apply list_elem_of_In; simpl; tauto).
    rewrite Hmouse in Hv.
    destruct (truthy (ThemeForm.additionalMouseCrs form)); [|done].
    injection Hv as <-. destruct Hcrs as [s ->]; [done|]. by eexists. }
  rewrite Hf. simpl.
  pose proof Hf as Hkept.
  apply (run_steps_keeps ThemeForm.url) in Hf;
    [|unfold create_form_steps; cbn [take]; repeat constructor; field_kept].
  apply (run_steps_keeps ThemeForm.backgroundLayers) in Hkept;
    [|unfold create_form_steps; cbn [take]; repeat constructor; field_kept].
  unfold create_form_steps. cbn [drop].
  rewrite run_steps_cons. unfold when_key. rewrite Hlayers. simpl.
  destruct (append_layers_layer_items (ThemeForm.backgroundLayers form) f)
    as (f' & Happend & Hf').
  rewrite Happend. simpl. exists f'. split; [done|]. split.
  - apply (append_layers_keeps_field ThemeForm.url) in Happend; [|done].
    by rewrite Happend, Hf.
  - by rewrite Hf', Hkept.
Qed.

Lemma written_item_opens_in_edit_form_witness :
  exists edit_form,
    create_form sample_str sample_form
      (Some [("url", VStr "/maps/harbour"); ("title", VStr "Harbour");
             ("attribution", VStr EmptyString); ("default", VBool false);
             ("scales", VList [VInt 1000; VInt 500]);
             ("skipEmptyFeatureAttributes", VBool false);
             ("searchProviders", VList []);
             ("backgroundLayers", VList [])])
    = Ok edit_form
    /\ ThemeForm.url edit_form = VStr "/maps/harbour"
    /\ ThemeForm.backgroundLayers edit_form = [].
Proof.
  apply (written_item_opens_in_edit_form sample_int sample_str sample_form
           sample_form _ eq_refl).
  discriminate.
Defined.

(** ** The list of themes *)

Lemma item_name_dict (th : theme) :
  item_name (VDict th)
  = Ok (default (default (VStr EmptyString) (dict_get "url" th))
                (dict_get "title" th)).
Proof.
  unfold item_name. simpl.
  by destruct (dict_get "url" th), (dict_get "title" th).
Qed.

Lemma map_result_item_names (its : list theme) :
  map_result item_name (map VDict its)
  = Ok (map (fun th => default (default (VStr EmptyString) (dict_get "url" th))
                               (dict_get "title" th)) its).
Proof.
  induction its as [|th its IH]; [done|].
  simpl map. cbn [map_result]. by rewrite item_name_dict, IH.
Qed.

Lemma group_listing_dict (g : list (string * value)) (gi : list theme) :
  dict_get "items" g = Some (VList (map VDict gi)) ->
  group_listing (VDict g)
  = Ok {| entry_title := default (VStr EmptyString) (dict_get "title" g);
          entry_items :=
            map (fun th => default (default (VStr EmptyString)
                                      (dict_get "url" th))
                                   (dict_get "title" th)) gi |}.
Proof.
  intros Hitems. unfold group_listing, dict_getitem. simpl.
  rewrite Hitems. simpl. rewrite map_result_item_names. simpl.
  by destruct (dict_get "title" g).
Qed.

(** X14: the themes list shows every theme of the file, in the order of
    the file: one name for each item of the flat list and, group after
    group, the group's title (the empty string without one) with one name
    for each of its items; the name is the title of the item, or without
    a "title" key its url, or without that the empty string.  A file
    whose "themes" has neither list gives the empty list, and a file
    without "themes" gives no response at all. *)
Theorem themes_index_lists_every_theme (kv th : list (string * value))
    (its : list theme) (gs : list (list (string * value) * list theme)) :
  let name := fun item : theme =>
    default (default (VStr EmptyString) (dict_get "url" item))
            (dict_get "title" item) in
  (dict_get "themes" kv = Some (VDict th) ->
   dict_get "items" th = Some (VList (map VDict its)) ->
   dict_get "groups" th = Some (VList (map (fun g => VDict g.1) gs)) ->
   Forall (fun g => dict_get "items" g.1 = Some (VList (map VDict g.2))) gs ->
   themes_index (VDict kv)
   = Ok (RenderIndex
           {| listing_items := map name its;
              listing_groups :=
                map (fun g =>
                       {| entry_title :=
                            default (VStr EmptyString) (dict_get "title" g.1);
                          entry_items := map name g.2 |}) gs |}))
  /\ (dict_get "themes" kv = Some (VDict th) ->
      dict_get "items" th = None -> dict_get "groups" th = None ->
      themes_index (VDict kv)
      = Ok (RenderIndex {| listing_items := []; listing_groups := [] |}))
  /\ (kv <> [] -> dict_get "themes" kv = None ->
      themes_index (VDict kv) = Ok NoResponse)
  /\ themes_index VNone = Ok RedirectRoot
  /\ themes_index (VDict []) = Ok RedirectRoot.
Proof.
  intros name. repeat split.
  - intros Hthemes Hitems Hgroups Hgs.
    unfold themes_index. destruct kv as [|p kv]; [done|].
    cbn [truthy negb]. rewrite Hthemes, Hitems, Hgroups. simpl.
    rewrite map_result_item_names. simpl.
    assert (map_result group_listing (map (fun g => VDict g.1) gs)
            = Ok (map (fun g =>
                         {| entry_title :=
                              default (VStr EmptyString)
                                      (dict_get "title" g.1);
                            entry_items := map name g.2 |}) gs)) as ->.
    { clear Hgroups. induction Hgs as [|[g gi] gs Hg _ IH]; [done|].
      cbn [map map_result fst snd] in *.
      by rewrite (group_listing_dict _ _ Hg), IH. }
    done.
  - intros Hthemes Hitems Hgroups.
    unfold themes_index. destruct kv as [|p kv]; [done|].
    cbn [truthy negb]. by rewrite Hthemes, Hitems, Hgroups.
  - intros Hkv Hthemes.
    unfold themes_index. destruct kv as [|p kv]; [done|].
    cbn [truthy negb]. by rewrite Hthemes.
Qed.
Lemma themes_index_lists_every_theme_witness :
  themes_index (VDict listed_config)
  = Ok (RenderIndex
          {| listing_items := [VStr "A"; VStr "/maps/b"];
             listing_groups :=
               [ {| entry_title := VStr "first";
                    entry_items := [VStr "/maps/c"] |} ] |}).
Proof.
  refine (proj1 (themes_index_lists_every_theme listed_config listed_themes
                   listed_items listed_groups) eq_refl eq_refl eq_refl _).
  repeat constructor.
Defined.

(** ** The new-theme form *)

(** X15: the new-theme form is filled from the theme [find_theme] gives
    for index 0 of the flat list or, when the flat list is empty, for
    index 0 of the first group; no later group counts, so with an empty
    flat list and an empty first group the blank form is rendered.  The
    request renders the form and leaves the state alone whenever the form
    can be made from that theme, and ends with [KeyError] for a theme
    without a url. *)
Theorem new_theme_fills_from_first_theme (py_str : value -> string)
    (request_form : ThemeForm.t) (gid : option Z) (st : app_state) :
  let d := themesconfig st in
  new_theme_default d
  = match find_theme 0 None d with
    | Some th => Some th
    | None => find_theme 0 (Some 0) d
    end
  /\ (new_theme_default d = None ->
      new_theme py_str request_form gid st
      = (Ok (Render "themes/form.html"), st))
  /\ (forall th form,
        new_theme_default d = Some th ->
        create_form py_str request_form (Some th) = Ok form ->
        new_theme py_str request_form gid st
        = (Ok (Render "themes/form.html"), st))
  /\ (forall th,
        new_theme_default d = Some th -> dict_get "url" th = None ->
        new_theme py_str request_form gid st = (Raise (KeyError "url"), st)).
Proof.
  intros d. repeat split.
  - unfold new_theme_default, find_theme. simpl.
    destruct (items d) as [|th l]; [|done]. simpl.
    destruct (groups d) as [|g gs]; [done|]. simpl.
    by destruct (group_items g).
  - intros Hnone. unfold new_theme.
    unfold mbind, handler_bind, get_doc, lift. fold d. by rewrite Hnone.
  - intros th form Hth Hform. unfold new_theme.
    unfold mbind, handler_bind, get_doc, lift. fold d. by rewrite Hth, Hform.
  - intros th Hth Hurl. unfold new_theme.
    unfold mbind, handler_bind, get_doc, lift. fold d. rewrite Hth.
    unfold create_form, dict_getitem. by rewrite Hurl.
Qed.

Lemma new_theme_fills_from_first_theme_witness :
  new_theme_default sample_doc = Some (sample_theme "/maps/a")
  /\ new_theme sample_str sample_form None sample_state
     = (Ok (Render "themes/form.html"), sample_state).
Proof.
  destruct (new_theme_fills_from_first_theme sample_str sample_form None
              sample_state) as (Hdefault & _ & Hrender & _).
  split; [exact Hdefault|].
  exact (Hrender (sample_theme "/maps/a") (ThemeForm.new (VStr "/maps/a"))
           eq_refl eq_refl).
Defined.

(** ** Parent links that form a cycle *)

Lemma find_root_never_ends (db : list Resource.t) (P : Resource.t -> Prop)
    (r : Resource.t) (steps : nat) :
  (forall x, P x -> exists p, parent db x = Some p /\ P p) ->
  P r -> find_root steps db r = None.
Proof.
  intros HP. revert r. induction steps as [|n IH]; intros r Hr; simpl;
    destruct (HP r Hr) as (p & -> & Hp); [done|by apply IH].
Qed.

(** X16: the hierarchy view does not return for a resource on a cycle of
    parent links.  When the resource belongs to a set of resources each of
    which has its parent in the set (a resource that is its own parent,
    two resources that are each other's parent, ...), the loop to the
    root is still running after any number of iterations. *)
Theorem hierarchy_never_returns_on_a_cycle (P : Resource.t -> Prop)
    (st : app_state) (id : Z) (r : Resource.t) (steps depth_limit : nat) :
  (forall x, P x -> exists p, parent (resources st) x = Some p /\ P p) ->
  find_resource id (resources st) = Some r ->
  P r ->
  hierarchy steps depth_limit id st = None.
Proof.
  intros HP Hr HPr. unfold hierarchy. rewrite Hr.
  by rewrite (find_root_never_ends _ P r steps HP HPr).
Qed.

Lemma hierarchy_never_returns_on_a_cycle_witness :
  hierarchy 100 100 1 looped_state = None.
Proof.
  apply (hierarchy_never_returns_on_a_cycle (fun x => x ∈ looped_resources)
           looped_state 1 (Resource.mk 1 "map" "city" (Some 2)) 100 100).
  - intros x Hx. unfold looped_resources in Hx.
    apply elem_of_cons in Hx as [->|Hx];
      [|apply list_elem_of_singleton in Hx as ->];
      eexists; (split; [reflexivity|]);
      apply list_elem_of_In; simpl; tauto.
  - reflexivity.
  - apply list_elem_of_In; simpl; tauto.
Defined.

Lemma destroy_children_exn n db (cs : list Resource.t) s e :
  (forall c s e, destroy_resource_cascaded n db c s = Raise e ->
                 e = RecursionError) ->
  foldl (fun acc child =>
           session ← acc; destroy_resource_cascaded n db child session)
        (Ok s) cs = Raise e ->
  e = RecursionError.
Proof.
  intros Hn. revert e.
  induction cs as [|c cs IH] using rev_ind; intros e; [done|].
  rewrite foldl_app. simpl.
  destruct (foldl _ (Ok s) cs) as [s'|e'] eqn:Hcs; simpl.
  - apply Hn.
  - intros [= <-]. by apply IH.
Qed.

Lemma destroy_resource_cascaded_exn n db r s e :
  destroy_resource_cascaded n db r s = Raise e -> e = RecursionError.
Proof.
  revert r s e. induction n as [|n IH]; intros r s e; simpl;
    [by intros [= <-]|].
  destruct (foldl _ (Ok s) (children db r)) as [s'|e'] eqn:Hcs; simpl;
    [done|].
  intros [= <-]. by eapply destroy_children_exn.
Qed.

Lemma foldl_result_Raise {A B} (f : A -> B -> result A) (l : list B) (e : exn) :
  foldl (fun acc x => a ← acc; f a x) (Raise e) l = Raise e.
Proof. induction l as [|x l IH]; [done|apply IH]. Qed.

(** X17: the cascade delete of a resource on a cycle of child links never
    comes to an end by itself: when the resource belongs to a set of
    resources each of which has a child in the set, the recursion runs
    into the limit of nested calls, however high the limit is. *)
Theorem cascade_delete_overflows_on_a_cycle (P : Resource.t -> Prop)
    (db : list Resource.t) (r : Resource.t) (depth_limit : nat)
    (session : list Resource.t) :
  (forall x, P x -> exists c, c ∈ children db x /\ P c) ->
  P r ->
  destroy_resource_cascaded depth_limit db r session = Raise RecursionError.
Proof.
  intros HP. revert r session.
  induction depth_limit as [|n IH]; intros r s Hr; simpl; [done|].
  destruct (HP r Hr) as (c & Hc & HPc).
  apply list_elem_of_split in Hc as (cs1 & cs2 & ->).
  rewrite foldl_app. simpl.
  destruct (foldl _ (Ok s) cs1) as [s1|e] eqn:Hcs1; simpl.
  - rewrite (IH c s1 HPc). simpl. by rewrite foldl_result_Raise.
  - rewrite foldl_result_Raise. simpl. f_equal.
    eapply destroy_children_exn; [|done].
    intros ? ? ?. apply destroy_resource_cascaded_exn.
Qed.
Lemma cascade_delete_overflows_on_a_cycle_witness :
  destroy_resource_cascaded 100 looped_resources
    (Resource.mk 1 "map" "city" (Some 2)) []
  = Raise RecursionError.
Proof.
  apply (cascade_delete_overflows_on_a_cycle (fun x => x ∈ looped_resources)).
  - intros x Hx. unfold looped_resources in Hx.
    apply elem_of_cons in Hx as [->|Hx];
      [exists (Resource.mk 2 "layer" "roads" (Some 1))
      |apply list_elem_of_singleton in Hx as ->;
       exists (Resource.mk 1 "map" "city" (Some 2))];
      split; apply list_elem_of_In; simpl; tauto.
  - apply list_elem_of_In; simpl; tauto.
Defined.

(** ** Resources written from the form *)

Lemma find_resource_map (upd : Resource.t -> Resource.t) id db :
  (forall r, Resource.id (upd r) = Resource.id r) ->
  find_resource id (map upd db) = upd <$> find_resource id db.
Proof.
  intros Hupd. unfold find_resource, query_first.
  induction db as [|x db IH]; [done|]. simpl.
  destruct (decide (Resource.id x = id)) as [Hx|Hx].
  - rewrite !filter_cons_True by (by rewrite ?Hupd). done.
  - rewrite !filter_cons_False by (by rewrite ?Hupd). done.
Qed.

Lemma find_resource_elem (id : Z) (db : list Resource.t) (r : Resource.t) :
  r ∈ db -> Resource.id r = id ->
  exists r0, find_resource id db = Some r0 /\ Resource.id r0 = id.
Proof.
  intros Hr Hid. unfold find_resource, query_first.
  induction db as [|x db IH]; [by apply elem_of_nil in Hr|].
  destruct (decide (Resource.id x = id)) as [Hx|Hx].
  - rewrite filter_cons_True by done. by exists x.
  - rewrite filter_cons_False by done. apply IH.
    apply elem_of_cons in Hr as [->|Hr]; [done|done].
Qed.

(** X18: nothing in the update of a resource keeps it out of its own
    ancestors.  Written from a form whose parent is the resource itself,
    the resource is its own parent in the table the session holds, and
    once that table is committed its hierarchy view never returns. *)
Theorem update_can_make_a_resource_its_own_parent (form : ResourceForm.t)
    (db : list Resource.t) (r : Resource.t) :
  r ∈ db ->
  0 < Resource.id r ->
  ResourceForm.parent_id form = Some (Resource.id r) ->
  let db' := create_or_update_resources (Some r) form db in
  exists r',
    find_resource (Resource.id r) db' = Some r'
    /\ Resource.type r' = ResourceForm.type form
    /\ Resource.name r' = ResourceForm.name form
    /\ parent db' r' = Some r'
    /\ forall st steps depth_limit,
         resources st = db' ->
         hierarchy steps depth_limit (Resource.id r) st = None.
Proof.
  intros Hr Hid Hparent db'.
  destruct (find_resource_elem (Resource.id r) db r Hr eq_refl)
    as (r0 & Hr0 & Hid0).
  set (upd := fun x : Resource.t =>
                if decide (Resource.id x = Resource.id r) then
                  {| Resource.id := Resource.id x;
                     Resource.type := ResourceForm.type form;
                     Resource.name := ResourceForm.name form;
                     Resource.parent_id := Some (Resource.id r) |}
                else x).
  assert (db' = map upd db) as Hdb'.
  { unfold db', create_or_update_resources. rewrite Hparent.
    by rewrite decide_True by lia. }
  clearbody db'. subst db'.
  assert (forall x, Resource.id (upd x) = Resource.id x) as Hupd.
  { intros x. unfold upd. by destruct (decide _). }
  set (db' := map upd db).
  assert (find_resource (Resource.id r) db' = Some (upd r0)) as Hfind.
  { unfold db'. by rewrite (find_resource_map _ _ _ Hupd), Hr0. }
  assert (upd r0 = {| Resource.id := Resource.id r;
                      Resource.type := ResourceForm.type form;
                      Resource.name := ResourceForm.name form;
                      Resource.parent_id := Some (Resource.id r) |}) as Hr'.
  { unfold upd. rewrite decide_True by done. by rewrite Hid0. }
  assert (parent db' (upd r0) = Some (upd r0)) as Hloop.
  { unfold parent. rewrite Hr' at 1. simpl. done. }
  exists (upd r0). split; [done|]. rewrite Hr' at 1 2. split; [done|].
  split; [done|]. split; [done|].
  intros st steps depth_limit Hst. unfold hierarchy. rewrite Hst, Hfind.
  rewrite (find_root_never_ends db' (fun x => x = upd r0) (upd r0) steps);
    [done| |done].
  intros x ->. by exists (upd r0).
Qed.

Lemma update_can_make_a_resource_its_own_parent_witness :
  exists r',
    find_resource 3
      (create_or_update_resources
         (Some (Resource.mk 3 "layer" "buildings" (Some 1)))
         (ResourceForm.mk "layer" "buildings" (Some 3) [] [] [])
         sample_resources) = Some r'
    /\ parent
         (create_or_update_resources
            (Some (Resource.mk 3 "layer" "buildings" (Some 1)))
            (ResourceForm.mk "layer" "buildings" (Some 3) [] [] [])
            sample_resources) r' = Some r'.
Proof.
  destruct (update_can_make_a_resource_its_own_parent
              (ResourceForm.mk "layer" "buildings" (Some 3) [] [] [])
              sample_resources (Resource.mk 3 "layer" "buildings" (Some 1)))
    as (r' & Hfind & _ & _ & Hparent & _).
  - apply list_elem_of_In; simpl; tauto.
  - reflexivity.
  - reflexivity.
  - exists r'. split; [exact Hfind|exact Hparent].
Defined.
(** X19: a create keeps the table a forest.  In a table whose keys are
    unique, whose parent links lead to rows of the table and climb no
    cycle, the row a create adds, under a parent of the table or under
    none, leaves the keys unique and the parent links without a cycle:
    the new row is one level below its parent, and every other row stays
    at its level. *)
Theorem create_keeps_the_forest (form : ResourceForm.t)
    (db : list Resource.t) (level : Z -> nat) (bound : nat) :
  forest db level bound ->
  (forall x p, x ∈ db -> Resource.parent_id x = Some p ->
               p ∈ map Resource.id db) ->
  (forall p, ResourceForm.parent_id form = Some p -> p > 0 ->
             p ∈ map Resource.id db) ->
  let db' := create_or_update_resources None form db in
  exists level',
    forest db' level' (S bound)
    /\ (forall x, x ∈ db -> level' (Resource.id x) = level (Resource.id x))
    /\ db' = db ++ [ {| Resource.id := fresh_id db;
                        Resource.type := ResourceForm.type form;
                        Resource.name := ResourceForm.name form;
                        Resource.parent_id :=
                          match ResourceForm.parent_id form with
                          | Some p => if decide (p > 0) then Some p else None
                          | None => None
                          end |} ].
Proof.
  intros [Hids Hlevel Hbound] Hclosed Hform db'.
  unfold create_or_update_resources in db'.
  set (par := match ResourceForm.parent_id form with
              | Some p => if decide (p > 0) then Some p else None
              | None => None
              end) in *.
  set (new := {| Resource.id := fresh_id db;
                 Resource.type := ResourceForm.type form;
                 Resource.name := ResourceForm.name form;
                 Resource.parent_id := par |}) in *.
  assert (forall p, par = Some p -> p ∈ map Resource.id db) as Hpar.
  { intros p. unfold par. destruct (ResourceForm.parent_id form) as [q|];
      [|done].
    destruct (decide (q > 0)); [|done]. intros [= <-]. by apply Hform. }
  assert (forall i, i ∈ map Resource.id db -> i <> fresh_id db) as Hfresh.
  { intros i Hi ->. apply elem_of_map in Hi as (x & Hx & Hin).
    apply fresh_id_above in Hin. lia. }
  assert (forall i, i ∈ map Resource.id db -> (level i <= bound)%nat) as Hb.
  { intros i Hi. apply elem_of_map in Hi as (x & -> & Hin). by apply Hbound. }
  exists (fun i => if decide (i = fresh_id db) then
                     match par with Some p => S (level p) | None => O end
                   else level i).
  split; [split|split; [|done]].
  - unfold db'. rewrite map_app. apply NoDup_app. split; [done|].
    split; [|apply NoDup_singleton].
    intros i Hi Hnew. apply list_elem_of_singleton in Hnew.
    by apply (Hfresh i).
  - intros p c (Hp & Hc & Hpc). unfold db' in Hp, Hc.
    apply elem_of_app in Hc as [Hc|Hc].
    + pose proof (Hclosed c _ Hc Hpc) as Hidp.
      apply elem_of_app in Hp as [Hp|Hp].
      * rewrite !decide_False.
        -- by apply Hlevel.
        -- apply Hfresh. apply elem_of_map. by exists c.
        -- by apply Hfresh.
      * apply list_elem_of_singleton in Hp as ->. by apply Hfresh in Hidp.
    + apply list_elem_of_singleton in Hc as ->. simpl in Hpc.
      rewrite (decide_True (P := fresh_id db = fresh_id db)) by done.
      rewrite Hpc. rewrite decide_False by (apply Hfresh; by apply Hpar).
      lia.
  - intros x Hx. unfold db' in Hx. apply elem_of_app in Hx as [Hx|Hx].
    + rewrite decide_False.
      * specialize (Hbound x Hx). lia.
      * apply Hfresh. apply elem_of_map. by exists x.
    + apply list_elem_of_singleton in Hx as ->. simpl.
      rewrite decide_True by done.
      destruct par as [p|] eqn:Hp; [|lia].
      specialize (Hb p (Hpar p eq_refl)). lia.
  - intros x Hx. rewrite decide_False; [done|].
    apply Hfresh. apply elem_of_map. by exists x.
Qed.
Lemma create_keeps_the_forest_witness :
  exists level',
    forest (sample_resources ++ [Resource.mk 6 "layer" "rivers" (Some 1)])
      level' 3.
Proof.
  destruct (create_keeps_the_forest layer_form sample_resources sample_level
              2 sample_forest) as (level' & Hforest & _).
  - intros x p Hx Hp. unfold sample_resources in Hx.
    repeat (apply elem_of_cons in Hx as [->|Hx];
            [simpl in Hp; try discriminate Hp; injection Hp as <-;
             apply list_elem_of_In; simpl; tauto|]).
    by apply elem_of_nil in Hx.
  - intros p [= <-] _. apply list_elem_of_In; simpl; tauto.
  - exists level'. exact Hforest.
Defined.

(** ** An import run twice *)

Lemma new_names_of_imported (names existing : list string) :
  new_names names (existing ++ new_names names existing) = [].
Proof.
  destruct (new_names names (existing ++ new_names names existing))
    as [|x l] eqn:E; [done|].
  destruct (new_names_spec names (existing ++ new_names names existing))
    as (Hin & _).
  destruct (Hin x) as [Hx _]. rewrite E in Hx.
  destruct Hx as [Hx Hnot]; [left|]. exfalso. apply Hnot.
  apply elem_of_app.
  destruct (decide (x ∈ existing)) as [|Hex]; [by left|right].
  by apply new_names_spec.
Qed.

Lemma names_after_add (P : Resource.t -> Prop) `{forall r, Decision (P r)}
    (db added : list Resource.t) :
  Forall P added ->
  map Resource.name (filter P (db ++ added))
  = map Resource.name (filter P db) ++ map Resource.name added.
Proof.
  intros Hadded. rewrite filter_app, map_app. f_equal. f_equal.
  apply filter_all. by apply Forall_forall.
Qed.

Lemma import_maps_accepted env st url names :
  config_generator_service_url env = Some url ->
  commit env = Committed ->
  service_get env "maps" = Reply 200 (inr names) ->
  import_maps env st
  = (Ok (Redirect "resources" [("type", "map")]),
     match new_names names
             (map Resource.name
                (filter (fun r => Resource.type r = "map") (resources st)))
     with
     | [] => (flash "No additional maps found." "info" st).2
     | n :: ns =>
         (flash (pretty (length (n :: ns)) +:+ " new maps have been added.")
            "success"
            (put_resources (add_resources "map" None (n :: ns) (resources st))
               st).2).2
     end).
Proof.
  intros Hurl Hcommit Hmaps. unfold import_maps. rewrite Hurl, Hmaps.
  destruct (decide (200 <> 200)) as [|_]; [done|].
  unfold mbind at 1, handler_bind at 1, get_resources.
  destruct (new_names names _) as [|n ns]; [done|]. by rewrite Hcommit.
Qed.

Lemma import_layers_accepted env map_resource st l ls :
  commit env = Committed ->
  service_get env ("maps/" +:+ Resource.name map_resource)
    = Reply 200 (inr (l :: ls)) ->
  import_layers env map_resource st
  = (Ok tt,
     match new_names (l :: ls)
             (map Resource.name
                (filter (fun r => Resource.type r = "layer"
                                  /\ Resource.parent_id r
                                     = Some (Resource.id map_resource))
                        (resources st)))
     with
     | [] => (flash "No additional layers found." "info" st).2
     | n :: ns =>
         (flash (pretty (length (n :: ns)) +:+ " new layers have been added.")
            "success"
            (put_resources
               (add_resources "layer" (Some (Resource.id map_resource))
                  (n :: ns) (resources st)) st).2).2
     end).
Proof.
  intros Hcommit Hlayers. unfold import_layers. rewrite Hlayers.
  destruct (decide (200 <> 200)) as [|_]; [done|].
  unfold mbind at 1, handler_bind at 1, get_resources.
  destruct (new_names (l :: ls) _) as [|n ns]; [done|]. by rewrite Hcommit.
Qed.

(** X20: an import run a second time adds nothing.  After an import of
    maps with the commit accepted, the same answer of the config service
    holds no name that is not a map of the table: the second import
    leaves the table as the first left it and flashes that no additional
    maps were found; likewise a second import of the layers of a map
    leaves the table alone. *)
Theorem import_twice_adds_nothing (env : environment) (st : app_state)
    (url : string) (names layers : list string) (map_resource : Resource.t) :
  config_generator_service_url env = Some url ->
  commit env = Committed ->
  service_get env "maps" = Reply 200 (inr names) ->
  service_get env ("maps/" +:+ Resource.name map_resource)
    = Reply 200 (inr layers) ->
  (let st1 := (import_maps env st).2 in
   import_maps env st1
   = (Ok (Redirect "resources" [("type", "map")]),
      (flash "No additional maps found." "info" st1).2))
  /\ (let st1 := (import_layers env map_resource st).2 in
      resources (import_layers env map_resource st1).2 = resources st1).
Proof.
  intros Hurl Hcommit Hmaps Hlayers. split.
  - intros st1. rewrite (import_maps_accepted env st1 url names) by done.
    f_equal.
    assert (new_names names
              (map Resource.name
                 (filter (fun r => Resource.type r = "map") (resources st1)))
            = []) as ->; [|done].
    unfold st1. rewrite (import_maps_accepted env st url names) by done.
    cbn [snd].
    destruct (new_names names
                (map Resource.name (filter _ (resources st))))
      as [|n ns] eqn:Hnew;
      unfold flash, put_resources; cbn [snd resources]; [done|].
    destruct (add_resources_app "map" None (n :: ns) (resources st))
      as (added & -> & Hnames & Hadded).
    rewrite names_after_add
      by (eapply Forall_impl; [done|]; by intros r [? _]).
    rewrite Hnames, <- Hnew. by rewrite new_names_of_imported.
  - intros st1. destruct layers as [|l ls].
    { assert (forall st0, import_layers env map_resource st0
                          = flash "No layers found for this map." "warning"
                              st0) as Hnone.
      { intros st0. unfold import_layers. rewrite Hlayers.
        by destruct (decide (200 <> 200)). }
      by rewrite Hnone. }
    rewrite (import_layers_accepted env map_resource st1 l ls) by done.
    assert (new_names (l :: ls)
              (map Resource.name
                 (filter (fun r => Resource.type r = "layer"
                                   /\ Resource.parent_id r
                                      = Some (Resource.id map_resource))
                         (resources st1)))
            = []) as ->; [|done].
    unfold st1.
    rewrite (import_layers_accepted env map_resource st l ls) by done.
    cbn [snd].
    destruct (new_names (l :: ls)
                (map Resource.name (filter _ (resources st))))
      as [|n ns] eqn:Hnew;
      unfold flash, put_resources; cbn [snd resources]; [done|].
    destruct (add_resources_app "layer" (Some (Resource.id map_resource))
                (n :: ns) (resources st))
      as (added & -> & Hnames & Hadded).
    rewrite names_after_add by done.
    rewrite Hnames, <- Hnew. by rewrite new_names_of_imported.
Qed.
Lemma import_twice_adds_nothing_witness :
  import_maps sample_env (import_maps sample_env sample_state).2
  = (Ok (Redirect "resources" [("type", "map")]),
     (flash "No additional maps found." "info"
        (import_maps sample_env sample_state).2).2).
Proof.
  exact (proj1 (import_twice_adds_nothing sample_env sample_state
                  "http://localhost:5010/"
                  ["region"; "harbour"; "city"; "airport"]
                  ["region"; "harbour"; "city"; "airport"]
                  (Resource.mk 1 "map" "city" None)
                  eq_refl eq_refl eq_refl eq_refl)).
Defined.

(** ** The rows of the resources list *)

(** X21: the resources list holds exactly the rows of the resources
    joined to their types that pass the filters (the name matches the
    search text, if one is given and not empty; the type is the asked
    one, if one is asked), each as often as the join has it, and in the
    order asked for: by the criterion of a sortable column ("id", "type",
    "name"), with its first column descending when the sort is, or
    otherwise, and for a column that is not sortable, by the type's
    list_order, the type, the name and the id. *)
Theorem index_rows_are_the_sorted_matches (ilike : string -> string -> bool)
    (search_text resource_type : option string) (sort : option string)
    (sort_asc : bool) (st : app_state) :
  let rows :=
    (index_query ilike search_text resource_type sort sort_asc st).1 in
  let order_by :=
    match sort ≫= (fun s => order_by_criterion s sort_asc) with
    | Some order_by => order_by
    | None => default_order
    end in
  let matches := fun q : row =>
    match search_text with
    | Some text =>
        String.eqb text EmptyString
        || ilike (Resource.name q.1) ("%" +:+ text +:+ "%")
    | None => true
    end
    && match resource_type with
       | Some ty => String.eqb (Resource.type q.1) ty
       | None => true
       end in
  StronglySorted (rows_le order_by) rows
  /\ rows ≡ₚ filter (fun q => matches q = true)
                    (join_types (resources st) (resource_types st))
  /\ (forall s, sort = Some s -> s ∉ ["id"; "type"; "name"] ->
                order_by = default_order).
Proof.
  intros rows order_by matches.
  set (joined := join_types (resources st) (resource_types st)).
  assert (StronglySorted (rows_le default_order)
            (resources_for_index_query ilike search_text resource_type st)
          /\ resources_for_index_query ilike search_text resource_type st
             ≡ₚ filter (fun q => matches q = true) joined)
    as [Hsorted Hperm].
  { unfold resources_for_index_query. fold joined. split.
    - destruct resource_type as [ty|], search_text as [text|];
        try destruct (String.eqb text EmptyString);
        repeat apply StronglySorted_filter;
        apply StronglySorted_merge_sort; apply _.
    - assert (order_rows default_order joined ≡ₚ joined) as Hjoined
        by apply merge_sort_Permutation.
      unfold matches.
      destruct resource_type as [ty|], search_text as [text|];
        try destruct (String.eqb text EmptyString);
        rewrite ?list_filter_filter, Hjoined; simpl.
      all: try (apply Permutation_refl'; apply list_filter_iff; intros q;
                rewrite ?andb_true_iff, ?String.eqb_eq; tauto).
      all: symmetry; apply Permutation_refl'; apply filter_all; by intros q _. }
  unfold rows, order_by, index_query.
  destruct sort as [s|]; simpl; [|by split; [|split]].
  destruct (order_by_criterion s sort_asc) as [ob|] eqn:Hob; simpl.
  - split; [apply StronglySorted_merge_sort; apply _|].
    split; [unfold order_rows; by rewrite merge_sort_Permutation|].
    intros s' [= <-] Hs. exfalso. revert Hob. unfold order_by_criterion.
    simpl.
    destruct (String.eqb_spec s "id") as [->|_];
      [destruct Hs; apply list_elem_of_In; simpl; tauto|].
    destruct (String.eqb_spec s "type") as [->|_];
      [destruct Hs; apply list_elem_of_In; simpl; tauto|].
    destruct (String.eqb_spec s "name") as [->|_];
      [destruct Hs; apply list_elem_of_In; simpl; tauto|].
    done.
  - by split; [|split].
Qed.

(** ** The parent choices of the resource form *)

Lemma update_last_snoc {A} (f : A -> A) (l : list A) (x : A) :
  update_last f (l ++ [x]) = Some (l ++ [f x]).
Proof.
  induction l as [|y l IH]; [done|].
  simpl. rewrite IH. by destruct (l ++ [x]) eqn:E; [destruct l|].
Qed.

Lemma last_map_Some {A B} (f : A -> B) (l : list A) (y : B) :
  last (map f l) = Some y -> exists l' x, l = l' ++ [x] /\ f x = y.
Proof.
  induction l as [|x l _] using rev_ind; [done|].
  rewrite map_app. simpl. rewrite last_snoc. intros [= <-]. by exists l, x.
Qed.

Lemma string_compare_le_antisym (a b : string) :
  String.compare a b <> Gt -> String.compare b a <> Gt -> a = b.
Proof.
  intros Hab Hba. apply String.compare_eq_iff.
  rewrite String.compare_antisym in Hba.
  by destruct (String.compare a b).
Qed.

(** Between two rows of one type, in the order of the form's query, lie
    only rows of that type. *)
Lemma form_order_convex (x y z : row) :
  rows_le form_order x y -> rows_le form_order y z ->
  ResourceType.list_order x.2 = ResourceType.list_order z.2 ->
  Resource.type x.1 = Resource.type z.1 ->
  Resource.type y.1 = Resource.type x.1.
Proof.
  unfold rows_le, form_order, rows_compare, column_compare.
  intros Hxy Hyz Hlo Hty. rewrite <- Hlo, <- Hty in Hyz.
  destruct (Z.compare_spec (ResourceType.list_order x.2)
              (ResourceType.list_order y.2)) as [Hxy'|Hxy'|Hxy'];
    destruct (Z.compare_spec (ResourceType.list_order y.2)
                (ResourceType.list_order x.2)) as [Hyx'|Hyx'|Hyx'];
    try lia; try done.
  symmetry. apply string_compare_le_antisym.
  - by destruct (String.compare (Resource.type x.1) (Resource.type y.1)).
  - by destruct (String.compare (Resource.type y.1) (Resource.type x.1)).
Qed.

Section ParentChoices.
Context {st : app_state} (Htypes : types_ok st).

Lemma joined_same_type (q q' : row) :
  q ∈ join_types (resources st) (resource_types st) ->
  q' ∈ join_types (resources st) (resource_types st) ->
  Resource.type q.1 = Resource.type q'.1 -> q.2 = q'.2.
Proof.
  intros Hq Hq' Hty.
  apply (join_types_type_row Htypes) in Hq, Hq'.
  unfold type_row in Hq, Hq'. rewrite Hty in Hq. congruence.
Qed.

Lemma parent_choices_fold (pre rest : list row) :
  order_rows form_order (join_types (resources st) (resource_types st))
  = pre ++ rest ->
  exists groups,
    foldl parent_choices_step (Ok (None, [])) pre
    = Ok (last (map (fun q : row => Resource.type q.1) pre), groups)
    /\ last (map choice_resource_type groups)
       = last (map (fun q : row => Resource.type q.1) pre)
    /\ concat (map options groups)
       = map (fun q : row => (Resource.id q.1, Resource.name q.1)) pre
    /\ (forall g, g ∈ groups ->
          options g <> []
          /\ forall o, o ∈ options g ->
               exists q : row,
                 q ∈ pre
                 /\ o = (Resource.id q.1, Resource.name q.1)
                 /\ Resource.type q.1 = choice_resource_type g
                 /\ ResourceType.description q.2 = group_label g)
    /\ NoDup (map choice_resource_type groups).
Proof.
  set (rows := order_rows form_order
                 (join_types (resources st) (resource_types st))).
  assert (StronglySorted (rows_le form_order) rows) as Hsorted
    by (apply StronglySorted_merge_sort; apply _).
  assert (forall q, q ∈ rows ->
                    q ∈ join_types (resources st) (resource_types st))
    as Hjoined.
  { intros q. unfold rows, order_rows. by rewrite merge_sort_Permutation. }
  revert rest. induction pre as [|q pre IH] using rev_ind; intros rest Hrows.
  { exists []. split; [done|]. split; [done|]. split; [done|].
    split; [by intros g ?%elem_of_nil|constructor]. }
  rewrite <- app_assoc in Hrows. simpl in Hrows.
  destruct (IH _ Hrows) as (groups & Hfold & Hlast & Hconcat & Hgroups & Hnd).
  rewrite foldl_app, Hfold. simpl foldl.
  rewrite map_app. simpl map. rewrite last_snoc.
  unfold parent_choices_step. simpl.
  set (cur := last (map (fun q : row => Resource.type q.1) pre)) in *.
  assert (forall x, x ∈ pre -> x ∈ rows) as Hpre.
  { intros x Hx. rewrite Hrows. apply elem_of_app. by left. }
  assert (q ∈ rows) as Hq.
  { rewrite Hrows. apply elem_of_app. right. by left. }
  destruct (decide (Some (Resource.type q.1) <> cur)) as [Hnew|Hsame].
  - rewrite update_last_snoc. simpl. eexists. split; [done|].
    rewrite !map_app, concat_app. simpl. rewrite last_snoc, Hconcat.
    split; [done|]. split; [done|]. split.
    + intros g Hg. apply elem_of_app in Hg as [Hg|Hg].
      * destruct (Hgroups g Hg) as [Hne Hopts]. split; [done|].
        intros o Ho. destruct (Hopts o Ho) as (q' & Hq' & ?).
        exists q'. split; [|done]. apply elem_of_app. by left.
      * apply list_elem_of_singleton in Hg as ->. simpl. split; [done|].
        intros o Ho. apply list_elem_of_singleton in Ho as ->.
        exists q. split; [|done]. apply elem_of_app. right. by left.
    + apply NoDup_app. split; [done|]. split; [|apply NoDup_singleton].
      intros ty Hty Hty'. apply list_elem_of_singleton in Hty' as ->.
      apply elem_of_map in Hty as (g & Hg_ty & Hg).
      destruct (Hgroups g Hg) as [Hne Hopts].
      destruct (options g) as [|o os] eqn:Hos; [done|].
      destruct (Hopts o) as (x & Hx & _ & Hx_ty & _); [left|].
      destruct (last pre) as [y|] eqn:Hy.
      2:{ apply last_None in Hy. subst pre. by apply elem_of_nil in Hx. }
      apply last_Some in Hy as [pre0 ->].
      unfold cur in Hnew. rewrite map_app in Hnew. simpl in Hnew.
      rewrite last_snoc in Hnew.
      apply elem_of_app in Hx as [Hx|Hx].
      2:{ apply list_elem_of_singleton in Hx as ->. congruence. }
      rewrite <- app_assoc in Hrows. simpl in Hrows.
      rewrite Hrows in Hsorted.
      assert (rows_le form_order x y) as Hxy.
      { eapply StronglySorted_app_1_elem_of; [done|done|left]. }
      assert (rows_le form_order y q) as Hyq.
      { apply StronglySorted_app_1_r in Hsorted.
        apply StronglySorted_inv in Hsorted as [_ Hall].
        by apply Forall_cons in Hall as [? _]. }
      assert (x ∈ rows) as Hx_rows.
      { apply Hpre. apply elem_of_app. by left. }
      assert (Resource.type x.1 = Resource.type q.1) as Hxq by congruence.
      pose proof (joined_same_type x q (Hjoined _ Hx_rows) (Hjoined _ Hq) Hxq)
        as Hxq2.
      apply Hnew. f_equal. rewrite <- Hxq. symmetry.
      apply (form_order_convex x y q Hxy Hyq); [by rewrite Hxq2|done].
  - apply dec_stable in Hsame.
    rewrite <- Hsame in Hlast |- *.
    apply last_map_Some in Hlast as (gs & g & -> & Hg).
    rewrite update_last_snoc. simpl. eexists. split; [done|].
    rewrite !map_app, !concat_app in *. simpl in *.
    rewrite last_snoc. rewrite app_nil_r in *.
    split; [by rewrite Hg|].
    split; [by rewrite app_assoc, Hconcat|].
    split; [|done].
    intros g0 Hg0. apply elem_of_app in Hg0 as [Hg0|Hg0].
    + destruct (Hgroups g0) as [Hne Hopts]; [apply elem_of_app; by left|].
      split; [done|].
      intros o Ho. destruct (Hopts o Ho) as (q' & Hq' & ?).
      exists q'. split; [|done]. apply elem_of_app. by left.
    + apply list_elem_of_singleton in Hg0 as ->. simpl.
      destruct (Hgroups g) as [Hne Hopts];
        [apply elem_of_app; right; by left|].
      split; [by destruct (options g)|].
      intros o Ho. apply elem_of_app in Ho as [Ho|Ho].
      * destruct (Hopts o Ho) as (q' & Hq' & ?).
        exists q'. split; [|done]. apply elem_of_app. by left.
      * apply list_elem_of_singleton in Ho as ->.
        exists q. split; [apply elem_of_app; right; by left|].
        split; [done|]. split; [done|].
        destruct (options g) as [|o os] eqn:Hos; [done|].
        destruct (Hopts o) as (x & Hx & _ & Hx_ty & Hx_label); [left|].
        rewrite <- Hx_label. f_equal. symmetry.
        apply joined_same_type; [by apply Hjoined, Hpre|by apply Hjoined|].
        congruence.
Qed.
End ParentChoices.
(** X22: the parent choices of the resource form, grouped by type.  With
    every resource's type in the types table once, the form is made
    without an exception; its groups hold, taken one after the other, the
    resources in the order of the form's query (the type's list_order,
    the type, the name), every resource of the table once; every group
    has at least one option, only resources of the group's type, and the
    description of that type as its label; and no two groups have the same
    type.  The flat parent choices are the entry of no parent, 0, and
    then the same resources in the same order. *)
Theorem parent_choices_are_grouped_by_type (st : app_state)
    (request_form : ResourceForm.t) (type_arg : option string) :
  types_ok st ->
  let rows := order_rows form_order
                (join_types (resources st) (resource_types st)) in
  exists form,
    ResourcesController.create_form request_form type_arg st = (Ok form, st)
    /\ concat (map options (ResourceForm.parent_choices form))
       = map (fun q : row => (Resource.id q.1, Resource.name q.1)) rows
    /\ NoDup (map choice_resource_type (ResourceForm.parent_choices form))
    /\ (forall g, g ∈ ResourceForm.parent_choices form ->
          options g <> []
          /\ forall o, o ∈ options g ->
               exists q : row,
                 q ∈ rows
                 /\ o = (Resource.id q.1, Resource.name q.1)
                 /\ Resource.type q.1 = choice_resource_type g
                 /\ ResourceType.description q.2 = group_label g)
    /\ ResourceForm.parent_id_choices form
       = (0, EmptyString)
         :: map (fun q : row =>
                   (Resource.id q.1,
                    Resource.type q.1 +:+ ": " +:+ Resource.name q.1)) rows
    /\ map fst rows ≡ₚ resources st.
Proof.
  intros Htypes rows.
  destruct (parent_choices_fold Htypes rows []) as
    (groups & Hfold & _ & Hconcat & Hgroups & Hnd);
    [by rewrite app_nil_r|].
  unfold ResourcesController.create_form. fold rows. rewrite Hfold. simpl.
  eexists. split; [done|]. simpl.
  split; [done|]. split; [done|]. split; [done|]. split; [done|].
  unfold rows, order_rows. rewrite merge_sort_Permutation.
  by rewrite (join_types_fst Htypes).
Qed.

Lemma parent_choices_are_grouped_by_type_witness :
  exists form,
    ResourcesController.create_form layer_form None sample_state
    = (Ok form, sample_state)
    /\ NoDup (map choice_resource_type (ResourceForm.parent_choices form)).
Proof.
  destruct (parent_choices_are_grouped_by_type sample_state layer_form None
              sample_types_ok) as (form & Hform & _ & Hnd & _).
  exists form. split; [exact Hform|exact Hnd].
Defined.

(** ** The type choices of the resource form *)

Lemma ordering_type_compare : ordering type_compare.
Proof.
  apply (ordering_lex _ _ (ordering_Z ResourceType.list_order)
           (ordering_string ResourceType.name)).
Qed.

#[global] Instance types_le_total : Total types_le.
Proof.
  intros a b. unfold types_le.
  rewrite (ordering_antisym _ ordering_type_compare a b).
  destruct (type_compare a b); [left|left|right]; done.
Qed.

#[global] Instance types_le_trans : Transitive types_le.
Proof.
  intros a b c. unfold types_le. intros Hab Hbc.
  pose proof ordering_type_compare as [Hanti Heq Hlt].
  destruct (type_compare a b) eqn:Eab; [| |done].
  - by rewrite (Heq a b c Eab).
  - destruct (type_compare b c) eqn:Ebc; [| |done].
    + assert (type_compare a c = type_compare a b) as ->; [|by rewrite Eab].
      rewrite (Hanti c a), (Hanti b a). f_equal. apply Heq.
      by rewrite (Hanti b c), Ebc.
    + by rewrite (Hlt a b c Eab Ebc).
Qed.

Lemma StronglySorted_mono {A} (R R' : relation A) (l : list A) :
  (forall a b, R a b -> R' a b) -> StronglySorted R l -> StronglySorted R' l.
Proof.
  intros HR. induction 1 as [|x l _ IH Hx]; constructor; [done|].
  eapply Forall_impl; [done|]. intros y. apply HR.
Qed.

(** X23: the type choices of the resource form are the types of the
    table, each row once, by rising list_order and, within one
    list_order, by name; the type preselected is the [type] argument of
    the request when there is one, and the form's own otherwise.  The
    form is made without a change of the state. *)
Theorem type_choices_are_the_ordered_types (st : app_state)
    (request_form form : ResourceForm.t) (type_arg : option string)
    (st' : app_state) :
  ResourcesController.create_form request_form type_arg st = (Ok form, st') ->
  exists types,
    ResourceForm.type_choices form
    = map (fun t => (ResourceType.name t, ResourceType.description t)) types
    /\ types ≡ₚ resource_types st
    /\ StronglySorted
         (fun a b =>
            ResourceType.list_order a < ResourceType.list_order b
            \/ (ResourceType.list_order a = ResourceType.list_order b
                /\ String.compare (ResourceType.name a) (ResourceType.name b)
                   <> Gt)) types
    /\ ResourceForm.type form
       = default (ResourceForm.type request_form) type_arg
    /\ st' = st.
Proof.
  unfold ResourcesController.create_form. intros H.
  destruct (foldl parent_choices_step _ _) as [acc|e]; simpl in H; [|done].
  injection H as <- <-. exists (ordered_types (resource_types st)).
  split; [done|]. split; [apply merge_sort_Permutation|].
  split; [|by destruct type_arg].
  eapply StronglySorted_mono; [|apply StronglySorted_merge_sort; apply _].
  intros a b. unfold types_le, type_compare.
  destruct (Z.compare_spec (ResourceType.list_order a)
              (ResourceType.list_order b)); [by right|by left|done].
Qed.

Lemma type_choices_are_the_ordered_types_witness :
  exists types,
    [("map", "Map"); ("layer", "Layer"); ("attribute", "Attribute")]
    = map (fun t => (ResourceType.name t, ResourceType.description t)) types
    /\ types ≡ₚ sample_types.
Proof.
  destruct (ResourcesController.create_form layer_form None sample_state)
    as [[form|e] st'] eqn:Hform; [|vm_compute in Hform; discriminate Hform].
  destruct (type_choices_are_the_ordered_types sample_state layer_form form
              None st' Hform) as (types & Hchoices & Hperm & _).
  exists types. split; [|exact Hperm].
  rewrite <- Hchoices. vm_compute in Hform. injection Hform as <- _.
  reflexivity.
Defined.

(** ** An update of a theme without keys *)

(** X24: an update of a theme that has no key at all does not replace it.
    [find_theme] finds the item, so the request is not answered with 404,
    but the empty item counts as no theme in [create_or_update_theme],
    which takes the branch of a create: with the commit accepted the item
    of the form is appended to the list, the addressed item stays, and a
    new map resource named after the url is added to the table. *)
Theorem update_of_keyless_theme_appends (py_int : string -> option Z)
    (py_str : value -> string) (env : environment) (form : ThemeForm.t)
    (tid : Z) (gid : option Z) (st : app_state) (l : list theme)
    (item : theme) (name : string) :
  commit env = Committed ->
  find_theme tid gid (themesconfig st) = Some [] ->
  target_items gid (themesconfig st) = Ok l ->
  build_item py_int form = Ok item ->
  url_basename (ThemeForm.url form) = Ok name ->
  exists st',
    update_theme py_int py_str env form true tid gid st
    = (Ok (Redirect "themes" []), st')
    /\ target_items gid (themesconfig st') = Ok (l ++ [item])
    /\ resources st'
       = resources st
         ++ [ {| Resource.id := fresh_id (resources st);
                 Resource.type := "map"; Resource.name := name;
                 Resource.parent_id := None |} ].
Proof.
  intros Hcommit Hfind Hl Hitem Hname.
  unfold update_theme, create_form, create_or_update_theme,
    append_theme_item, commit_or_flash, save_themesconfig.
  rewrite Hcommit.
  unfold mbind, handler_bind, get_doc, put_doc, put_file, get_resources,
    put_resources, flash, lift, mret, handler_ret. simpl.
  rewrite Hfind. simpl. rewrite Hitem, Hname. simpl.
  destruct gid as [g|]; simpl in Hl |- *.
  - destruct (py_getitem (groups (themesconfig st)) g) as [grp|] eqn:Hgrp;
      [|done].
    simpl in Hl. injection Hl as <-. simpl.
    unfold py_getitem in Hgrp.
    destruct (py_index (groups (themesconfig st)) g) as [k|] eqn:Hk; [|done].
    destruct (groups (themesconfig st) !! k) as [grp'|] eqn:Hk'; [|done].
    injection Hgrp as ->.
    destruct (py_insert_restore _ g k grp
                (set_group_items grp (group_items grp ++ [item])) Hk Hk')
      as [Hget _].
    unfold py_setitem. rewrite Hk. simpl.
    destruct (write_error env); simpl; eexists; (split; [done|]); simpl;
      by rewrite Hget.
  - injection Hl as <-.
    destruct (write_error env); simpl; by eexists.
Qed.

Lemma update_of_keyless_theme_appends_witness :
  exists st',
    update_theme sample_int sample_str sample_env sample_form true 0 None
      keyless_state
    = (Ok (Redirect "themes" []), st')
    /\ target_items None (themesconfig st')
       = Ok [ [];
              [("url", VStr "/maps/harbour"); ("title", VStr "Harbour");
               ("attribution", VStr EmptyString); ("default", VBool false);
               ("scales", VList [VInt 1000; VInt 500]);
               ("skipEmptyFeatureAttributes", VBool false);
               ("searchProviders", VList []);
               ("backgroundLayers", VList [])] ]
    /\ resources st'
       = sample_resources ++ [Resource.mk 6 "map" "harbour" None].
Proof.
  exact (update_of_keyless_theme_appends sample_int sample_str sample_env
           sample_form 0 None keyless_state [[]] _ "harbour" eq_refl eq_refl
           eq_refl eq_refl eq_refl).
Defined.

(** ** The title of a group *)

(** X25: the update of a group that does not fail changes the title of
    the addressed group, to the text of the form, and nothing else: the
    themes of the group, the other groups, the flat list and the
    resources table stay as they were. *)
Theorem update_theme_group_renames_one_group (env : environment)
    (title : string) (gid : Z) (st st' : app_state) (r : response) :
  update_theme_group env title gid st = (Ok r, st') ->
  items (themesconfig st') = items (themesconfig st)
  /\ resources st' = resources st
  /\ exists k grp,
       py_index (groups (themesconfig st)) gid = Some k
       /\ groups (themesconfig st) !! k = Some grp
       /\ groups (themesconfig st')
          = <[k := {| group_title := VStr title;
                      group_items := group_items grp |}]>
              (groups (themesconfig st)).
Proof.
  unfold update_theme_group. intros H.
  handler_step H as d st1 Hd. handler_step H as grp st2 Hgrp.
  handler_step H as gs st3 Hgs. handler_step H as u st4 Hput.
  handler_step H as u' st5 Hsave. handler_prim H.
  apply save_themesconfig_doc in Hsave as (_ & -> & ->). simpl.
  split; [done|]. split; [done|].
  unfold py_getitem in H0. unfold py_setitem in H1.
  destruct (py_index _ gid) as [k|]; [|done].
  destruct (_ !! k) as [grp'|] eqn:Hk; [|done].
  injection H0 as ->. injection H1 as <-. by exists k, grp.
Qed.

Lemma update_theme_group_renames_one_group_witness :
  items (themesconfig (update_theme_group sample_env "base" 1 sample_state).2)
  = sample_items.
Proof.
  exact (proj1 (update_theme_group_renames_one_group sample_env "base" 1
                  sample_state
                  (update_theme_group sample_env "base" 1 sample_state).2
                  (Redirect "themes" []) eq_refl)).
Defined.
